(** * Machinist: tool registry, workflow engine and sandbox command line

    A shallow embedding of [machinist/registry.py] and
    [machinist/workflow.py], followed by the properties proved about them.

    Layout: the first part holds the definitions (Python run-time values,
    the JSON and SHA-256 library functions the code calls, the registry, the
    workflow engine, the sandbox command line); the second part holds the
    lemmas and theorems. *)

From Stdlib Require Import ZArith Ascii String List.
From stdpp Require Import gmap strings list sorting pretty finite.

Set Warnings "-register-all".

Local Open Scope Z_scope.

(* ===================================================================== *)
(** * Part I: definitions *)
(* ===================================================================== *)

(** ** Python strings

    A Python [str] is modelled by a Rocq [string] holding its UTF-8 bytes.
    The methods below are the ones the engine calls.  White space is the
    one of [str.isspace], multi-byte characters included; letter case is
    the ASCII one. *)
Module pystr.

(** The double-quote character. *)
Definition dquote : ascii := "034"%char.
(** The single-quote character. *)
Definition squote : ascii := "039"%char.
Definition backslash : ascii := "092"%char.

Definition of_char (c : ascii) : string := String c "".

(** [s.startswith(p)] *)
Definition startswith (p s : string) : bool := String.prefix p s.

(** [s[n:]] *)
Fixpoint drop (n : nat) (s : string) : string :=
  match n, s with
  | O, _ => s
  | S n', String _ s' => drop n' s'
  | S _, EmptyString => EmptyString
  end.

(** [needle in hay] *)
Fixpoint contains (needle hay : string) : bool :=
  String.prefix needle hay ||
  match hay with
  | EmptyString => false
  | String _ hay' => contains needle hay'
  end.

(** [s.split(sep, 1)] when [sep] occurs in [s]: the text before the first
    occurrence and the text after it; [None] when [sep] does not occur
    (Python then returns the one-element list [[s]]). *)
Fixpoint split_once (sep s : string) : option (string * string) :=
  if String.prefix sep s then Some (EmptyString, drop (String.length sep) s)
  else match s with
       | EmptyString => None
       | String c s' =>
           match split_once sep s' with
           | Some (before, after) => Some (String c before, after)
           | None => None
           end
       end.

Definition lower_char (c : ascii) : ascii :=
  let n := nat_of_ascii c in
  if (Nat.leb 65 n && Nat.leb n 90)%bool then ascii_of_nat (n + 32) else c.

(** [s.lower()] (ASCII letters). *)
Fixpoint lower (s : string) : string :=
  match s with
  | EmptyString => EmptyString
  | String c s' => String (lower_char c) (lower s')
  end.

Fixpoint lstrip (p : ascii -> bool) (s : string) : string :=
  match s with
  | EmptyString => EmptyString
  | String c s' => if p c then lstrip p s' else s
  end.

Fixpoint rstrip (p : ascii -> bool) (s : string) : string :=
  match s with
  | EmptyString => EmptyString
  | String c s' =>
      match rstrip p s' with
      | EmptyString => if p c then EmptyString else String c EmptyString
      | kept => String c kept
      end
  end.

(** [s.strip(chars)]: every leading and every trailing character that
    satisfies [p] is removed. *)
Definition strip_with (p : ascii -> bool) (s : string) : string :=
  rstrip p (lstrip p s).

Fixpoint all_chars (p : ascii -> bool) (s : string) : bool :=
  match s with
  | EmptyString => true
  | String c s' => p c && all_chars p s'
  end.

(** The first character exists and satisfies [p]. *)
Definition head_is (p : ascii -> bool) (s : string) : bool :=
  match s with
  | EmptyString => false
  | String c _ => p c
  end.

(** The last character exists and satisfies [p]. *)
Fixpoint last_is (p : ascii -> bool) (s : string) : bool :=
  match s with
  | EmptyString => false
  | String c EmptyString => p c
  | String _ s' => last_is p s'
  end.

(** [s.strip(c)] for a one-character argument. *)
Definition strip_char (c : ascii) (s : string) : string :=
  strip_with (Ascii.eqb c) s.

(** The white space of [str.isspace] that takes one byte: TAB, LF, VT,
    FF, CR, FS, GS, RS, US and the space. *)
Definition is_space (c : ascii) : bool :=
  let n := nat_of_ascii c in
  ((Nat.leb 9 n && Nat.leb n 13) || (Nat.leb 28 n && Nat.leb n 32))%bool.

(** The white space that takes two bytes: U+0085 and U+00A0. *)
Definition is_space2 (c1 c2 : ascii) : bool :=
  let n2 := nat_of_ascii c2 in
  (Nat.eqb (nat_of_ascii c1) 194 && (Nat.eqb n2 133 || Nat.eqb n2 160))%bool.

(** The white space that takes three bytes: U+1680, U+2000 to U+200A,
    U+2028, U+2029, U+202F, U+205F and U+3000. *)
Definition is_space3 (c1 c2 c3 : ascii) : bool :=
  let n1 := nat_of_ascii c1 in
  let n2 := nat_of_ascii c2 in
  let n3 := nat_of_ascii c3 in
  ((Nat.eqb n1 225 && Nat.eqb n2 154 && Nat.eqb n3 128)
   || (Nat.eqb n1 226 && Nat.eqb n2 128
       && ((Nat.leb 128 n3 && Nat.leb n3 138)
           || Nat.eqb n3 168 || Nat.eqb n3 169 || Nat.eqb n3 175))
   || (Nat.eqb n1 226 && Nat.eqb n2 129 && Nat.eqb n3 159)
   || (Nat.eqb n1 227 && Nat.eqb n2 128 && Nat.eqb n3 128))%bool.

(** Every leading character of one, two or three bytes that [p1], [p2]
    or [p3] accepts is removed. *)
Fixpoint lstrip_seq (p1 : ascii -> bool) (p2 : ascii -> ascii -> bool)
    (p3 : ascii -> ascii -> ascii -> bool) (s : string) : string :=
  match s with
  | String c1 s1 =>
      if p1 c1 then lstrip_seq p1 p2 p3 s1
      else match s1 with
           | String c2 s2 =>
               if p2 c1 c2 then lstrip_seq p1 p2 p3 s2
               else match s2 with
                    | String c3 s3 =>
                        if p3 c1 c2 c3 then lstrip_seq p1 p2 p3 s3 else s
                    | EmptyString => s
                    end
           | EmptyString => s
           end
  | EmptyString => s
  end.

(** [s.lstrip()] *)
Definition lstrip_space (s : string) : string :=
  lstrip_seq is_space is_space2 is_space3 s.

(** [s.rstrip()]: the text is read from its end, where the bytes of a
    character come in reverse. *)
Definition rstrip_space (s : string) : string :=
  String.rev
    (lstrip_seq is_space (fun c2 c1 => is_space2 c1 c2)
       (fun c3 c2 c1 => is_space3 c1 c2 c3) (String.rev s)).

(** [s.strip()] *)
Definition strip (s : string) : string := rstrip_space (lstrip_space s).

(** [sep.join(parts)] *)
Fixpoint join (sep : string) (parts : list string) : string :=
  match parts with
  | [] => EmptyString
  | [p] => p
  | p :: rest => p +:+ sep +:+ join sep rest
  end.

Definition hex_digit (n : nat) : ascii :=
  match n with
  | 0 => "0" | 1 => "1" | 2 => "2" | 3 => "3" | 4 => "4" | 5 => "5"
  | 6 => "6" | 7 => "7" | 8 => "8" | 9 => "9" | 10 => "a" | 11 => "b"
  | 12 => "c" | 13 => "d" | 14 => "e" | _ => "f"
  end%char%nat.

(** Two lower-case hexadecimal digits of a byte. *)
Definition hex2 (n : nat) : string :=
  String (hex_digit (Nat.div n 16)) (String (hex_digit (Nat.modulo n 16)) "").

End pystr.

(** ** Python values

    The values that flow through a workflow: what [json.loads] yields and
    what a tool may return.  A [dict] keeps insertion order, so it is an
    association list with unique keys, updated by [dict_set]. *)
Module py.

Inductive value : Type :=
| VNone
| VBool (b : bool)
| VInt (z : Z)
| VStr (s : string)
| VList (l : list value)
| VDict (d : list (string * value)).

Abbreviation dict := (list (string * value)).

(** [d.get(k)], with [None] for the Python default. *)
Fixpoint dict_get {A} (k : string) (d : list (string * A)) : option A :=
  match d with
  | [] => None
  | (k', v) :: d' => if String.eqb k k' then Some v else dict_get k d'
  end.

(** [k in d] *)
Definition dict_mem {A} (k : string) (d : list (string * A)) : bool :=
  match dict_get k d with Some _ => true | None => false end.

(** [d[k] = v]: an existing key keeps its place, a new one goes last. *)
Fixpoint dict_set {A} (k : string) (v : A) (d : list (string * A))
  : list (string * A) :=
  match d with
  | [] => [(k, v)]
  | (k', v') :: d' =>
      if String.eqb k k' then (k, v) :: d' else (k', v') :: dict_set k v d'
  end.

Definition dict_keys {A} (d : list (string * A)) : list string := map fst d.

Definition is_none (v : value) : bool :=
  match v with VNone => true | _ => false end.

(** [repr(s)] for a string: single quotes unless the text holds a single
    quote and no double quote; backslash, the chosen quote, TAB, LF and CR
    are escaped, other control characters print as [\xNN].  Bytes above
    127 are kept (printable non-ASCII text). *)
Definition repr_char (q : ascii) (c : ascii) : string :=
  let n := nat_of_ascii c in
  if Ascii.eqb c pystr.backslash then String pystr.backslash (String pystr.backslash "")
  else if Ascii.eqb c q then String pystr.backslash (String q "")
  else if Nat.eqb n 9 then String pystr.backslash "t"
  else if Nat.eqb n 10 then String pystr.backslash "n"
  else if Nat.eqb n 13 then String pystr.backslash "r"
  else if (Nat.ltb n 32 || Nat.eqb n 127)%bool
       then String pystr.backslash ("x" +:+ pystr.hex2 n)
  else String c "".

Fixpoint repr_chars (q : ascii) (s : string) : string :=
  match s with
  | EmptyString => EmptyString
  | String c s' => repr_char q c +:+ repr_chars q s'
  end.

Definition repr_str (s : string) : string :=
  let q := if (pystr.contains (pystr.of_char pystr.squote) s
               && negb (pystr.contains (pystr.of_char pystr.dquote) s))%bool
           then pystr.dquote else pystr.squote in
  String q (repr_chars q s +:+ String q "").

(** [repr(v)] *)
Fixpoint repr (v : value) : string :=
  match v with
  | VNone => "None"
  | VBool true => "True"
  | VBool false => "False"
  | VInt z => pretty z
  | VStr s => repr_str s
  | VList l => "[" +:+ pystr.join ", " (map repr l) +:+ "]"
  | VDict d =>
      "{" +:+ pystr.join ", "
                (map (fun kv => repr_str (fst kv) +:+ ": " +:+ repr (snd kv)) d)
          +:+ "}"
  end.

(** [str(v)] *)
Definition str (v : value) : string :=
  match v with
  | VStr s => s
  | _ => repr v
  end.

(** [bool(v)] *)
Definition truthy (v : value) : bool :=
  match v with
  | VNone => false
  | VBool b => b
  | VInt z => negb (Z.eqb z 0)
  | VStr s => negb (String.eqb s "")
  | VList l => match l with [] => false | _ => true end
  | VDict d => match d with [] => false | _ => true end
  end.

(** Exceptions: the class name and the message. *)
Record exn : Type := Exn { exn_class : string; exn_msg : string }.

Definition ValueError (msg : string) : exn := Exn "ValueError" msg.
Definition TypeError (msg : string) : exn := Exn "TypeError" msg.
Definition RuntimeError (msg : string) : exn := Exn "RuntimeError" msg.

(** The outcome of a call: a value, a raised exception, or no answer
    within the recursion budget of the model (Python would recurse until
    the host gives up). *)
Inductive outcome (A : Type) : Type :=
| Ret (a : A)
| Raise (e : exn)
| Diverge.
Arguments Ret {A} a.
Arguments Raise {A} e.
Arguments Diverge {A}.

Definition bind {A B} (m : outcome A) (k : A -> outcome B) : outcome B :=
  match m with
  | Ret a => k a
  | Raise e => Raise e
  | Diverge => Diverge
  end.

(** [try: m  except: handler] (a bare [except] catches every exception). *)
Definition try_except {A} (m : outcome A) (handler : outcome A) : outcome A :=
  match m with
  | Raise _ => handler
  | other => other
  end.

End py.

(** ** The [json] library, as far as the code uses it *)
Module json.
Import py.

Definition hex4 (n : N) : string :=
  let d (k : N) := pystr.hex_digit (N.to_nat (N.land (N.shiftr n (4 * k)) 15)) in
  String (d 3%N) (String (d 2%N) (String (d 1%N) (String (d 0%N) ""))).

Definition u_escape (cp : N) : string :=
  String pystr.backslash ("u" +:+ hex4 cp).

(** A code point outside ASCII under [ensure_ascii=True]: one [\uXXXX], or
    a surrogate pair above the basic plane. *)
Definition escape_code_point (cp : N) : string :=
  if (cp <? 65536)%N then u_escape cp
  else let v := (cp - 65536)%N in
       u_escape (N.lor 55296 (N.shiftr v 10)) +:+
       u_escape (N.lor 56320 (N.land v 1023)).

(** The escapes both encoders share; [None] when the byte is written
    as it is. *)
Definition escape_common (c : ascii) : option string :=
  let n := nat_of_ascii c in
  if Ascii.eqb c pystr.dquote then Some (String pystr.backslash (String pystr.dquote ""))
  else if Ascii.eqb c pystr.backslash then Some (String pystr.backslash (String pystr.backslash ""))
  else if Nat.eqb n 10 then Some (String pystr.backslash "n")
  else if Nat.eqb n 13 then Some (String pystr.backslash "r")
  else if Nat.eqb n 9 then Some (String pystr.backslash "t")
  else if Nat.eqb n 8 then Some (String pystr.backslash "b")
  else if Nat.eqb n 12 then Some (String pystr.backslash "f")
  else if Nat.ltb n 32 then Some (u_escape (N.of_nat n))
  else None.

(** Body of a JSON string under [ensure_ascii=False]: only the double
    quote, the backslash and the control characters are escaped. *)
Fixpoint escape (s : string) : string :=
  match s with
  | EmptyString => EmptyString
  | String c s' =>
      match escape_common c with
      | Some e => e +:+ escape s'
      | None => String c (escape s')
      end
  end.

Definition cont (c : ascii) : N := N.land (N_of_ascii c) 63.

(** Body of a JSON string under [ensure_ascii=True] (the default): as
    [escape], and every character outside the printable ASCII range is
    written [\uXXXX]; the UTF-8 sequences of the text are decoded to code
    points for that. *)
Fixpoint escape_ascii (s : string) : string :=
  match s with
  | EmptyString => EmptyString
  | String c s' =>
      let n := N_of_ascii c in
      match escape_common c with
      | Some e => e +:+ escape_ascii s'
      | None =>
          if (n <? 127)%N then String c (escape_ascii s')
          else if (n <? 192)%N then u_escape n +:+ escape_ascii s'
          else if (n <? 224)%N then
            match s' with
            | String c1 r =>
                escape_code_point (N.lor (N.shiftl (N.land n 31) 6) (cont c1))
                +:+ escape_ascii r
            | _ => u_escape n +:+ escape_ascii s'
            end
          else if (n <? 240)%N then
            match s' with
            | String c1 (String c2 r) =>
                escape_code_point
                  (N.lor (N.shiftl (N.land n 15) 12)
                     (N.lor (N.shiftl (cont c1) 6) (cont c2)))
                +:+ escape_ascii r
            | _ => u_escape n +:+ escape_ascii s'
            end
          else
            match s' with
            | String c1 (String c2 (String c3 r)) =>
                escape_code_point
                  (N.lor (N.shiftl (N.land n 7) 18)
                     (N.lor (N.shiftl (cont c1) 12)
                        (N.lor (N.shiftl (cont c2) 6) (cont c3))))
                +:+ escape_ascii r
            | _ => u_escape n +:+ escape_ascii s'
            end
      end
  end.

Definition quote (esc : string -> string) (s : string) : string :=
  String pystr.dquote (esc s +:+ String pystr.dquote "").

Definition hex_val (c : ascii) : option N :=
  let n := N_of_ascii c in
  if ((48 <=? n) && (n <=? 57))%N then Some (n - 48)%N
  else if ((97 <=? n) && (n <=? 102))%N then Some (n - 87)%N
  else None.

(** The character a two-character escape stands for. *)
Definition unescape_simple (e : ascii) : option ascii :=
  if Ascii.eqb e pystr.dquote then Some pystr.dquote
  else if Ascii.eqb e pystr.backslash then Some pystr.backslash
  else if Ascii.eqb e "n" then Some "010"%char
  else if Ascii.eqb e "r" then Some "013"%char
  else if Ascii.eqb e "t" then Some "009"%char
  else if Ascii.eqb e "b" then Some "008"%char
  else if Ascii.eqb e "f" then Some "012"%char
  else None.

(** Reading a JSON string back, as [json.loads] does, from just after its
    opening quote: the text, and what follows the closing quote.  A
    [\uXXXX] escape stands for the character of that (one-byte) code. *)
Fixpoint read_string (s : string) : option (string * string) :=
  match s with
  | EmptyString => None
  | String c rest =>
      if Ascii.eqb c pystr.dquote then Some (EmptyString, rest)
      else if Ascii.eqb c pystr.backslash then
        match rest with
        | String e rest1 =>
            if Ascii.eqb e "u" then
              match rest1 with
              | String h3 (String h2 (String h1 (String h0 rest2))) =>
                  match hex_val h3, hex_val h2, hex_val h1, hex_val h0 with
                  | Some a, Some b, Some c', Some d =>
                      match read_string rest2 with
                      | Some (text, after) =>
                          Some (String (ascii_of_N (((a * 16 + b) * 16 + c') * 16 + d))
                                       text, after)
                      | None => None
                      end
                  | _, _, _, _ => None
                  end
              | _ => None
              end
            else
              match unescape_simple e with
              | Some ch =>
                  match read_string rest1 with
                  | Some (text, after) => Some (String ch text, after)
                  | None => None
                  end
              | None => None
              end
        | EmptyString => None
        end
      else
        match read_string rest with
        | Some (text, after) => Some (String c text, after)
        | None => None
        end
  end.

(** Order of two dict items by key, as [sorted(d.items())] orders the
    items of a dict (its keys are distinct, so values never decide). *)
Definition key_le {A} (x y : string * A) : Prop := String.le (fst x) (fst y).

Global Instance key_le_dec {A} : RelDecision (@key_le A).
Proof. intros x y. unfold key_le. apply _. Defined.

(** [sorted(d.items())] *)
Definition sorted_items {A} (d : list (string * A)) : list (string * A) :=
  merge_sort key_le d.

(** [json.dumps(d, sort_keys=True)] for a dict of strings, with the
    default separators and [ensure_ascii=True]. *)
Definition dumps_str_dict (d : list (string * string)) : string :=
  "{" +:+ pystr.join ", "
            (map (fun kv => quote escape_ascii (fst kv) +:+ ": "
                            +:+ quote escape_ascii (snd kv))
                 (sorted_items d))
      +:+ "}".

(** What [json.loads(json.dumps(v, sort_keys=True))] yields: the same
    document with the keys of every object in sorted order. *)
Fixpoint canon (v : value) : value :=
  match v with
  | VList l => VList (map canon l)
  | VDict d => VDict (sorted_items (map (fun kv => (fst kv, canon (snd kv))) d))
  | other => other
  end.

Fixpoint spaces (n : nat) : string :=
  match n with O => EmptyString | S n' => String " " (spaces n') end.

Definition newline : string := String "010"%char "".

(** [json.dumps(v, ensure_ascii=False, sort_keys=True, indent=2)]; [lvl]
    is the nesting depth of [v]. *)
Fixpoint dumps_indent (lvl : nat) (v : value) : string :=
  match v with
  | VNone => "null"
  | VBool true => "true"
  | VBool false => "false"
  | VInt z => pretty z
  | VStr s => quote escape s
  | VList [] => "[]"
  | VList l =>
      "[" +:+ newline +:+ spaces (2 * S lvl)
      +:+ pystr.join ("," +:+ newline +:+ spaces (2 * S lvl))
            (map (dumps_indent (S lvl)) l)
      +:+ newline +:+ spaces (2 * lvl) +:+ "]"
  | VDict [] => "{}"
  | VDict d =>
      "{" +:+ newline +:+ spaces (2 * S lvl)
      +:+ pystr.join ("," +:+ newline +:+ spaces (2 * S lvl))
            (map (fun kv => quote escape (fst kv) +:+ ": " +:+ snd kv)
                 (sorted_items
                    (map (fun kv => (fst kv, dumps_indent (S lvl) (snd kv))) d)))
      +:+ newline +:+ spaces (2 * lvl) +:+ "}"
  end.

End json.

(** ** [hashlib.sha256]

    SHA-256 over the bytes of a string, 32-bit words held in [Z] with the
    wrap-around written out. *)
Module sha256.

Definition wrap (x : Z) : Z := x mod 4294967296.
Definition add32 (x y : Z) : Z := wrap (x + y).
Definition rotr (n x : Z) : Z :=
  wrap (Z.lor (Z.shiftr x n) (Z.shiftl x (32 - n))).
Definition xor3 (x y z : Z) : Z := Z.lxor (Z.lxor x y) z.

Definition Ch (e f g : Z) : Z :=
  Z.lxor (Z.land e f) (Z.land (wrap (Z.lnot e)) g).
Definition Maj (a b c : Z) : Z := xor3 (Z.land a b) (Z.land a c) (Z.land b c).
Definition Sigma0 (a : Z) : Z := xor3 (rotr 2 a) (rotr 13 a) (rotr 22 a).
Definition Sigma1 (e : Z) : Z := xor3 (rotr 6 e) (rotr 11 e) (rotr 25 e).
Definition sigma0 (x : Z) : Z := xor3 (rotr 7 x) (rotr 18 x) (Z.shiftr x 3).
Definition sigma1 (x : Z) : Z := xor3 (rotr 17 x) (rotr 19 x) (Z.shiftr x 10).

(** The first [n] primes at or above [p], by trial division. *)
Definition is_prime (p : Z) : bool :=
  forallb (fun d => negb (Z.eqb (p mod d) 0)) (seqZ 2 (p - 2)).

Definition first_primes (n : nat) : list Z :=
  take n (filter (fun p => is_prime p = true) (seqZ 2 400)).

(** The largest [r] below [2 ^ bits] with [r ^ 3 <= n]. *)
Fixpoint cube_root (bits : nat) (r n : Z) : Z :=
  match bits with
  | O => r
  | S bits' =>
      let r' := r + 2 ^ Z.of_nat bits' in
      cube_root bits' (if r' * r' * r' <=? n then r' else r) n
  end.

(** The round constants: the first 32 bits of the fractional parts of the
    cube roots of the first 64 primes. *)
Definition K : list Z :=
  Eval vm_compute in
    map (fun p => wrap (cube_root 40 0 (p * 2 ^ 96))) (first_primes 64).

(** The eight working registers. *)
Record regs : Type := Regs {
  ra : Z; rb : Z; rc : Z; rd : Z; re : Z; rf : Z; rg : Z; rh : Z
}.

(** The initial hash value: the first 32 bits of the fractional parts of
    the square roots of the first 8 primes. *)
Definition frac_sqrt (p : Z) : Z := wrap (Z.sqrt (p * 2 ^ 64)).

Definition H0 : regs :=
  Eval vm_compute in
    Regs (frac_sqrt 2) (frac_sqrt 3) (frac_sqrt 5) (frac_sqrt 7)
         (frac_sqrt 11) (frac_sqrt 13) (frac_sqrt 17) (frac_sqrt 19).

Definition bytes_of (s : string) : list Z :=
  map (fun c => Z.of_N (N_of_ascii c)) (list_ascii_of_string s).

Definition be64 (n : Z) : list Z :=
  map (fun i => Z.land (Z.shiftr n (8 * i)) 255) [7; 6; 5; 4; 3; 2; 1; 0].

(** The message followed by the bit 1, zero bytes up to 56 modulo 64, and
    the bit length on eight bytes. *)
Definition pad (msg : list Z) : list Z :=
  let len := Z.of_nat (length msg) in
  msg ++ [128] ++ replicate (Z.to_nat ((55 - len) mod 64)) 0 ++ be64 (8 * len).

Fixpoint blocks (fuel : nat) (l : list Z) : list (list Z) :=
  match fuel with
  | O => []
  | S fuel' =>
      match l with
      | [] => []
      | _ => take 64 l :: blocks fuel' (List.skipn 64 l)
      end
  end.

Fixpoint be_words (n : nat) (l : list Z) : list Z :=
  match n with
  | O => []
  | S n' =>
      match l with
      | b0 :: b1 :: b2 :: b3 :: rest =>
          Z.lor (Z.shiftl b0 24) (Z.lor (Z.shiftl b1 16) (Z.lor (Z.shiftl b2 8) b3))
          :: be_words n' rest
      | _ => []
      end
  end.

(** The message schedule, newest word first. *)
Fixpoint extend (n : nat) (w_rev : list Z) : list Z :=
  match n with
  | O => w_rev
  | S n' =>
      let x i := List.nth i w_rev 0 in
      extend n'
        (add32 (add32 (sigma1 (x 1%nat)) (x 6%nat))
               (add32 (sigma0 (x 14%nat)) (x 15%nat)) :: w_rev)
  end.

Definition schedule (block : list Z) : list Z :=
  rev (extend 48 (rev (be_words 16 block))).

Definition round (s : regs) (kw : Z * Z) : regs :=
  let t1 := add32 (add32 (add32 (rh s) (Sigma1 (re s)))
                         (add32 (Ch (re s) (rf s) (rg s)) (fst kw)))
                  (snd kw) in
  let t2 := add32 (Sigma0 (ra s)) (Maj (ra s) (rb s) (rc s)) in
  Regs (add32 t1 t2) (ra s) (rb s) (rc s) (add32 (rd s) t1) (re s) (rf s) (rg s).

Definition compress (h : regs) (block : list Z) : regs :=
  let s := fold_left round (combine K (schedule block)) h in
  Regs (add32 (ra h) (ra s)) (add32 (rb h) (rb s)) (add32 (rc h) (rc s))
       (add32 (rd h) (rd s)) (add32 (re h) (re s)) (add32 (rf h) (rf s))
       (add32 (rg h) (rg s)) (add32 (rh h) (rh s)).

Definition digest (msg : list Z) : regs :=
  let padded := pad msg in
  fold_left compress (blocks (length padded) padded) H0.

Definition nibble (w : Z) (k : Z) : ascii :=
  pystr.hex_digit (Z.to_nat (Z.land (Z.shiftr w (4 * k)) 15)).

Definition hex8 (w : Z) : string :=
  String (nibble w 7) (String (nibble w 6) (String (nibble w 5)
    (String (nibble w 4) (String (nibble w 3) (String (nibble w 2)
      (String (nibble w 1) (String (nibble w 0) EmptyString))))))).

Definition hex_of_regs (r : regs) : string :=
  hex8 (ra r) +:+ hex8 (rb r) +:+ hex8 (rc r) +:+ hex8 (rd r) +:+
  hex8 (re r) +:+ hex8 (rf r) +:+ hex8 (rg r) +:+ hex8 (rh r).

Definition hex_chars : list ascii :=
  [ "0"; "1"; "2"; "3"; "4"; "5"; "6"; "7";
    "8"; "9"; "a"; "b"; "c"; "d"; "e"; "f" ]%char.

Definition is_hex (c : ascii) : bool := existsb (Ascii.eqb c) hex_chars.

(** Every text of [n] hexadecimal digits: the values a digest of [n]
    digits can take. *)
Fixpoint hex_words (n : nat) : list string :=
  match n with
  | O => [EmptyString]
  | S n' => c ← hex_chars; String c <$> hex_words n'
  end.

(** [hashlib.sha256(s.encode("utf-8")).hexdigest()] *)
Definition hexdigest (s : string) : string := hex_of_regs (digest (bytes_of s)).

End sha256.

Declare Scope outcome_scope.
Delimit Scope outcome_scope with outcome.
Notation "'do' x <- m ; k" := (py.bind m (fun x => k))
  (at level 10, x name, m at level 100, k at level 200) : outcome_scope.

(** ** [machinist/registry.py] *)
Module registry.
Import py.
Local Open Scope outcome_scope.

(** [_hash_payload]: feeding the parts to one SHA-256 object in
    turn hashes their concatenation. *)
Definition hash_payload (parts : list string) : string :=
  sha256.hexdigest (String.concat "" parts).

(** A [pathlib.Path], held by the text [str] gives for it, so that
    [Path(str(p)) == p]. *)
Record Path : Type := PurePath { path_str : string }.

(** The [ToolSpec] dataclass.  [inputs] and [outputs] are dicts compared
    by content, hence maps; [failure_modes] carries the list of
    exception/reason dicts the callers store there. *)
Record ToolSpec : Type := mkToolSpec {
  name : string;
  signature : string;
  docstring : string;
  inputs : gmap string string;
  outputs : gmap string string;
  failure_modes : list (gmap string string);
  deterministic : bool;
  imports : list string;
  semantic_tags : list string
}.

(** The [ToolMetadata] dataclass. *)
Record ToolMetadata : Type := mkToolMetadata {
  tool_id : string;
  version : string;
  created_at : string;
  spec : ToolSpec;
  source_path : Path;
  tests_path : Path;
  test_results_path : Path;
  dependencies : gmap string string;
  security_policy : string;
  capability_profile : string;
  model : string;
  template_id : option string
}.

(** A dict of strings as a Python value. *)
Definition str_dict (m : gmap string string) : value :=
  VDict (map (fun kv => (fst kv, VStr (snd kv))) (map_to_list m)).

Definition str_list (l : list string) : value := VList (map VStr l).

Definition asdict_items (s : ToolSpec) : dict :=
  [ ("name", VStr (name s));
    ("signature", VStr (signature s));
    ("docstring", VStr (docstring s));
    ("inputs", str_dict (inputs s));
    ("outputs", str_dict (outputs s));
    ("failure_modes", VList (map str_dict (failure_modes s)));
    ("deterministic", VBool (deterministic s));
    ("imports", str_list (imports s));
    ("semantic_tags", str_list (semantic_tags s)) ].

(** [dataclasses.asdict(spec)] *)
Definition asdict (s : ToolSpec) : value := VDict (asdict_items s).

(** [ToolSpec.to_json] *)
Definition to_json (s : ToolSpec) : string := json.dumps_indent 0 (asdict s).

Definition to_dict_items (m : ToolMetadata) : dict :=
  [ ("tool_id", VStr (tool_id m));
    ("version", VStr (version m));
    ("created_at", VStr (created_at m));
    ("spec", asdict (spec m));
    ("source_path", VStr (path_str (source_path m)));
    ("tests_path", VStr (path_str (tests_path m)));
    ("test_results_path", VStr (path_str (test_results_path m)));
    ("dependencies", str_dict (dependencies m));
    ("security_policy", VStr (security_policy m));
    ("capability_profile", VStr (capability_profile m));
    ("model", VStr (model m));
    ("template_id",
      match template_id m with Some t => VStr t | None => VNone end) ].

(** [ToolMetadata.to_dict] *)
Definition to_dict (m : ToolMetadata) : value := VDict (to_dict_items m).

(** [ToolRegistry.resolve_id] *)
Definition resolve_id (s : ToolSpec) (source_code : string) : string :=
  hash_payload [to_json s; source_code].

(** The registry directory: for each [tool_id], what [json.loads] reads
    back from [root/<tool_id>/metadata.json]; no entry when that file does
    not exist.  The key is the id as it is written, which is the path
    the code opens when the id is the name of a directory entry; an id
    with a separator in it ([./a], [a/]) names a path that another id
    may name too, and is outside this map. *)
Abbreviation files := (gmap string value).

(** [ToolRegistry.register]: [metadata.to_json()] (keys sorted) is written
    to the entry of [metadata.tool_id]; an older entry is overwritten. *)
Definition register (fs : files) (metadata : ToolMetadata) : files :=
  <[tool_id metadata := json.canon (to_dict metadata)]> fs.

Definition KeyError (k : string) : exn := Exn "KeyError" (repr_str k).

(** [d[k]] *)
Definition getitem (d : value) (k : string) : outcome value :=
  match d with
  | VDict items =>
      match dict_get k items with
      | Some v => Ret v
      | None => Raise (KeyError k)
      end
  | _ => Raise (TypeError "indices must be integers or slices, not str")
  end.

(** [d.get(k, default)] *)
Definition get_default (d : value) (k : string) (default : value) : value :=
  match d with
  | VDict items => from_option id default (dict_get k items)
  | _ => default
  end.

(** [d.setdefault(k, default)] *)
Definition setdefault (k : string) (default : value) (d : dict) : dict :=
  if dict_mem k d then d else dict_set k default d.

(** The dataclasses do not check field types; a document whose field has
    another JSON type than the declared one yields an object outside this
    typed model, reported here as a [TypeError]. *)
Definition ill_typed {A} : outcome A := Raise (TypeError "field type").

Definition as_str (v : value) : outcome string :=
  match v with VStr s => Ret s | _ => ill_typed end.

Definition as_bool (v : value) : outcome bool :=
  match v with VBool b => Ret b | _ => ill_typed end.

Definition as_opt_str (v : value) : outcome (option string) :=
  match v with VStr s => Ret (Some s) | VNone => Ret None | _ => ill_typed end.

Fixpoint all_ret {A} (l : list (outcome A)) : outcome (list A) :=
  match l with
  | [] => Ret []
  | m :: rest => do x <- m; do xs <- all_ret rest; Ret (x :: xs)
  end.

Definition as_str_list (v : value) : outcome (list string) :=
  match v with VList l => all_ret (map as_str l) | _ => ill_typed end.

Definition as_str_dict (v : value) : outcome (gmap string string) :=
  match v with
  | VDict d =>
      do items <- all_ret (map (fun kv => do s <- as_str (snd kv); Ret (fst kv, s)) d);
      Ret (list_to_map items)
  | _ => ill_typed
  end.

Definition as_dict_list (v : value) : outcome (list (gmap string string)) :=
  match v with VList l => all_ret (map as_str_dict l) | _ => ill_typed end.

Definition ToolSpec_fields : list string :=
  [ "name"; "signature"; "docstring"; "inputs"; "outputs"; "failure_modes";
    "deterministic"; "imports"; "semantic_tags" ].

(** The fields without a default, in the order they are declared. *)
Definition ToolSpec_required : list string :=
  [ "name"; "signature"; "docstring"; "inputs"; "outputs"; "failure_modes";
    "deterministic" ].

(** Names as the interpreter lists them: ['a'], ['a' and 'b'],
    ['a', 'b', and 'c']. *)
Definition name_list (names : list string) : string :=
  match names with
  | [] => ""
  | [a] => repr_str a
  | [a; b] => repr_str a +:+ " and " +:+ repr_str b
  | _ => pystr.join ", " (map repr_str (removelast names))
         +:+ ", and " +:+ repr_str (List.last names "")
  end.

(** The [TypeError] of a call that lacks required arguments; it lists
    all of them (the wording of Python 3.10 and later, which names the
    class). *)
Definition missing_arguments (kw : dict) : exn :=
  let missing := List.filter (fun k => negb (dict_mem k kw)) ToolSpec_required in
  TypeError ("ToolSpec.__init__() missing " +:+ pretty (length missing)
             +:+ " required positional argument"
             +:+ (if Nat.eqb (length missing) 1 then "" else "s")
             +:+ ": " +:+ name_list missing).

(** The [TypeError] of a call with a keyword that is no field: it names
    the first such keyword. *)
Definition unexpected_keyword (kw : dict) : exn :=
  TypeError ("ToolSpec.__init__() got an unexpected keyword argument "
             +:+ repr_str
                   (from_option id ""
                      (List.find (fun k => negb (bool_decide (k ∈ ToolSpec_fields)))
                                 (dict_keys kw)))).

(** A required keyword argument of the dataclass constructor. *)
Definition required (kw : dict) (k : string) : outcome value :=
  match dict_get k kw with
  | Some v => Ret v
  | None => Raise (missing_arguments kw)
  end.

(** [ToolSpec] called with the keyword arguments [kw]: an unknown keyword
    or a missing required one is a [TypeError]; [imports] and
    [semantic_tags] default to the empty list. *)
Definition ToolSpec_init (kw : dict) : outcome ToolSpec :=
  if forallb (fun k => bool_decide (k ∈ ToolSpec_fields)) (dict_keys kw) then
    do name <- required kw "name";
    do signature <- required kw "signature";
    do docstring <- required kw "docstring";
    do inputs <- required kw "inputs";
    do outputs <- required kw "outputs";
    do failure_modes <- required kw "failure_modes";
    do deterministic <- required kw "deterministic";
    let imports := from_option id (VList []) (dict_get "imports" kw) in
    let semantic_tags := from_option id (VList []) (dict_get "semantic_tags" kw) in
    do name <- as_str name;
    do signature <- as_str signature;
    do docstring <- as_str docstring;
    do inputs <- as_str_dict inputs;
    do outputs <- as_str_dict outputs;
    do failure_modes <- as_dict_list failure_modes;
    do deterministic <- as_bool deterministic;
    do imports <- as_str_list imports;
    do semantic_tags <- as_str_list semantic_tags;
    Ret (mkToolSpec name signature docstring inputs outputs failure_modes
           deterministic imports semantic_tags)
  else Raise (unexpected_keyword kw).

(** [ToolRegistry.load] *)
Definition load (fs : files) (tid : string) : outcome (option ToolMetadata) :=
  match fs !! tid with
  | None => Ret None
  | Some data =>
      do spec_data <- getitem data "spec";
      do spec_kw <- match spec_data with VDict d => Ret d | _ => ill_typed end;
      let spec_kw := setdefault "imports" (VList []) spec_kw in
      do spec <- ToolSpec_init spec_kw;
      do tool_id <- getitem data "tool_id";
      do version <- getitem data "version";
      do created_at <- getitem data "created_at";
      do source_path <- getitem data "source_path";
      do tests_path <- getitem data "tests_path";
      do test_results_path <- getitem data "test_results_path";
      let dependencies := get_default data "dependencies" (VDict []) in
      let security_policy := get_default data "security_policy" (VStr "") in
      let capability_profile := get_default data "capability_profile" (VStr "") in
      let model := get_default data "model" (VStr "") in
      let template_id := get_default data "template_id" VNone in
      do tool_id <- as_str tool_id;
      do version <- as_str version;
      do created_at <- as_str created_at;
      do source_path <- as_str source_path;
      do tests_path <- as_str tests_path;
      do test_results_path <- as_str test_results_path;
      do dependencies <- as_str_dict dependencies;
      do security_policy <- as_str security_policy;
      do capability_profile <- as_str capability_profile;
      do model <- as_str model;
      do template_id <- as_opt_str template_id;
      Ret (Some (mkToolMetadata tool_id version created_at spec
                   (PurePath source_path) (PurePath tests_path)
                   (PurePath test_results_path) dependencies security_policy
                   capability_profile model template_id))
  end.

(** A metadata document that has only the fields [load] insists on: no
    [imports], [semantic_tags], [dependencies], [security_policy],
    [capability_profile], [model] or [template_id]. *)
Definition minimal_doc (m : ToolMetadata) : value :=
  VDict [ ("tool_id", VStr (tool_id m));
          ("version", VStr (version m));
          ("created_at", VStr (created_at m));
          ("spec",
            VDict [ ("name", VStr (name (spec m)));
                    ("signature", VStr (signature (spec m)));
                    ("docstring", VStr (docstring (spec m)));
                    ("inputs", str_dict (inputs (spec m)));
                    ("outputs", str_dict (outputs (spec m)));
                    ("failure_modes",
                      VList (map str_dict (failure_modes (spec m))));
                    ("deterministic", VBool (deterministic (spec m))) ]);
          ("source_path", VStr (path_str (source_path m)));
          ("tests_path", VStr (path_str (tests_path m)));
          ("test_results_path", VStr (path_str (test_results_path m))) ].

(** The metadata [load] builds from such a document: the defaults in
    place of the missing fields. *)
Definition with_defaults (m : ToolMetadata) : ToolMetadata :=
  mkToolMetadata (tool_id m) (version m) (created_at m)
    (mkToolSpec (name (spec m)) (signature (spec m)) (docstring (spec m))
       (inputs (spec m)) (outputs (spec m)) (failure_modes (spec m))
       (deterministic (spec m)) [] [])
    (source_path m) (tests_path m) (test_results_path m)
    ∅ "" "" "" None.

End registry.

(** ** [machinist/templates.py] *)
Module templates.

(** Modelled from the spec: [templates.py] is not part of the tree; a
    binding expression is the text its callers pass to [StepBinding] and
    the engine reads back as [binding.value]. *)
Record StepBinding : Type := mkStepBinding { value : string }.

(** Modelled from the spec: the [CompositionStep] of the data model, with
    the fields [registry.load_cached_spec] fills in.  [bind] and [outputs]
    keep their declaration order (the engine takes the first declared
    output). *)
Record CompositionStep : Type := mkCompositionStep {
  id : string;
  tool_id : string;
  bind : list (string * StepBinding);
  foreach : option string;
  outputs : list (string * string);
  if_condition : option string;
  then_tool_id : option string;
  then_bind : list (string * StepBinding)
}.

(** Modelled from the spec: the [CompositionSpec] of the data model; the
    failure policies, which the engine never reads, are left out. *)
Record CompositionSpec : Type := mkCompositionSpec {
  pipeline_id : string;
  description : string;
  inputs : list (string * string);
  steps : list CompositionStep;
  global_postconditions : list string;
  semantic_tags : list string
}.

End templates.

(** ** [machinist/workflow.py]

    [print] calls only write to the standard output and are left out,
    except for what evaluating their arguments can raise (the
    [__name__] of the executable in [_run_step_logic]). *)
Module workflow.
Import py.
Local Open Scope outcome_scope.

(** [WorkflowEngine._hash_inputs].  With string keys and the values of
    [py.value] neither the sort nor [json.dumps] can fail, so the
    [except] branch is never taken. *)
Definition hash_inputs (tool_id : string) (inputs : dict) : string :=
  let s := json.dumps_str_dict
             (fold_left (fun acc kv => dict_set (fst kv) (str (snd kv)) acc)
                        (json.sorted_items inputs) []) in
  tool_id +:+ ":" +:+ s.

(** [WorkflowEngine._resolve_value]; [item] defaults to [None]. *)
Definition resolve_value (value : string) (context : dict) (item : py.value)
  : outcome py.value :=
  if (String.eqb value "$item" && negb (is_none item))%bool then Ret item
  else if pystr.startswith "$" value then
    let key := pystr.drop 1 value in
    (* '.' in key, then key.split('.', 1) *)
    match pystr.split_once "." key with
    | Some (step_id, var_name) =>
        match dict_get step_id context with
        | Some (VDict d) => Ret (from_option id VNone (dict_get var_name d))
        | _ => Raise (ValueError ("Could not resolve step '" +:+ step_id
                                  +:+ "' in context."))
        end
    | None => Ret (from_option id VNone (dict_get key context))
    end
  else if String.eqb (pystr.lower value) "true" then Ret (VBool true)
  else if String.eqb (pystr.lower value) "false" then Ret (VBool false)
  else Ret (VStr (pystr.strip_char pystr.squote
                    (pystr.strip_char pystr.dquote value))).

(** One comparison branch of [_evaluate_condition]: when [op] occurs in
    the text, both sides of its first occurrence are resolved and their
    [str] compared; an exception falls through to [rest]. *)
Definition compare_branch (op : string) (negate : bool) (condition : string)
    (context : dict) (rest : outcome bool) : outcome bool :=
  match pystr.split_once op condition with
  | Some (lhs, rhs) =>
      try_except
        (do lhs_val <- resolve_value (pystr.strip lhs) context VNone;
         do rhs_val <- resolve_value (pystr.strip rhs) context VNone;
         Ret (xorb negate (String.eqb (str lhs_val) (str rhs_val))))
        rest
  | None => rest
  end.

(** The last attempt of [_evaluate_condition]: the whole text resolved as
    one variable and coerced with [bool]; an exception gives [False]. *)
Definition truth_fallback (condition : string) (context : dict) : outcome bool :=
  try_except
    (do val <- resolve_value condition context VNone;
     Ret (truthy val))
    (Ret false).

(** [WorkflowEngine._evaluate_condition] *)
Definition evaluate_condition (condition : string) (context : dict)
  : outcome bool :=
  if String.eqb condition "" then Ret true
  else
    compare_branch "==" false condition context
      (compare_branch "!=" true condition context
         (truth_fallback condition context)).

(** A tool is memoized when its contract is deterministic or tagged
    pure or idempotent. *)
Definition pure_spec (s : registry.ToolSpec) : bool :=
  (registry.deterministic s
   || (bool_decide ("pure" ∈ registry.semantic_tags s)
       || bool_decide ("idempotent" ∈ registry.semantic_tags s)))%bool.

(** The parameters of one step execution:
    [kwargs[param_name] = _resolve_value(binding.value, context, item)]
    for every binding in turn. *)
Fixpoint bind_params (bind : list (string * templates.StepBinding))
    (context : dict) (item : py.value) (kwargs : dict) : outcome dict :=
  match bind with
  | [] => Ret kwargs
  | (param_name, binding) :: rest =>
      do v <- resolve_value (templates.value binding) context item;
      bind_params rest context item (dict_set param_name v kwargs)
  end.

(** [if step.outputs: context[step.id] = {first output name: v}] *)
Definition store_output (step : templates.CompositionStep) (v : py.value)
    (context : dict) : dict :=
  match templates.outputs step with
  | [] => context
  | (output_name, _) :: _ =>
      dict_set (templates.id step) (VDict [(output_name, v)]) context
  end.

(** Truth value of an optional text ([None] and the empty text are
    false). *)
Definition present (o : option string) : option string :=
  match o with
  | Some s => if String.eqb s "" then None else Some s
  | None => None
  end.

(** The guard of a step: [if step.if_condition:] and, inside it, the call
    of [_evaluate_condition]; a false guard skips the step. *)
Definition condition_holds (step : templates.CompositionStep) (context : dict)
  : outcome bool :=
  match present (templates.if_condition step) with
  | Some condition => evaluate_condition condition context
  | None => Ret true
  end.

Section engine.
(** [W] is everything outside the engine that a tool or the registry
    can read or change: the registry directory, loaded modules, files. *)
Context {W : Type}.

(** A loaded tool, the object [get_executable] returns.  The engine
    reads its [__name__] for the line it prints before the call: the
    access gives the name of a function, and raises for a callable
    object without the attribute ([AttributeError] for a [MagicMock] or
    a [functools.partial]).  Called with the keyword arguments [kwargs],
    the tool returns or raises, and may change the world. *)
Record executable : Type := mkExecutable {
  name_attr : outcome string;
  call_with :> dict -> W -> outcome py.value * W
}.

(** The operations of [ToolRegistry] the engine calls.  The look-ups
    read the world; [get_executable] may also change it (it imports
    the module and fills the registry's own cache). *)
Record ToolRegistry : Type := mkToolRegistry {
  find_workflow_by_id : W -> string -> option templates.CompositionSpec;
  find_by_template_id : W -> string -> outcome (list string);
  list_tools : W -> outcome (list registry.ToolMetadata);
  load : W -> string -> outcome (option registry.ToolMetadata);
  get_executable : string -> W -> outcome (option executable) * W
}.

(** The engine: its [_execution_cache], the world, and the trace of the
    calls made to executables (tool id and keyword arguments). *)
Record engine : Type := mkEngine {
  execution_cache : gmap string py.value;
  world : W;
  calls : list (string * dict)
}.

(** A method of the engine: a result and the engine afterwards. *)
Definition M (A : Type) : Type := engine -> outcome A * engine.

Definition ret {A} (a : A) : M A := fun σ => (Ret a, σ).
Definition raise {A} (e : exn) : M A := fun σ => (Raise e, σ).
Definition lift {A} (o : outcome A) : M A := fun σ => (o, σ).

Definition bindM {A B} (m : M A) (k : A -> M B) : M B :=
  fun σ =>
    match m σ with
    | (Ret a, σ') => k a σ'
    | (Raise e, σ') => (Raise e, σ')
    | (Diverge, σ') => (Diverge, σ')
    end.

(** [try: m  except Exception as e: handler(e)] *)
Definition catch {A} (m : M A) (handler : exn -> M A) : M A :=
  fun σ =>
    match m σ with
    | (Raise e, σ') => handler e σ'
    | other => other
    end.

(** A registry look-up. *)
Definition query {A} (f : W -> outcome A) : M A :=
  fun σ => (f (world σ), σ).

Definition with_world (w : W) (σ : engine) : engine :=
  mkEngine (execution_cache σ) w (calls σ).

(** [executable_func] applied to [kwargs], recorded in the trace. *)
Definition invoke (tool : string) (f : executable) (kwargs : dict)
  : M py.value :=
  fun σ =>
    let '(r, w') := f kwargs (world σ) in
    (r, mkEngine (execution_cache σ) w' (calls σ ++ [(tool, kwargs)])).

(** [self._execution_cache[cache_key] = result] *)
Definition cache_store (cache_key : string) (result : py.value) : M unit :=
  fun σ =>
    (Ret tt, mkEngine (<[cache_key := result]> (execution_cache σ))
                      (world σ) (calls σ)).

End engine.

Arguments ToolRegistry W : clear implicits.
Arguments engine W : clear implicits.
Arguments executable W : clear implicits.
Arguments mkExecutable {W} name_attr call_with.

Declare Scope engine_scope.
Delimit Scope engine_scope with engine.
Notation "'run' x <- m ; k" := (bindM m (fun x => k))
  (at level 10, x name, m at level 100, k at level 200) : engine_scope.
Local Open Scope engine_scope.

Section execute.
Context {W : Type} (R : ToolRegistry W).

(** [self._execution_cache.get(cache_key)] *)
Definition cache_lookup (cache_key : string) : M (W := W) (option py.value) :=
  fun σ => (Ret (execution_cache σ !! cache_key), σ).

(** [self.tool_registry.get_executable(tool_id)] *)
Definition load_executable (tool_id : string) : M (option (executable W)) :=
  fun σ =>
    let '(r, w') := get_executable R tool_id (world σ) in
    (r, with_world w' σ).

(** Step 2 of [_run_step_logic]: the tools registered under the
    template id, else the tools whose name is [tool_id]. *)
Definition concrete_tool_ids (w : W) (tool_id : string)
  : outcome (list string) :=
  do by_template <- find_by_template_id R w tool_id;
  match by_template with
  | [] =>
      do all_tools <- list_tools R w;
      Ret (map registry.tool_id
             (filter (fun t => registry.name (registry.spec t) = tool_id)
                     all_tools))
  | _ => Ret by_template
  end.

(** [is_pure] of step 3, from what [load] returned. *)
Definition memoized (meta : option registry.ToolMetadata) : bool :=
  match meta with
  | Some m => pure_spec (registry.spec m)
  | None => false
  end.

(** [WorkflowEngine._run_step_logic]; [execute] is the engine's own
    [execute], called for a nested workflow. *)
Definition run_step_logic
    (execute : templates.CompositionSpec -> dict -> M (W := W) dict)
    (step_id tool_id : string) (kwargs : dict) : M py.value :=
  (* 1. Check Nested Workflow *)
  run nested_workflow <- query (fun w => Ret (find_workflow_by_id R w tool_id));
  match nested_workflow with
  | Some nested =>
      run final <- execute nested kwargs;
      ret (VDict final)
  | None =>
      (* 2. Find Tool *)
      run ids <- query (fun w => concrete_tool_ids w tool_id);
      match ids with
      | [] =>
          raise (RuntimeError
                   ("Step '" +:+ step_id
                    +:+ "': No registered tool found for template/name '"
                    +:+ tool_id +:+ "'"))
      | tool_id_to_run :: _ =>
          (* 3. Check Cache *)
          run meta <- query (fun w => load R w tool_id_to_run);
          let is_pure := memoized meta in
          let cache_key := hash_inputs tool_id_to_run kwargs in
          run cached <- cache_lookup cache_key;
          match (if is_pure then cached else None) with
          | Some hit => ret hit
          | None =>
              (* 4. Execute *)
              run executable_func <- load_executable tool_id_to_run;
              match executable_func with
              | None =>
                  raise (RuntimeError
                           ("Step '" +:+ step_id
                            +:+ "': Could not load executable for tool '"
                            +:+ tool_id_to_run +:+ "'"))
              | Some f =>
                  (* print(f"    -> Calling {executable_func.__name__} ...") *)
                  run _ <- lift (name_attr f);
                  run result <- invoke tool_id_to_run f kwargs;
                  run _ <- (if is_pure then cache_store cache_key result
                            else ret tt);
                  ret result
              end
          end
      end
  end.

(** The body of the [for item in loop_collection] loop of [execute]. *)
Fixpoint foreach_loop
    (execute : templates.CompositionSpec -> dict -> M (W := W) dict)
    (step : templates.CompositionStep) (context : dict)
    (items : list py.value) (step_outputs : list py.value)
  : M (list py.value) :=
  match items with
  | [] => ret step_outputs
  | item :: rest =>
      run kwargs <- lift (bind_params (templates.bind step) context item []);
      run result <-
        catch (run_step_logic execute (templates.id step)
                 (templates.tool_id step) kwargs)
              (fun e => raise e);
      foreach_loop execute step context rest (step_outputs ++ [result])
  end.

(** One turn of the [for step in comp_spec.steps] loop of [execute]:
    the context after the step. *)
Definition exec_step
    (execute : templates.CompositionSpec -> dict -> M (W := W) dict)
    (step : templates.CompositionStep) (context : dict) : M dict :=
  run go <- lift (condition_holds step context);
  if negb go then ret context
  else
    match present (templates.foreach step) with
    | Some target =>
        run loop_collection <- lift (resolve_value target context VNone);
        match loop_collection with
        | VList items =>
            run step_outputs <- foreach_loop execute step context items [];
            ret (store_output step (VList step_outputs) context)
        | _ =>
            raise (TypeError
                     ("Step '" +:+ templates.id step +:+ "': `foreach` value '"
                      +:+ target +:+ "' did not resolve to a list."))
        end
    | None =>
        run kwargs <- lift (bind_params (templates.bind step) context VNone []);
        run result <-
          catch (run_step_logic execute (templates.id step)
                   (templates.tool_id step) kwargs)
                (fun e => raise e);
        ret (store_output step result context)
    end.

Fixpoint exec_steps
    (execute : templates.CompositionSpec -> dict -> M (W := W) dict)
    (steps : list templates.CompositionStep) (context : dict) : M dict :=
  match steps with
  | [] => ret context
  | step :: rest =>
      run context' <- exec_step execute step context;
      exec_steps execute rest context'
  end.

(** [WorkflowEngine.execute].  A nested workflow re-enters [execute];
    [fuel] bounds the depth of that nesting, which the code leaves
    unbounded. *)
Fixpoint execute (fuel : nat) (comp_spec : templates.CompositionSpec)
    (inputs : dict) : M dict :=
  match fuel with
  | O => fun σ => (Diverge, σ)
  | S fuel' =>
      (* context = inputs.copy() *)
      exec_steps (execute fuel') (templates.steps comp_spec) inputs
  end.

(** A method that never removes or changes a cache entry. *)
Definition keeps_cache {A} (m : M (W := W) A) : Prop :=
  forall σ r σ', m σ = (r, σ') -> execution_cache σ ⊆ execution_cache σ'.

(** In world [w], [tool_id] names no nested workflow and step 2 picks
    the concrete tool [t], for which [load] returns [meta]. *)
Definition resolves_to (w : W) (tool_id t : string)
    (meta : option registry.ToolMetadata) : Prop :=
  find_workflow_by_id R w tool_id = None
  /\ (exists others, concrete_tool_ids w tool_id = Ret (t :: others))
  /\ load R w t = Ret meta.

(** One engine at two moments: [later σ σ'] when [σ'] is reached from
    [σ] by any number of step executions. *)
Inductive later : engine W -> engine W -> Prop :=
| later_now σ : later σ σ
| later_step fuel step_id tool_id kwargs σ r σ1 σ2 :
    run_step_logic (execute fuel) step_id tool_id kwargs σ = (r, σ1) ->
    later σ1 σ2 ->
    later σ σ2.

(** "The step logic runs exactly once per item, in list order":
    starting in [σ], the items are bound and run one after the other,
    each run returning the next result. *)
Inductive runs_in_order
    (execute : templates.CompositionSpec -> dict -> M (W := W) dict)
    (step : templates.CompositionStep) (context : dict)
  : list py.value -> engine W -> list py.value -> engine W -> Prop :=
| runs_done σ : runs_in_order execute step context [] σ [] σ
| runs_next item items σ kwargs result σ1 results σ2 :
    bind_params (templates.bind step) context item [] = Ret kwargs ->
    run_step_logic execute (templates.id step) (templates.tool_id step)
      kwargs σ = (Ret result, σ1) ->
    runs_in_order execute step context items σ1 results σ2 ->
    runs_in_order execute step context (item :: items) σ
      (result :: results) σ2.

(** "The step's result": what the single execution of the step's
    logic returns for its bound parameters or, for a [foreach] step, the
    list of what the executions for the items of the resolved list
    return, in the order of the items. *)
Inductive step_result
    (execute : templates.CompositionSpec -> dict -> M (W := W) dict)
    (step : templates.CompositionStep) (context : dict) (σ : engine W)
  : py.value -> engine W -> Prop :=
| result_single kwargs result σ' :
    present (templates.foreach step) = None ->
    bind_params (templates.bind step) context VNone [] = Ret kwargs ->
    run_step_logic execute (templates.id step) (templates.tool_id step)
      kwargs σ = (Ret result, σ') ->
    step_result execute step context σ result σ'
| result_foreach target items results σ' :
    present (templates.foreach step) = Some target ->
    resolve_value target context VNone = Ret (VList items) ->
    runs_in_order execute step context items σ results σ' ->
    step_result execute step context σ (VList results) σ'.

(** "An exception raised while running the step's logic": the single
    execution of the step raises [e], or the execution for one item of
    its [foreach] list does, after the items before it have run. *)
Inductive step_logic_raises
    (execute : templates.CompositionSpec -> dict -> M (W := W) dict)
    (step : templates.CompositionStep) (context : dict) (σ : engine W)
  : exn -> engine W -> Prop :=
| raises_single kwargs e σ' :
    present (templates.foreach step) = None ->
    bind_params (templates.bind step) context VNone [] = Ret kwargs ->
    run_step_logic execute (templates.id step) (templates.tool_id step)
      kwargs σ = (Raise e, σ') ->
    step_logic_raises execute step context σ e σ'
| raises_item target before item after results σ1 kwargs e σ2 :
    present (templates.foreach step) = Some target ->
    resolve_value target context VNone = Ret (VList (before ++ item :: after)) ->
    runs_in_order execute step context before σ results σ1 ->
    bind_params (templates.bind step) context item [] = Ret kwargs ->
    run_step_logic execute (templates.id step) (templates.tool_id step)
      kwargs σ1 = (Raise e, σ2) ->
    step_logic_raises execute step context σ e σ2.

End execute.

End workflow.

(** ** The sandbox command line *)
Module sandbox.

Section command.
(** The confinement flags of a policy (file-system view, network); the
    design names them without fixing their encoding. *)
Context {Flags : Type}.

(** Modelled from the spec: [sandbox.py] is not part of the tree.  A
    policy holds the memory limit in megabytes, the CPU limit in
    seconds and the confinement flags. *)
Record SandboxPolicy : Type := mkSandboxPolicy {
  memory_limit_mb : Z;
  cpu_time_limit_sec : Z;
  confinement : Flags
}.

(** The options the isolation tool is given for a set of flags and a
    working directory. *)
Variable isolation_args : Flags -> string -> list string.

(** Modelled from the spec: segment (1), the namespace-isolation wrapper
    configured from the confinement flags ([bwrap ... --], the tool the
    test suite looks for first in the command). *)
Definition namespace_wrapper (policy : SandboxPolicy) (workdir : string)
  : list string :=
  "bwrap" :: isolation_args (confinement policy) workdir ++ ["--"].

(** Modelled from the spec: segment (2), the resource-limiting wrapper:
    the memory cap in bytes is [memory_limit_mb] times 1024 squared, the
    CPU cap is in whole seconds ([prlimit --as=... --cpu=...], as the
    test suite expects them). *)
Definition resource_wrapper (policy : SandboxPolicy) : list string :=
  [ "prlimit";
    "--as=" +:+ pretty (memory_limit_mb policy * 1024 * 1024);
    "--cpu=" +:+ pretty (cpu_time_limit_sec policy) ].

(** Modelled from the spec: the argument vector is the three segments
    in a row, the caller's command last and unchanged. *)
Definition build_command (policy : SandboxPolicy) (workdir : string)
    (cmd : list string) : list string :=
  namespace_wrapper policy workdir ++ resource_wrapper policy ++ cmd.

End command.

Arguments SandboxPolicy Flags : clear implicits.

End sandbox.

(** ** The claims' own words, for comparison with the code *)
Module wording.
Import py.

(** "One layer of surrounding quote characters stripped if present": a
    text that starts and ends with the same quote character loses that
    first and that last character, any other text is kept. *)
Definition strip_one_layer (s : string) : string :=
  match s with
  | String q rest =>
      if ((Ascii.eqb q pystr.dquote || Ascii.eqb q pystr.squote)
          && negb (String.eqb rest "")
          && String.eqb (pystr.drop (String.length rest - 1) rest)
                        (pystr.of_char q))%bool
      then String.substring 0 (String.length rest - 1) rest
      else s
  | EmptyString => s
  end.



(** "Annotated with the failing step's id": the id occurs in the
    message of the exception. *)
Definition annotated_with (step_id : string) (e : exn) : bool :=
  pystr.contains step_id (exn_msg e).

End wording.

(** ** The registry of the test suite

    [tests/test_new_features.py] registers one tool, [print_msg], under the
    template id [print_msg_template], and puts a [MagicMock] in place of
    its executable.  A mock has no [__name__], which the engine reads
    before the call ([magic_mock] below); the other tools are functions
    named [print_msg] that answer as the mocks of the suite do.  The world
    is the number of calls the tool has seen. *)
Module fixtures.
Import py workflow.

Definition print_msg_spec (deterministic : bool) : registry.ToolSpec :=
  registry.mkToolSpec "print_msg" "" "" ∅ ∅ [] deterministic [] [].

Definition print_msg_meta (deterministic : bool) : registry.ToolMetadata :=
  registry.mkToolMetadata "print_msg" "1" "" (print_msg_spec deterministic)
    (registry.PurePath ".") (registry.PurePath ".") (registry.PurePath ".")
    ∅ "" "" "" (Some "print_msg_template").

(** A function [print_msg] that returns ["executed"], the answer of
    [MagicMock(return_value="executed")]. *)
Definition print_msg_tool : executable nat :=
  mkExecutable (Ret "print_msg") (fun _ n => (Ret (VStr "executed"), S n)).


(** A function that answers with its call count, so that a fresh call
    can be told from a cached answer. *)
Definition counting_tool : executable nat :=
  mkExecutable (Ret "print_msg") (fun _ n => (Ret (VInt (Z.of_nat n)), S n)).

(** A function that raises [Exception("boom")], as
    [MagicMock(side_effect=Exception("boom"))] does when called. *)
Definition failing_tool : executable nat :=
  mkExecutable (Ret "print_msg")
    (fun _ n => (Raise (Exn "Exception" "boom"), S n)).

Definition test_registry (deterministic : bool) (f : executable nat)
  : ToolRegistry nat :=
  mkToolRegistry
    (fun _ _ => None)
    (fun _ t => Ret (if String.eqb t "print_msg_template" then ["print_msg"] else []))
    (fun _ => Ret [print_msg_meta deterministic])
    (fun _ t => Ret (if String.eqb t "print_msg"
                     then Some (print_msg_meta deterministic) else None))
    (fun t n => (Ret (if String.eqb t "print_msg" then Some f else None), n)).

(** A new engine. *)
Definition fresh : engine nat := mkEngine ∅ O [].

(** A step on the template, with one binding [msg] and one output [res]. *)
Definition step_on (id binding : string) (foreach if_condition : option string)
  : templates.CompositionStep :=
  templates.mkCompositionStep id "print_msg_template"
    [("msg", templates.mkStepBinding binding)] foreach [("res", "str")]
    if_condition None [].

Definition pipeline (steps : list templates.CompositionStep)
  : templates.CompositionSpec :=
  templates.mkCompositionSpec "test_pipeline" "" [] steps [] [].

End fixtures.

(** ** Further methods of [str] and [list]

    As in [pystr], a text is held by its UTF-8 bytes; white space is the
    one of [str.isspace] and letter case the ASCII one. *)
Module pytext.

(** [s.find(c)] for a one-character [c]: the index of its first
    occurrence; [None] stands for [-1]. *)
Fixpoint find (c : ascii) (s : string) : option nat :=
  match s with
  | EmptyString => None
  | String d s' => if Ascii.eqb d c then Some O else S <$> find c s'
  end.

(** [s.rfind(c)]: the index of the last occurrence. *)
Fixpoint rfind (c : ascii) (s : string) : option nat :=
  match s with
  | EmptyString => None
  | String d s' =>
      match rfind c s' with
      | Some i => Some (S i)
      | None => if Ascii.eqb d c then Some O else None
      end
  end.

(** [s[start:stop]] for indices within the text. *)
Definition slice (start stop : nat) (s : string) : string :=
  String.substring start (stop - start) s.

(** A character of the ASCII range. *)
Definition is_ascii (c : ascii) : bool := Nat.ltb (nat_of_ascii c) 128.

(** [c.join(map(f, s))] character by character. *)
Fixpoint map_chars (f : ascii -> ascii) (s : string) : string :=
  match s with
  | EmptyString => EmptyString
  | String c s' => String (f c) (map_chars f s')
  end.

(** [s.split()] with no argument: the maximal runs of characters that are
    not white space, in order; [word] is the run being read. *)
Fixpoint split_from (word s : string) : list string :=
  match s with
  | EmptyString => if String.eqb word "" then [] else [word]
  | String c1 s1 =>
      let close (words : list string) :=
        if String.eqb word "" then words else word :: words in
      if pystr.is_space c1 then close (split_from "" s1)
      else match s1 with
           | String c2 s2 =>
               if pystr.is_space2 c1 c2 then close (split_from "" s2)
               else match s2 with
                    | String c3 s3 =>
                        if pystr.is_space3 c1 c2 c3
                        then close (split_from "" s3)
                        else split_from (word +:+ String c1 "") s1
                    | EmptyString => split_from (word +:+ String c1 "") s1
                    end
           | EmptyString => split_from (word +:+ String c1 "") s1
           end
  end.

Definition split (s : string) : list string := split_from "" s.

(** [l.sort(key=key, reverse=True)]: descending keys; the sort is stable,
    so items with equal keys keep the order they had.  An item is moved
    behind the items after it only when their key is strictly greater. *)
Fixpoint insert_reverse {A} (key : A -> Z) (x : A) (l : list A) : list A :=
  match l with
  | [] => [x]
  | y :: l' =>
      if key x <? key y then y :: insert_reverse key x l' else x :: y :: l'
  end.

Definition sort_reverse {A} (key : A -> Z) (l : list A) : list A :=
  foldr (insert_reverse key) [] l.

(** [l[:k]] for an integer [k]: the first [k] items, or all but the last
    [-k] when [k] is negative. *)
Definition slice_to {A} (k : Z) (l : list A) : list A :=
  if 0 <=? k then take (Z.to_nat k) l
  else take (length l - Z.to_nat (- k))%nat l.

End pytext.

(** ** [machinist/registry.py]: the methods that walk the registry *)
Module catalog.
Import py registry.
Local Open Scope outcome_scope.

(** A tool id that is the name of a directory entry on a POSIX file
    system: not empty, not [.] or [..], without [/] and without the NUL
    character.  Two such ids that differ name two directories under the
    registry root. *)
Definition is_entry_name (tool_id : string) : bool :=
  (negb (String.eqb tool_id "") && negb (String.eqb tool_id ".")
   && negb (String.eqb tool_id "..") && negb (pystr.contains "/" tool_id)
   && negb (pystr.contains (String "000"%char "") tool_id))%bool.

(** [ToolRegistry.list_tools].  [dirs] holds the names of the
    sub-directories of the registry root in the order [iterdir] yields
    them (the file system decides that order); a root that does not exist
    has none.  An exception of [load] is not caught. *)
Fixpoint list_tools (fs : files) (dirs : list string)
  : outcome (list ToolMetadata) :=
  match dirs with
  | [] => Ret []
  | tool_id_dir :: rest =>
      do metadata <- load fs tool_id_dir;
      do tools <- list_tools fs rest;
      Ret (match metadata with
           | Some m => m :: tools
           | None => tools
           end)
  end.

(** [ToolRegistry.find_by_template_id] *)
Fixpoint find_by_template_id (fs : files) (dirs : list string)
    (template_id : string) : outcome (list string) :=
  match dirs with
  | [] => Ret []
  | tool_id_dir :: rest =>
      do metadata <- load fs tool_id_dir;
      do matching_tool_ids <- find_by_template_id fs rest template_id;
      Ret (match metadata with
           | Some m =>
               if bool_decide (registry.template_id m = Some template_id)
               then tool_id m :: matching_tool_ids
               else matching_tool_ids
           | None => matching_tool_ids
           end)
  end.

(** The score [search_tools] gives a tool when no embedder is passed: 3
    when the query occurs in the name, 1 when it occurs in the docstring,
    and 1 for each word of the query that occurs in the name, all in
    lower case. *)
Definition keyword_score (query_lower : string) (tool : ToolMetadata) : Z :=
  let name_lower := pystr.lower (name (spec tool)) in
  let score := 0 in
  let score := if pystr.contains query_lower name_lower
               then score + 3 else score in
  let score := if pystr.contains query_lower (pystr.lower (docstring (spec tool)))
               then score + 1 else score in
  fold_left (fun score kw => if pystr.contains kw name_lower
                             then score + 1 else score)
            (pytext.split query_lower) score.

(** The [(score, tool)] pairs of the tools with a positive score. *)
Definition scored (query_lower : string) (all_tools : list ToolMetadata)
  : list (Z * ToolMetadata) :=
  omap (fun tool =>
          let score := keyword_score query_lower tool in
          if 0 <? score then Some (score, tool) else None)
       all_tools.

(** [ToolRegistry.search_tools] called without an embedder: the keyword
    search.  (The other branch ranks by the cosine of floating-point
    vectors an embedding model returns; it is not modelled.) *)
Definition search_tools (fs : files) (dirs : list string) (query : string)
    (top_k : Z) : outcome (list ToolMetadata) :=
  do all_tools <- list_tools fs dirs;
  match all_tools with
  | [] => Ret []
  | _ =>
      let query_lower := pystr.lower query in
      let results := scored query_lower all_tools in
      Ret (map snd (pytext.slice_to top_k (pytext.sort_reverse fst results)))
  end.

Global Instance Path_eq_dec : EqDecision Path.
Proof. solve_decision. Defined.

Global Instance Path_countable : Countable Path :=
  inj_countable' path_str PurePath (fun p => match p with PurePath _ => eq_refl end).

Section artifacts.
(** [p.resolve()]: the absolute path, symbolic links followed; the file
    system decides it. *)
Variable resolve : Path -> Path.

(** [ToolRegistry.get_all_artifact_paths] *)
Fixpoint get_all_artifact_paths (fs : files) (dirs : list string)
  : outcome (gset Path) :=
  match dirs with
  | [] => Ret ∅
  | tool_id_dir :: rest =>
      do metadata <- load fs tool_id_dir;
      do promoted_paths <- get_all_artifact_paths fs rest;
      Ret (match metadata with
           | Some m =>
               {[ resolve (source_path m); resolve (tests_path m) ]}
               ∪ promoted_paths
           | None => promoted_paths
           end)
  end.

End artifacts.

End catalog.

(** ** [machinist/registry.py]: the cached specs *)
Module spec_cache.
Import py registry.
Local Open Scope outcome_scope.

(** What [load_cached_spec] returns beside the context: a [ToolSpec] or a
    [CompositionSpec]. *)
Inductive cached_spec : Type :=
| CachedTool (s : ToolSpec)
| CachedWorkflow (c : templates.CompositionSpec).

(** The [cached_specs] directory: for each cache id, what [json.loads]
    reads back from [<cache_id>.json]. *)
Abbreviation cached := (gmap string value).

(** [ToolRegistry.cache_spec] for a [ToolSpec].  [cache_id] is the
    [uuid4] drawn for the entry and [timestamp] the clock reading; the
    method returns [cache_id]. *)
Definition cache_spec (cache_id timestamp : string) (spec : ToolSpec)
    (context : dict) (dir : cached) : cached :=
  <[cache_id := VDict [ ("cache_id", VStr cache_id);
                        ("timestamp", VStr timestamp);
                        ("spec_type", VStr "ToolSpec");
                        ("spec", asdict spec);
                        ("context", VDict context) ]]> dir.

Section hydrate.
(** The [CompositionSpec] branch of [load_cached_spec] rebuilds the
    workflow from [spec_data] with the constructors of [templates.py],
    which is not part of the tree; the branch is a parameter here. *)
Variable hydrate : value -> outcome templates.CompositionSpec.

(** [v == text] for a string [text]. *)
Definition is_str (text : string) (v : value) : bool :=
  match v with VStr s => String.eqb s text | _ => false end.

(** The body of the [try] of [load_cached_spec]. *)
Definition read_payload (cache_id : string) (payload : value)
  : outcome (cached_spec * value) :=
  do spec_type <- getitem payload "spec_type";
  do spec_data <- getitem payload "spec";
  do context <- getitem payload "context";
  if is_str "ToolSpec" spec_type then
    do kw <- match spec_data with VDict d => Ret d | _ => ill_typed end;
    do spec_obj <- ToolSpec_init kw;
    Ret (CachedTool spec_obj, context)
  else if is_str "CompositionSpec" spec_type then
    do spec_obj <- hydrate spec_data;
    Ret (CachedWorkflow spec_obj, context)
  else Raise (TypeError ("Unknown spec type '" +:+ str spec_type
                         +:+ "' found in cache for ID " +:+ cache_id)).

(** [ToolRegistry.load_cached_spec]: [None] when the entry does not exist,
    and [None] again when anything in reading it raises. *)
Definition load_cached_spec (dir : cached) (cache_id : string)
  : outcome (option (cached_spec * value)) :=
  match dir !! cache_id with
  | None => Ret None
  | Some payload =>
      try_except (do r <- read_payload cache_id payload; Ret (Some r)) (Ret None)
  end.

(** One turn of the loop of [find_workflow_by_id], the body of its
    [try]: [Some obj] when the file holds the workflow looked for, [None]
    when the loop goes on.  A listed file without an entry is one that
    does not hold JSON: reading it raises. *)
Definition workflow_in (dir : cached) (pipeline_id stem : string)
  : outcome (option cached_spec) :=
  match dir !! stem with
  | None => Raise (ValueError "Expecting value")
  | Some (VDict data) =>
      if is_str "CompositionSpec" (from_option id VNone (dict_get "spec_type" data))
      then
        do spec_data <- getitem (VDict data) "spec";
        match spec_data with
        | VDict d =>
            if is_str pipeline_id (from_option id VNone (dict_get "pipeline_id" d))
            then
              do loaded <- load_cached_spec dir stem;
              match loaded with
              | Some (obj, _) => Ret (Some obj)
              | None =>
                  Raise (TypeError "cannot unpack non-iterable NoneType object")
              end
            else Ret None
        | _ => Raise (Exn "AttributeError" "object has no attribute 'get'")
        end
      else Ret None
  | Some _ => Raise (Exn "AttributeError" "object has no attribute 'get'")
  end.

(** [ToolRegistry.find_workflow_by_id]; [stems] holds the names of the
    [.json] files of the directory in the order [glob] yields them.  A
    file whose turn raises is passed over. *)
Fixpoint find_workflow_by_id (dir : cached) (stems : list string)
    (pipeline_id : string) : option cached_spec :=
  match stems with
  | [] => None
  | stem :: rest =>
      match workflow_in dir pipeline_id stem with
      | Ret (Some obj) => Some obj
      | _ => find_workflow_by_id dir rest pipeline_id
      end
  end.

End hydrate.

End spec_cache.

(** ** [machinist/registry.py]: the registry object *)
Module registry_object.
Import py registry.
Local Open Scope outcome_scope.

Definition FileNotFoundError (msg : string) : exn := Exn "FileNotFoundError" msg.

Section object.
(** [F] are the function objects a tool module defines; [Ext] is what
    lies outside the registry directory: the working directory, the
    source files, the modules already imported. *)
Context {F Ext : Type}.

(** [Path.cwd() / p] *)
Variable under_cwd : Ext -> Path -> Path.
(** [p.exists()] *)
Variable path_exists : Ext -> Path -> bool.
(** The [try] block of [get_executable]: the module at the path is
    imported (which may change the world outside) and its attribute
    [func_name] is taken; [None] when any of this raises or the attribute
    is missing or not callable. *)
Variable import_function : Path -> string -> Ext -> option F * Ext.
(** The [CompositionSpec] branch of [load_cached_spec]. *)
Variable hydrate : value -> outcome templates.CompositionSpec.

(** A [ToolRegistry] with its directory: the metadata entries and the
    sub-directories of the root, the cached specs and their files, the
    [_executable_cache], and the world outside. *)
Record Registry : Type := mkRegistry {
  entries : files;
  dirs : list string;
  cached_specs : spec_cache.cached;
  stems : list string;
  executable_cache : gmap string F;
  outside : Ext
}.

Definition with_executable (tool_id : string) (func : F) (ext : Ext)
    (r : Registry) : Registry :=
  mkRegistry (entries r) (dirs r) (cached_specs r) (stems r)
    (<[tool_id := func]> (executable_cache r)) ext.

Definition with_outside (ext : Ext) (r : Registry) : Registry :=
  mkRegistry (entries r) (dirs r) (cached_specs r) (stems r)
    (executable_cache r) ext.

(** [ToolRegistry.get_executable] *)
Definition get_executable (tool_id : string) (r : Registry)
  : outcome (option F) * Registry :=
  match executable_cache r !! tool_id with
  | Some func => (Ret (Some func), r)
  | None =>
      match load (entries r) tool_id with
      | Ret None => (Ret None, r)
      | Ret (Some metadata) =>
          let source_path := under_cwd (outside r) (source_path metadata) in
          let func_name := name (spec metadata) in
          if negb (path_exists (outside r) source_path)
          then (Raise (FileNotFoundError
                         ("Source file for tool " +:+ tool_id
                          +:+ " not found at " +:+ path_str source_path)), r)
          else
            match import_function source_path func_name (outside r) with
            | (Some func, ext) => (Ret (Some func), with_executable tool_id func ext r)
            | (None, ext) => (Ret None, with_outside ext r)
            end
      | Raise e => (Raise e, r)
      | Diverge => (Diverge, r)
      end
  end.

(** A function object as the engine uses it: its [__name__], and what
    calling it does, which may read and change the registry and the
    world outside. *)
Variable call : F -> workflow.executable Registry.

(** The registry as the workflow engine uses it.  [find_workflow_by_id]
    only ever returns a workflow (the entries it loads have the type
    [CompositionSpec]). *)
Definition operations : workflow.ToolRegistry Registry :=
  workflow.mkToolRegistry
    (fun r pipeline_id =>
       match spec_cache.find_workflow_by_id hydrate (cached_specs r) (stems r)
               pipeline_id with
       | Some (spec_cache.CachedWorkflow nested) => Some nested
       | _ => None
       end)
    (fun r template_id => catalog.find_by_template_id (entries r) (dirs r) template_id)
    (fun r => catalog.list_tools (entries r) (dirs r))
    (fun r tool_id => load (entries r) tool_id)
    (fun tool_id r =>
       match get_executable tool_id r with
       | (Ret (Some func), r') => (Ret (Some (call func)), r')
       | (Ret None, r') => (Ret None, r')
       | (Raise e, r') => (Raise e, r')
       | (Diverge, r') => (Diverge, r')
       end).

End object.

Arguments Registry F Ext : clear implicits.

End registry_object.

(** ** [machinist/parsing.py]: the helpers that work on plain text *)
Module parsing.
Import py.

(** [extract_brace_block] *)
Definition extract_brace_block (text : string) : option string :=
  match pytext.find "{" text, pytext.rfind "}" text with
  | Some start, Some stop =>
      if (start <? stop)%nat then Some (pytext.slice start (stop + 1) text)
      else None
  | _, _ => None
  end.

(** [extract_json_block] *)
Definition extract_json_block (text : string) : outcome string :=
  match pytext.find "{" text, pytext.rfind "}" text with
  | Some start, Some stop =>
      if (stop <=? start)%nat
      then Raise (ValueError "No JSON object found in LLM response")
      else Ret (pytext.slice start (stop + 1) text)
  | _, _ => Raise (ValueError "No JSON object found in LLM response")
  end.

(** The class [\d] on ASCII text. *)
Definition is_digit (c : ascii) : bool :=
  let n := nat_of_ascii c in (Nat.leb 48 n && Nat.leb n 57)%bool.

(** The class [\w] on ASCII text: letters, digits and the underscore. *)
Definition is_word (c : ascii) : bool :=
  let n := nat_of_ascii c in
  ((Nat.leb 65 n && Nat.leb n 90) || (Nat.leb 97 n && Nat.leb n 122)
   || is_digit c || Nat.eqb n 95)%bool.

(** [to_safe_module_name]: the substitution puts an underscore in place
    of every character outside [\w], and one before the text when it
    starts with a digit (the empty match of the second alternative); the
    result is lower-cased. *)
Definition to_safe_module_name (name : string) : string :=
  pystr.lower
    ((if pystr.head_is is_digit name then "_" else "")
     +:+ pytext.map_chars (fun c => if is_word c then c else "_"%char) name).

(** A character of a module name: a lower-case letter, a digit or the
    underscore. *)
Definition is_module_char (c : ascii) : bool :=
  (is_word c && Ascii.eqb (pystr.lower_char c) c)%bool.

End parsing.

(** ** The engine's cache and the calls it makes *)
Module engine_invariant.
Import py workflow.

(** A method of the engine that only appends to the trace of calls, and
    leaves in the cache no key that was not there before or is not the
    key of one of the calls it made. *)
Definition cache_from_calls {W A} (m : M (W := W) A) : Prop :=
  forall σ r σ', m σ = (r, σ') ->
    exists new_calls,
      calls σ' = calls σ ++ new_calls
      /\ forall k, is_Some (execution_cache σ' !! k) ->
           is_Some (execution_cache σ !! k)
           \/ exists t kwargs, (t, kwargs) ∈ new_calls /\ k = hash_inputs t kwargs.

End engine_invariant.

(** ** A registry object for the test suite's tool

    The tool [print_msg] is registered; the world outside is the list of
    the paths that exist; every module imports and defines the function
    asked for, held by its name, which answers like the mock of the test
    suite. *)
Module object_fixtures.
Import py registry registry_object.

Definition under_cwd (_ : list string) (p : Path) : Path := p.

Definition path_exists (ext : list string) (p : Path) : bool :=
  bool_decide (path_str p ∈ ext).

Definition import_function (_ : Path) (func_name : string) (ext : list string)
  : option string * list string :=
  (Some func_name, ext).

Definition hydrate (_ : value) : outcome templates.CompositionSpec :=
  Raise (TypeError "missing required argument").

Definition call (func_name : string)
  : workflow.executable (Registry string (list string)) :=
  workflow.mkExecutable (Ret func_name) (fun _ r => (Ret (VStr "executed"), r)).

Definition test_object (deterministic : bool) (paths : list string)
  : Registry string (list string) :=
  mkRegistry (register ∅ (fixtures.print_msg_meta deterministic))
    ["cached_specs"; "print_msg"] ∅ [] ∅ paths.

(** The operations of that object. *)
Definition test_operations : workflow.ToolRegistry (Registry string (list string)) :=
  operations under_cwd path_exists import_function hydrate call.

End object_fixtures.

(* ===================================================================== *)
(** * Part II: properties *)
(* ===================================================================== *)

(** ** Strings *)
Section string_facts.
Import pystr.

Lemma app_cons (c : ascii) (s t : string) :
  String c s +:+ t = String c (s +:+ t).
Proof. reflexivity. Qed.

Lemma app_empty_l (s : string) : "" +:+ s = s.
Proof. reflexivity. Qed.

Lemma prefix_one (c d : ascii) (s : string) :
  String.prefix (String c "") (String d s) = Ascii.eqb c d.
Proof.
  simpl. destruct (ascii_dec c d) as [->|Hne].
  - rewrite Ascii.eqb_refl. by destruct s.
  - symmetry. by apply Ascii.eqb_neq.
Qed.

(** A text without [c] is cut at the first [c] that follows it. *)
Lemma split_once_char_app (c : ascii) (before after : string) :
  contains (String c "") before = false ->
  split_once (String c "") (before +:+ String c after) = Some (before, after).
Proof.
  induction before as [|d before IH]; intros Hno.
  - rewrite app_empty_l. cbn [split_once]. rewrite prefix_one, Ascii.eqb_refl.
    reflexivity.
  - cbn [contains] in Hno. apply orb_false_elim in Hno as [Hd Hrest].
    rewrite prefix_one in Hd.
    rewrite app_cons. cbn [split_once]. rewrite prefix_one, Hd.
    by rewrite (IH Hrest).
Qed.

Lemma split_once_char_none (c : ascii) (s : string) :
  contains (String c "") s = false -> split_once (String c "") s = None.
Proof.
  induction s as [|d s IH]; intros Hno.
  - reflexivity.
  - cbn [contains] in Hno. apply orb_false_elim in Hno as [Hd Hrest].
    cbn [split_once]. rewrite Hd. by rewrite (IH Hrest).
Qed.

(** [split_once] cuts at an occurrence of the separator ... *)
Lemma split_once_app (sep s before after : string) :
  split_once sep s = Some (before, after) -> s = before +:+ sep +:+ after.
Proof.
  revert before after. induction s as [|d s IH]; intros before after.
  - cbn [split_once]. destruct (String.prefix sep "") eqn:Hp; [|done].
    destruct sep; [|done]. intros [= <- <-]. reflexivity.
  - cbn [split_once]. destruct (String.prefix sep (String d s)) eqn:Hp.
    + intros [= <- <-]. rewrite app_empty_l.
      clear IH. revert d s Hp. induction sep as [|e sep IHsep]; intros d s Hp.
      * reflexivity.
      * simpl in Hp. destruct (ascii_dec e d) as [->|]; [|done].
        rewrite app_cons. f_equal. cbn [String.length drop].
        destruct s as [|d' s].
        -- destruct sep; [reflexivity | done].
        -- by apply IHsep.
    + destruct (split_once sep s) as [[b a]|] eqn:Hs; [|done].
      intros [= <- <-]. rewrite app_cons. f_equal. by apply IH.
Qed.

(** ... and at the first one: the separator does not start anywhere
    inside [before]. *)
Lemma split_once_first (sep s before after : string) :
  split_once sep s = Some (before, after) ->
  forall (a b : string), before = a +:+ b -> b <> "" ->
    String.prefix sep (b +:+ sep +:+ after) = false.
Proof.
  revert before after. induction s as [|d s IH]; intros before after.
  - cbn [split_once]. destruct (String.prefix sep ""); [|done].
    intros [= <- <-] a b Hab Hb. destruct a, b; done.
  - cbn [split_once]. destruct (String.prefix sep (String d s)) eqn:Hp.
    + intros [= <- <-] a b Hab Hb. destruct a, b; done.
    + destruct (split_once sep s) as [[b0 a0]|] eqn:Hs; [|done].
      intros [= <- <-] a b Hab Hb.
      pose proof (split_once_app _ _ _ _ Hs) as Hs'.
      destruct a as [|d' a].
      * rewrite app_empty_l in Hab. subst b. rewrite app_cons, <- Hs'. exact Hp.
      * rewrite app_cons in Hab. injection Hab as <- Hab.
        by apply (IH _ _ eq_refl a b).
Qed.

Lemma startswith_eqb (c : ascii) (s t : string) :
  startswith (String c "") s = false -> String.eqb s (String c t) = false.
Proof.
  destruct s as [|d s]; [done|]. unfold startswith. rewrite prefix_one.
  intros Hd. apply String.eqb_neq. intros [= -> _].
  by rewrite Ascii.eqb_refl in Hd.
Qed.

End string_facts.

(** ** Stripping *)
Section strip_facts.
Import pystr.
Variable p : ascii -> bool.

Lemma lstrip_spec (s : string) :
  exists a, s = a +:+ lstrip p s /\ all_chars p a = true
            /\ head_is p (lstrip p s) = false.
Proof.
  induction s as [|c s (a & Hs & Ha & Hh)].
  - by exists "".
  - cbn [lstrip]. destruct (p c) eqn:Hc.
    + exists (String c a). rewrite app_cons, <- Hs. cbn [all_chars].
      by rewrite Hc, Ha.
    + exists "". by rewrite app_empty_l.
Qed.

Lemma rstrip_spec (s : string) :
  exists b, s = rstrip p s +:+ b /\ all_chars p b = true
            /\ last_is p (rstrip p s) = false
            /\ (rstrip p s = "" \/ head_is p (rstrip p s) = head_is p s).
Proof.
  induction s as [|c s (b & Hs & Hb & Hl & Hh)].
  - exists "". by auto.
  - cbn [rstrip]. destruct (rstrip p s) as [|d r] eqn:Hr.
    + rewrite app_empty_l in Hs. subst b.
      destruct (p c) eqn:Hc.
      * exists (String c s). cbn [all_chars]. rewrite Hc, Hb. by auto.
      * exists s. cbn [last_is head_is]. by auto.
    + exists b. rewrite app_cons, <- Hs. cbn [head_is].
      repeat split; [done| |by right].
      cbn [last_is] in *. exact Hl.
Qed.

(** [strip] removes a run of [p]-characters at each end and leaves a
    text that neither starts nor ends with one. *)
Lemma strip_with_spec (s : string) :
  exists a b, s = a +:+ strip_with p s +:+ b
              /\ all_chars p a = true /\ all_chars p b = true
              /\ head_is p (strip_with p s) = false
              /\ last_is p (strip_with p s) = false.
Proof.
  unfold strip_with.
  destruct (lstrip_spec s) as (a & Hs & Ha & Hh).
  destruct (rstrip_spec (lstrip p s)) as (b & Hs' & Hb & Hl & Hh').
  exists a, b. repeat split; try done.
  - by rewrite <- Hs'.
  - destruct Hh' as [-> | ->]; done.
Qed.

End strip_facts.

(** ** Variable resolution *)
Section resolve_facts.
Import py pystr workflow.

Lemma resolve_value_item (context : dict) (item : value) :
  item <> VNone -> resolve_value "$item" context item = Ret item.
Proof. intros Hi. unfold resolve_value. by destruct item. Qed.

Lemma resolve_value_name (context : dict) (item : value) (name : string) :
  contains "." name = false ->
  (name = "item" -> item = VNone) ->
  resolve_value (String "$" name) context item
  = Ret (from_option id VNone (dict_get name context)).
Proof.
  intros Hdot Hitem. unfold resolve_value.
  replace (String.eqb (String "$" name) "$item" && negb (is_none item))%bool
    with false.
  - cbn [startswith String.prefix drop]. destruct (ascii_dec "$" "$"); [|done].
    replace (String.prefix "" name) with true by by destruct name.
    by rewrite (split_once_char_none "." name Hdot).
  - symmetry. apply andb_false_iff.
    destruct (String.eqb_spec (String "$" name) "$item") as [[= ->]|]; [|by left].
    right. by rewrite Hitem.
Qed.

Lemma resolve_value_field (context : dict) (item : value) (step field : string) :
  contains "." step = false ->
  resolve_value (String "$" (step +:+ String "." field)) context item
  = match dict_get step context with
    | Some (VDict d) => Ret (from_option id VNone (dict_get field d))
    | _ => Raise (ValueError ("Could not resolve step '" +:+ step
                              +:+ "' in context."))
    end.
Proof.
  intros Hdot. unfold resolve_value.
  pose proof (split_once_char_app "." step field Hdot) as Hsplit.
  replace (String.eqb (String "$" (step +:+ String "." field)) "$item")
    with false.
  - cbn [andb startswith String.prefix drop].
    destruct (ascii_dec "$" "$"); [|done].
    replace (String.prefix "" (step +:+ String "." field)) with true
      by by destruct (step +:+ String "." field).
    by rewrite Hsplit.
  - symmetry. apply String.eqb_neq. intros [= Heq].
    rewrite Heq in Hsplit. done.
Qed.

Lemma resolve_value_literal (context : dict) (item : value) (text : string) :
  startswith "$" text = false ->
  resolve_value text context item
  = if String.eqb (lower text) "true" then Ret (VBool true)
    else if String.eqb (lower text) "false" then Ret (VBool false)
    else Ret (VStr (strip_char squote (strip_char dquote text))).
Proof.
  intros Hd. unfold resolve_value.
  rewrite (startswith_eqb "$" text "item" Hd). cbn [andb]. by rewrite Hd.
Qed.

End resolve_facts.

(** C5 (amended).  Variable resolution follows the grammar: [$item] yields
    the loop item when one is bound (an item that is not [None]); [$name]
    without a dot yields [context.get(name)], [None] when absent;
    [$step.field] yields [context[step].get(field)] when [step] is a key of
    the context whose value is a dict, and raises a [ValueError] otherwise;
    [true] and [false] in any letter case yield the booleans; any other
    text is a literal from which every leading and trailing double quote,
    then every leading and trailing single quote, is stripped: the text
    is a run of double quotes, a middle that neither starts nor ends with
    a double quote, and a run of double quotes; the middle is a run of
    single quotes, the result, which neither starts nor ends with a
    single quote, and a run of single quotes. *)
Theorem resolve_value_grammar (context : py.dict) (item : py.value) :
  (item <> py.VNone -> workflow.resolve_value "$item" context item = py.Ret item)
  /\ (forall name,
        pystr.contains "." name = false -> (name = "item" -> item = py.VNone) ->
        workflow.resolve_value (String "$" name) context item
        = py.Ret (from_option id py.VNone (py.dict_get name context)))
  /\ (forall step field,
        pystr.contains "." step = false ->
        workflow.resolve_value (String "$" (step +:+ String "." field)) context item
        = match py.dict_get step context with
          | Some (py.VDict d) => py.Ret (from_option id py.VNone (py.dict_get field d))
          | _ => py.Raise (py.ValueError ("Could not resolve step '" +:+ step
                                          +:+ "' in context."))
          end)
  /\ (forall text,
        pystr.startswith "$" text = false ->
        (pystr.lower text = "true" ->
         workflow.resolve_value text context item = py.Ret (py.VBool true))
        /\ (pystr.lower text = "false" ->
            workflow.resolve_value text context item = py.Ret (py.VBool false))
        /\ (pystr.lower text <> "true" -> pystr.lower text <> "false" ->
            exists inner a b a' b',
              workflow.resolve_value text context item = py.Ret (py.VStr inner)
              /\ inner = pystr.strip_char pystr.squote
                           (pystr.strip_char pystr.dquote text)
              /\ text = a +:+ (a' +:+ inner +:+ b') +:+ b
              /\ pystr.all_chars (Ascii.eqb pystr.dquote) a = true
              /\ pystr.all_chars (Ascii.eqb pystr.dquote) b = true
              /\ pystr.head_is (Ascii.eqb pystr.dquote) (a' +:+ inner +:+ b')
                 = false
              /\ pystr.last_is (Ascii.eqb pystr.dquote) (a' +:+ inner +:+ b')
                 = false
              /\ pystr.all_chars (Ascii.eqb pystr.squote) a' = true
              /\ pystr.all_chars (Ascii.eqb pystr.squote) b' = true
              /\ pystr.head_is (Ascii.eqb pystr.squote) inner = false
              /\ pystr.last_is (Ascii.eqb pystr.squote) inner = false)).
Proof.
  split; [apply resolve_value_item|].
  split; [apply resolve_value_name|].
  split; [apply resolve_value_field|].
  intros text Hd. rewrite (resolve_value_literal context item text Hd).
  split; [|split].
  - intros ->. reflexivity.
  - intros ->. reflexivity.
  - intros Ht Hf.
    apply String.eqb_neq in Ht, Hf. rewrite Ht, Hf.
    destruct (strip_with_spec (Ascii.eqb pystr.dquote) text)
      as (a & b & Htext & Ha & Hb & Hhd & Hld).
    destruct (strip_with_spec (Ascii.eqb pystr.squote)
                (pystr.strip_char pystr.dquote text))
      as (a' & b' & Hmid & Ha' & Hb' & Hh & Hl).
    exists (pystr.strip_char pystr.squote (pystr.strip_char pystr.dquote text)),
           a, b, a', b'.
    unfold pystr.strip_char in *. rewrite <- Hmid. done.
Qed.

Lemma resolve_value_grammar_witness :
  workflow.resolve_value "$item" [] (py.VInt 1) = py.Ret (py.VInt 1)
  /\ workflow.resolve_value "$x" [("x", py.VInt 2)] py.VNone = py.Ret (py.VInt 2)
  /\ workflow.resolve_value "$s.f" [("s", py.VDict [("f", py.VInt 3)])] py.VNone
     = py.Ret (py.VInt 3)
  /\ workflow.resolve_value "$s.f" [] py.VNone
     = py.Raise (py.ValueError "Could not resolve step 's' in context.")
  /\ workflow.resolve_value "TRUE" [] py.VNone = py.Ret (py.VBool true)
  /\ workflow.resolve_value "False" [] py.VNone = py.Ret (py.VBool false)
  /\ workflow.resolve_value "'hi'" [] py.VNone = py.Ret (py.VStr "hi").
Proof.
  split.
  { apply (proj1 (resolve_value_grammar [] (py.VInt 1))). discriminate. }
  split.
  { apply (proj1 (proj2 (resolve_value_grammar [("x", py.VInt 2)] py.VNone)) "x");
      [reflexivity | discriminate]. }
  split.
  { apply (proj1 (proj2 (proj2
      (resolve_value_grammar [("s", py.VDict [("f", py.VInt 3)])] py.VNone))) "s" "f").
    reflexivity. }
  split.
  { apply (proj1 (proj2 (proj2 (resolve_value_grammar [] py.VNone))) "s" "f").
    reflexivity. }
  split.
  { apply (proj2 (proj2 (proj2 (resolve_value_grammar [] py.VNone))) "TRUE");
      reflexivity. }
  split.
  { apply (proj2 (proj2 (proj2 (resolve_value_grammar [] py.VNone))) "False");
      reflexivity. }
  destruct (proj2 (proj2 (proj2 (resolve_value_grammar [] py.VNone))) "'hi'" eq_refl)
    as (_ & _ & H).
  destruct H as (inner & _ & _ & _ & _ & H & Hinner & _);
    [discriminate | discriminate |].
  rewrite H, Hinner. reflexivity.
Defined.

(** C5, the claim as worded fails: two layers of quotes are both removed,
    where "one layer stripped" would leave the inner one. *)
Lemma resolve_value_strips_every_layer :
  workflow.resolve_value "''a''" [] py.VNone = py.Ret (py.VStr "a")
  /\ workflow.resolve_value "''a''" [] py.VNone
     <> py.Ret (py.VStr (wording.strip_one_layer "''a''")).
Proof. split; [reflexivity | discriminate]. Qed.

(** The default [item=None] doubles as "no loop item": a loop item that is
    [None] is looked up in the context under the key [item]. *)
Example resolve_value_item_none :
  workflow.resolve_value "$item" [("item", py.VInt 5)] py.VNone = py.Ret (py.VInt 5).
Proof. reflexivity. Qed.

(** ** Conditions *)
Section condition_facts.
Import py pystr workflow.








End condition_facts.

Section condition_claim.
Import py pystr workflow.
Context {W : Type} (R : ToolRegistry W).


End condition_claim.

Section condition_witnesses.
Import py pystr workflow fixtures.



End condition_witnesses.

(** ** Dicts *)
Section dict_facts.
Import py.
Context {A : Type}.
Implicit Types (d : list (string * A)).

Lemma dict_get_set_eq k (v : A) d : dict_get k (dict_set k v d) = Some v.
Proof.
  induction d as [|[k' v'] d IH]; cbn.
  - by rewrite String.eqb_refl.
  - destruct (String.eqb k k') eqn:Hk; cbn; by rewrite ?String.eqb_refl, ?Hk.
Qed.

Lemma dict_get_set_ne k k' (v : A) d :
  k <> k' -> dict_get k' (dict_set k v d) = dict_get k' d.
Proof.
  intros Hne. induction d as [|[k0 v0] d IH]; cbn.
  - apply not_eq_sym, String.eqb_neq in Hne. by rewrite Hne.
  - destruct (String.eqb_spec k k0) as [<-|Hk0]; cbn.
    + apply not_eq_sym, String.eqb_neq in Hne. by rewrite Hne.
    + by rewrite IH.
Qed.

Lemma dict_keys_set k (v : A) d :
  dict_keys (dict_set k v d)
  = if dict_mem k d then dict_keys d else dict_keys d ++ [k].
Proof.
  unfold dict_mem, dict_keys. induction d as [|[k' v'] d IH]; cbn; [done|].
  destruct (String.eqb_spec k k') as [<-|Hk]; cbn; [done|].
  rewrite IH. by destruct (dict_get k d).
Qed.

Lemma dict_get_None k d : dict_get k d = None <-> k ∉ dict_keys d.
Proof.
  induction d as [|[k' v'] d IH]; cbn.
  - split; [intros _; apply not_elem_of_nil | done].
  - rewrite not_elem_of_cons.
    destruct (String.eqb_spec k k') as [<-|Hk]; [|by rewrite IH; tauto].
    split; [done | by intros [? _]].
Qed.

(** A dict keeps its keys distinct. *)
Lemma dict_set_NoDup k (v : A) d :
  NoDup (dict_keys d) -> NoDup (dict_keys (dict_set k v d)).
Proof.
  intros Hd. rewrite dict_keys_set. unfold dict_mem.
  destruct (dict_get k d) eqn:Hk; [done|].
  apply NoDup_app. split_and!; [done| |apply NoDup_singleton].
  intros x Hx ->%list_elem_of_singleton. by apply dict_get_None in Hk.
Qed.

End dict_facts.


(** ** Dict items in key order *)
Section json_facts.
Import py json.

Lemma dict_keys_fmap {A} (d : list (string * A)) : dict_keys d = d.*1.
Proof. unfold dict_keys. induction d; cbn; congruence. Qed.

Lemma sorted_items_perm {A} (d : list (string * A)) : sorted_items d ≡ₚ d.
Proof. apply merge_sort_Permutation. Qed.

Lemma dict_get_elem {A} k (v : A) d :
  NoDup (dict_keys d) -> dict_get k d = Some v <-> (k, v) ∈ d.
Proof.
  rewrite dict_keys_fmap.
  induction d as [|[k' v'] d IH]; cbn.
  - intros _. split; [done|]. by intros ?%elem_of_nil.
  - intros [Hk' Hd]%NoDup_cons. rewrite elem_of_cons.
    destruct (String.eqb_spec k k') as [<-|Hne].
    + split; [intros [= ->]; by left|].
      intros [[= ->]|Hin]; [done|]. destruct Hk'.
      apply list_elem_of_fmap. by exists (k, v).
    + rewrite (IH Hd). split; [by right|]. by intros [[= -> _]|].
Qed.

(** Look-up in a dict does not depend on the order of the items. *)
Lemma dict_get_perm {A} k (d d' : list (string * A)) :
  NoDup (dict_keys d) -> d ≡ₚ d' -> dict_get k d = dict_get k d'.
Proof.
  intros Hd Hperm.
  assert (NoDup (dict_keys d')) as Hd'.
  { rewrite dict_keys_fmap in *. by rewrite <- Hperm. }
  destruct (dict_get k d) as [v|] eqn:Hk.
  - symmetry. apply dict_get_elem; [done|]. rewrite <- Hperm.
    by apply dict_get_elem.
  - symmetry. apply dict_get_None. apply dict_get_None in Hk.
    rewrite dict_keys_fmap in *. by rewrite <- Hperm.
Qed.

Lemma dict_get_sorted_items {A} k (d : list (string * A)) :
  NoDup (dict_keys d) -> dict_get k (sorted_items d) = dict_get k d.
Proof.
  intros Hd. symmetry. apply dict_get_perm; [done|].
  symmetry. apply sorted_items_perm.
Qed.

Lemma dict_keys_sorted_items {A} (d : list (string * A)) :
  dict_keys (sorted_items d) ≡ₚ dict_keys d.
Proof. rewrite !dict_keys_fmap. by rewrite sorted_items_perm. Qed.

End json_facts.


(** ** The memoization key *)
Section key_facts.
Import py json workflow.












End key_facts.

(** ** The engine: one step execution *)
Section step_logic_facts.
Import py workflow.
Context {W : Type} (R : ToolRegistry W).
Implicit Types (σ : engine W) (kwargs : dict).

(** What [_run_step_logic] does once the tool is found: answer from the
    cache when the tool is memoized and the key is known, else load the
    executable, read its [__name__], call it, and store the result of a
    memoized tool. *)
Lemma run_step_logic_tool execute step_id tool_id kwargs σ t meta :
  resolves_to R (world σ) tool_id t meta ->
  run_step_logic R execute step_id tool_id kwargs σ
  = match (if memoized meta
           then execution_cache σ !! hash_inputs t kwargs else None) with
    | Some hit => (Ret hit, σ)
    | None =>
        match get_executable R t (world σ) with
        | (Ret (Some f), w1) =>
            match name_attr f with
            | Ret _ =>
                match f kwargs w1 with
                | (Ret result, w2) =>
                    (Ret result,
                     mkEngine (if memoized meta
                               then <[hash_inputs t kwargs := result]> (execution_cache σ)
                               else execution_cache σ)
                              w2 (calls σ ++ [(t, kwargs)]))
                | (Raise e, w2) =>
                    (Raise e, mkEngine (execution_cache σ) w2 (calls σ ++ [(t, kwargs)]))
                | (Diverge, w2) =>
                    (Diverge, mkEngine (execution_cache σ) w2 (calls σ ++ [(t, kwargs)]))
                end
            | Raise e => (Raise e, with_world w1 σ)
            | Diverge => (Diverge, with_world w1 σ)
            end
        | (Ret None, w1) =>
            (Raise (RuntimeError
                      ("Step '" +:+ step_id
                       +:+ "': Could not load executable for tool '"
                       +:+ t +:+ "'")),
             with_world w1 σ)
        | (Raise e, w1) => (Raise e, with_world w1 σ)
        | (Diverge, w1) => (Diverge, with_world w1 σ)
        end
    end.
Proof.
  intros (Hnested & [others Hids] & Hload).
  unfold run_step_logic, bindM, query, cache_lookup, load_executable.
  rewrite Hnested, Hids, Hload. cbn.
  destruct (memoized meta) eqn:Hpure.
  - destruct (execution_cache σ !! hash_inputs t kwargs) as [hit|]; [done|].
    destruct (get_executable R t (world σ)) as [[[f|]|e|] w1]; try done.
    unfold invoke, with_world, lift. cbn.
    destruct (name_attr f) as [name|e|]; try done.
    destruct (f kwargs w1) as [[result|e|] w2]; done.
  - destruct (get_executable R t (world σ)) as [[[f|]|e|] w1]; try done.
    unfold invoke, with_world, lift. cbn.
    destruct (name_attr f) as [name|e|]; try done.
    destruct (f kwargs w1) as [[result|e|] w2]; done.
Qed.

(** A memoized tool whose key is in the cache is not invoked: the cached
    value is returned and the engine is unchanged. *)
Lemma run_step_logic_hit execute step_id tool_id kwargs σ t meta hit :
  resolves_to R (world σ) tool_id t meta ->
  memoized meta = true ->
  execution_cache σ !! hash_inputs t kwargs = Some hit ->
  run_step_logic R execute step_id tool_id kwargs σ = (Ret hit, σ).
Proof.
  intros Hres Hpure Hhit.
  rewrite (run_step_logic_tool _ _ _ _ _ _ _ Hres). by rewrite Hpure, Hhit.
Qed.

(** After a memoized tool has returned, its key holds the result, and at
    most one call was made. *)
Lemma run_step_logic_stores execute step_id tool_id kwargs σ t meta result σ1 :
  resolves_to R (world σ) tool_id t meta ->
  memoized meta = true ->
  run_step_logic R execute step_id tool_id kwargs σ = (Ret result, σ1) ->
  execution_cache σ1 !! hash_inputs t kwargs = Some result.
Proof.
  intros Hres Hpure. rewrite (run_step_logic_tool _ _ _ _ _ _ _ Hres), Hpure.
  destruct (execution_cache σ !! hash_inputs t kwargs) as [hit|] eqn:Hhit.
  - by intros [= <- <-].
  - destruct (get_executable R t (world σ)) as [[[f|]|e|] w1]; try done.
    destruct (name_attr f) as [name|e|]; try done.
    destruct (f kwargs w1) as [[r|e|] w2]; try done.
    intros [= <- <-]. cbn. apply lookup_insert_eq.
Qed.




End step_logic_facts.

(** ** The engine: the cache only grows *)
Section cache_facts.
Import py workflow.
Context {W : Type} (R : ToolRegistry W).
Implicit Types (σ : engine W) (kwargs : dict).

Lemma keeps_cache_ret {A} (a : A) : keeps_cache (W := W) (ret a).
Proof. by intros σ r σ' [= <- <-]. Qed.

Lemma keeps_cache_raise {A} (e : exn) : keeps_cache (W := W) (A := A) (raise e).
Proof. by intros σ r σ' [= <- <-]. Qed.

Lemma keeps_cache_lift {A} (o : outcome A) : keeps_cache (W := W) (lift o).
Proof. by intros σ r σ' [= <- <-]. Qed.

Lemma keeps_cache_bind {A B} (m : M A) (k : A -> M (W := W) B) :
  keeps_cache m -> (forall a, keeps_cache (k a)) -> keeps_cache (bindM m k).
Proof.
  intros Hm Hk σ r σ'. unfold bindM.
  destruct (m σ) as [[a|e|] σ1] eqn:Hrun.
  - intros Hka. etrans; [by eapply Hm | by eapply Hk].
  - intros [= <- <-]. by eapply Hm.
  - intros [= <- <-]. by eapply Hm.
Qed.

Lemma keeps_cache_reraise {A} (m : M (W := W) A) :
  keeps_cache m -> keeps_cache (catch m (fun e => raise e)).
Proof.
  intros Hm σ r σ'. unfold catch, raise.
  destruct (m σ) as [[a|e|] σ1] eqn:Hrun; intros [= <- <-]; by eapply Hm.
Qed.

Lemma keeps_cache_run_step_logic execute step_id tool_id kwargs :
  (forall nested inputs, keeps_cache (execute nested inputs)) ->
  keeps_cache (run_step_logic R execute step_id tool_id kwargs).
Proof.
  intros Hex σ r σ'.
  unfold run_step_logic, bindM, query, cache_lookup, load_executable,
    invoke, cache_store, raise, ret, with_world.
  destruct (find_workflow_by_id R (world σ) tool_id) as [nested|].
  { destruct (execute nested kwargs σ) as [[final|e|] σ1] eqn:Hrun;
      intros [= <- <-]; by eapply Hex. }
  destruct (concrete_tool_ids R (world σ) tool_id) as [[|t others]|e|];
    try (by intros [= <- <-]).
  destruct (load R (world σ) t) as [meta|e|]; try (by intros [= <- <-]).
  destruct (memoized meta);
    [destruct (execution_cache σ !! hash_inputs t kwargs) as [hit|] eqn:Hkey|];
    try (by intros [= <- <-]).
  - destruct (get_executable R t (world σ)) as [[[f|]|e|] w1]; cbn;
      try (by intros [= <- <-]).
    unfold lift. destruct (name_attr f) as [name|e|]; cbn;
      try (by intros [= <- <-]).
    destruct (f kwargs w1) as [[res|e|] w2]; cbn; intros [= <- <-]; cbn;
      [|done..].
    by apply insert_subseteq.
  - destruct (get_executable R t (world σ)) as [[[f|]|e|] w1]; cbn;
      try (by intros [= <- <-]).
    unfold lift. destruct (name_attr f) as [name|e|]; cbn;
      try (by intros [= <- <-]).
    by destruct (f kwargs w1) as [[res|e|] w2]; cbn; intros [= <- <-].
Qed.

Lemma keeps_cache_foreach_loop execute step context items step_outputs :
  (forall nested inputs, keeps_cache (execute nested inputs)) ->
  keeps_cache (foreach_loop R execute step context items step_outputs).
Proof.
  intros Hex. revert step_outputs.
  induction items as [|item items IH]; intros step_outputs; cbn [foreach_loop].
  - apply keeps_cache_ret.
  - apply keeps_cache_bind; [apply keeps_cache_lift|]. intros kwargs.
    apply keeps_cache_bind; [|by intros result].
    by apply keeps_cache_reraise, keeps_cache_run_step_logic.
Qed.

Lemma keeps_cache_exec_step execute step context :
  (forall nested inputs, keeps_cache (execute nested inputs)) ->
  keeps_cache (exec_step R execute step context).
Proof.
  intros Hex. unfold exec_step.
  apply keeps_cache_bind; [apply keeps_cache_lift|]. intros go.
  destruct (negb go); [apply keeps_cache_ret|].
  destruct (present (templates.foreach step)) as [target|].
  - apply keeps_cache_bind; [apply keeps_cache_lift|]. intros coll.
    destruct coll; try apply keeps_cache_raise.
    apply keeps_cache_bind; [by apply keeps_cache_foreach_loop|].
    intros outs. apply keeps_cache_ret.
  - apply keeps_cache_bind; [apply keeps_cache_lift|]. intros kwargs.
    apply keeps_cache_bind; [|intros result; apply keeps_cache_ret].
    by apply keeps_cache_reraise, keeps_cache_run_step_logic.
Qed.

Lemma keeps_cache_exec_steps execute steps context :
  (forall nested inputs, keeps_cache (execute nested inputs)) ->
  keeps_cache (exec_steps R execute steps context).
Proof.
  intros Hex. revert context.
  induction steps as [|step steps IH]; intros context; cbn [exec_steps].
  - apply keeps_cache_ret.
  - apply keeps_cache_bind; [by apply keeps_cache_exec_step | done].
Qed.

Lemma keeps_cache_execute fuel comp_spec inputs :
  keeps_cache (execute R fuel comp_spec inputs).
Proof.
  revert comp_spec inputs. induction fuel as [|fuel IH]; intros comp_spec inputs.
  - by intros σ r σ' [= <- <-].
  - cbn [execute]. by apply keeps_cache_exec_steps.
Qed.

Lemma later_keeps_cache σ σ' :
  later R σ σ' -> execution_cache σ ⊆ execution_cache σ'.
Proof.
  induction 1 as [σ|fuel step_id tool_id kwargs σ r σ1 σ2 Hrun _ IH]; [done|].
  etrans; [|exact IH].
  eapply keeps_cache_run_step_logic; [|exact Hrun].
  intros nested inputs. apply keeps_cache_execute.
Qed.

(** Two executions of a memoized tool under one key: the second returns
    what the first returned and leaves the engine as it is. *)
Lemma run_step_logic_repeat fuel1 fuel2 step1 step2 tool_id1 tool_id2 t
    meta1 meta2 kwargs1 kwargs2 σ0 result σ1 σ2 :
  resolves_to R (world σ0) tool_id1 t meta1 -> memoized meta1 = true ->
  run_step_logic R (execute R fuel1) step1 tool_id1 kwargs1 σ0 = (Ret result, σ1) ->
  later R σ1 σ2 ->
  resolves_to R (world σ2) tool_id2 t meta2 -> memoized meta2 = true ->
  hash_inputs t kwargs2 = hash_inputs t kwargs1 ->
  run_step_logic R (execute R fuel2) step2 tool_id2 kwargs2 σ2 = (Ret result, σ2).
Proof.
  intros Hres1 Hpure1 Hrun1 Hlater Hres2 Hpure2 Hkey.
  apply (run_step_logic_hit R _ _ _ _ _ t meta2); [done..|].
  rewrite Hkey.
  eapply lookup_weaken; [|by apply later_keeps_cache].
  exact (run_step_logic_stores R _ _ _ _ _ _ _ _ _ Hres1 Hpure1 Hrun1).
Qed.

End cache_facts.

Section memoization_claims.
Import py workflow.
Context {W : Type} (R : ToolRegistry W).


(** C10.  The key is built from [str] of each value, so the parameter
    dicts [{"x": 1}] and [{"x": "1"}] have one key for any tool; after a
    memoized tool has run with the first, a step execution with the second
    returns the result computed for the first and calls nothing. *)
Theorem stringified_keys_collide :
  [("x", VInt 1)] <> [("x", VStr "1")]
  /\ (forall t, hash_inputs t [("x", VInt 1)] = hash_inputs t [("x", VStr "1")])
  /\ (forall fuel1 fuel2 step1 step2 tool_id t meta1 meta2
             (σ0 σ1 : engine W) result,
        resolves_to R (world σ0) tool_id t meta1 -> memoized meta1 = true ->
        run_step_logic R (execute R fuel1) step1 tool_id [("x", VInt 1)] σ0
        = (Ret result, σ1) ->
        resolves_to R (world σ1) tool_id t meta2 -> memoized meta2 = true ->
        run_step_logic R (execute R fuel2) step2 tool_id [("x", VStr "1")] σ1
        = (Ret result, σ1)).
Proof.
  split_and!.
  - discriminate.
  - intros t. unfold hash_inputs. f_equal.
  - intros * Hres1 Hpure1 Hrun1 Hres2 Hpure2.
    eapply run_step_logic_repeat; [exact Hres1|exact Hpure1|exact Hrun1
                                  |apply later_now|exact Hres2|exact Hpure2|].
    unfold hash_inputs. f_equal.
Qed.

End memoization_claims.

Section memoization_witnesses.
Import py workflow fixtures.

Lemma test_registry_resolves (deterministic : bool) (f : executable nat)
    (n : nat) (tool_id : string) :
  tool_id = "print_msg_template" \/ tool_id = "print_msg" ->
  resolves_to (test_registry deterministic f) n tool_id "print_msg"
    (Some (print_msg_meta deterministic)).
Proof.
  intros [-> | ->]; (split; [reflexivity|]); (split; [|reflexivity]);
    by exists [].
Defined.


Lemma stringified_keys_collide_witness :
  let R := test_registry true counting_tool in
  exists σ1,
    run_step_logic R (execute R 0) "step1" "print_msg" [("x", VInt 1)] fresh
    = (Ret (VInt 0), σ1)
    /\ run_step_logic R (execute R 0) "step2" "print_msg" [("x", VStr "1")] σ1
       = (Ret (VInt 0), σ1).
Proof.
  intros R.
  eexists. split; [vm_compute; reflexivity|].
  refine (proj2 (proj2 (stringified_keys_collide R)) 0%nat 0%nat "step1" "step2"
            "print_msg" "print_msg"
            (Some (print_msg_meta true)) (Some (print_msg_meta true))
            fresh _ (VInt 0) _ _ _ _ _).
  - apply test_registry_resolves. by right.
  - reflexivity.
  - vm_compute. reflexivity.
  - apply test_registry_resolves. by right.
  - reflexivity.
Defined.

(** The same tool without the deterministic flag is called each time. *)
Example not_memoized_called_twice :
  let R := test_registry false counting_tool in
  let kwargs := [("msg", VStr "Hello")] in
  exists σ1 σ2,
    run_step_logic R (execute R 0) "step1" "print_msg" kwargs fresh
    = (Ret (VInt 0), σ1)
    /\ run_step_logic R (execute R 0) "step2" "print_msg" kwargs σ1
       = (Ret (VInt 1), σ2)
    /\ calls σ2 = [("print_msg", kwargs); ("print_msg", kwargs)].
Proof. intros R kwargs. do 2 eexists. split_and!; vm_compute; reflexivity. Qed.

(** A memoized tool that raises stores nothing, and is called again by
    the next execution with the same key. *)
Example memoized_failure_called_again :
  let R := test_registry true failing_tool in
  let kwargs := [("msg", VStr "Hello")] in
  exists σ1 σ2,
    run_step_logic R (execute R 0) "step1" "print_msg" kwargs fresh
    = (Raise (Exn "Exception" "boom"), σ1)
    /\ execution_cache σ1 = ∅
    /\ run_step_logic R (execute R 0) "step2" "print_msg" kwargs σ1
       = (Raise (Exn "Exception" "boom"), σ2)
    /\ calls σ2 = [("print_msg", kwargs); ("print_msg", kwargs)].
Proof. intros R kwargs. do 2 eexists. split_and!; vm_compute; reflexivity. Qed.


End memoization_witnesses.

(** ** The engine: loops over items and steps *)
Section loop_facts.
Import py workflow.
Context {W : Type} (R : ToolRegistry W).
Implicit Types (σ : engine W) (kwargs : dict).

Lemma reraise_id {A} (m : M (W := W) A) σ :
  catch m (fun e => raise e) σ = m σ.
Proof. unfold catch, raise. by destruct (m σ) as [[a|e|] σ']. Qed.

(** The loop, item by item. *)
Lemma foreach_loop_cons execute step context item items acc σ :
  foreach_loop R execute step context (item :: items) acc σ
  = match bind_params (templates.bind step) context item [] with
    | Ret kwargs =>
        match run_step_logic R execute (templates.id step)
                (templates.tool_id step) kwargs σ with
        | (Ret result, σ1) =>
            foreach_loop R execute step context items (acc ++ [result]) σ1
        | (Raise e, σ1) => (Raise e, σ1)
        | (Diverge, σ1) => (Diverge, σ1)
        end
    | Raise e => (Raise e, σ)
    | Diverge => (Diverge, σ)
    end.
Proof.
  cbn [foreach_loop]. unfold bindM at 1. unfold lift.
  destruct (bind_params _ _ _ _) as [kwargs|e|]; [|done..].
  unfold bindM. rewrite reraise_id.
  by destruct (run_step_logic _ _ _ _ _ _) as [[result|e|] σ1].
Qed.

(** Items that run in order are consumed by the loop, their results
    appended to the outputs collected so far. *)
Lemma foreach_loop_runs execute step context before after acc σ results σ1 :
  runs_in_order R execute step context before σ results σ1 ->
  foreach_loop R execute step context (before ++ after) acc σ
  = foreach_loop R execute step context after (acc ++ results) σ1.
Proof.
  intros Hruns. revert acc.
  induction Hruns as [σ|item items σ kwargs result σ1 results σ2 Hbind Hrun _ IH];
    intros acc.
  - by rewrite app_nil_r.
  - rewrite <- app_comm_cons, foreach_loop_cons, Hbind, Hrun, IH.
    by rewrite <- app_assoc.
Qed.

(** The loop returns exactly when the items run in order, and then it
    returns their results in that order. *)
Lemma foreach_loop_spec execute step context items acc σ outs σ' :
  foreach_loop R execute step context items acc σ = (Ret outs, σ')
  <-> exists results,
        outs = acc ++ results
        /\ runs_in_order R execute step context items σ results σ'.
Proof.
  split.
  - revert acc σ. induction items as [|item items IH]; intros acc σ.
    + cbn. intros [= <- <-]. exists []. split; [by rewrite app_nil_r|constructor].
    + rewrite foreach_loop_cons.
      destruct (bind_params _ _ _ _) as [kwargs|e|] eqn:Hbind; [|done..].
      destruct (run_step_logic _ _ _ _ _ _) as [[result|e|] σ1] eqn:Hrun; [|done..].
      intros (results & -> & Hruns)%IH.
      exists (result :: results). split; [by rewrite <- app_assoc|].
      by econstructor.
  - intros (results & -> & Hruns).
    rewrite <- (app_nil_r items), (foreach_loop_runs _ _ _ _ _ _ _ _ _ Hruns).
    reflexivity.
Qed.

Lemma runs_in_order_length execute step context items σ results σ' :
  runs_in_order R execute step context items σ results σ' ->
  length results = length items.
Proof. induction 1; cbn; congruence. Qed.

(** Steps run in sequence. *)
Lemma exec_steps_app execute before after context σ :
  exec_steps R execute (before ++ after) context σ
  = match exec_steps R execute before context σ with
    | (Ret context1, σ1) => exec_steps R execute after context1 σ1
    | (Raise e, σ1) => (Raise e, σ1)
    | (Diverge, σ1) => (Diverge, σ1)
    end.
Proof.
  revert context σ. induction before as [|step before IH]; intros context σ.
  - reflexivity.
  - cbn [exec_steps app]. unfold bindM.
    destruct (exec_step R execute step context σ) as [[context1|e|] σ1]; [|done..].
    apply IH.
Qed.

(** A step whose logic raises passes the exception on, unchanged. *)
Lemma exec_step_raises execute step context σ e σ' :
  condition_holds step context = Ret true ->
  step_logic_raises R execute step context σ e σ' ->
  exec_step R execute step context σ = (Raise e, σ').
Proof.
  intros Hgo Hraises. unfold exec_step. unfold bindM at 1. unfold lift.
  rewrite Hgo. cbn [negb].
  destruct Hraises as [kwargs e σ' Hfor Hbind Hrun
                      |target before item after results σ1 kwargs e σ2
                         Hfor Htarget Hruns Hbind Hrun].
  - rewrite Hfor. unfold bindM at 1. unfold lift. rewrite Hbind.
    unfold bindM. by rewrite reraise_id, Hrun.
  - rewrite Hfor. unfold bindM at 1. unfold lift. rewrite Htarget.
    unfold bindM.
    rewrite (foreach_loop_runs _ _ _ _ _ _ _ _ _ Hruns), foreach_loop_cons.
    by rewrite Hbind, Hrun.
Qed.

(** Without a nested workflow under its name, a step execution makes at
    most one call. *)
Lemma run_step_logic_calls_le execute step_id tool_id kwargs σ r σ1 :
  find_workflow_by_id R (world σ) tool_id = None ->
  run_step_logic R execute step_id tool_id kwargs σ = (r, σ1) ->
  (length (calls σ1) <= length (calls σ) + 1)%nat.
Proof.
  intros Hnested.
  unfold run_step_logic, bindM, query, cache_lookup, load_executable,
    invoke, cache_store, raise, ret, with_world.
  rewrite Hnested.
  destruct (concrete_tool_ids R (world σ) tool_id) as [[|t others]|e|];
    try (intros [= <- <-]; lia).
  destruct (load R (world σ) t) as [meta|e|]; try (intros [= <- <-]; lia).
  destruct (if memoized meta then _ else _) as [hit|];
    try (intros [= <- <-]; lia).
  destruct (get_executable R t (world σ)) as [[[f|]|e|] w1]; cbn;
    try (intros [= <- <-]; cbn; lia).
  unfold lift. destruct (name_attr f) as [name|e|]; cbn;
    try (intros [= <- <-]; cbn; lia).
  destruct (f kwargs w1) as [[res|e|] w2]; cbn;
    destruct (memoized meta); intros [= <- <-]; cbn; rewrite length_app; cbn; lia.
Qed.

(** A tool that is not memoized and returns has been called once. *)
Lemma run_step_logic_calls_eq execute step_id tool_id kwargs σ result σ1 :
  find_workflow_by_id R (world σ) tool_id = None ->
  (forall t others meta,
      concrete_tool_ids R (world σ) tool_id = Ret (t :: others) ->
      load R (world σ) t = Ret meta -> memoized meta = false) ->
  run_step_logic R execute step_id tool_id kwargs σ = (Ret result, σ1) ->
  length (calls σ1) = S (length (calls σ)).
Proof.
  intros Hnested Hpure.
  unfold run_step_logic, bindM, query, cache_lookup, load_executable,
    invoke, cache_store, raise, ret, with_world.
  rewrite Hnested.
  destruct (concrete_tool_ids R (world σ) tool_id) as [[|t others]|e|]; try done.
  destruct (load R (world σ) t) as [meta|e|] eqn:Hload; try done.
  rewrite (Hpure t others meta eq_refl Hload).
  destruct (get_executable R t (world σ)) as [[[f|]|e|] w1]; cbn; try done.
  unfold lift. destruct (name_attr f) as [name|e|]; cbn; try done.
  destruct (f kwargs w1) as [[res|e|] w2]; cbn; try done.
  intros [= <- <-]; cbn. rewrite length_app; cbn; lia.
Qed.

End loop_facts.

Section step_failure_claim.
Import py workflow.
Context {W : Type} (R : ToolRegistry W).

(** C2 (amended).  An exception raised while running a step's logic (the
    tool call included, and a nested workflow's failure too) aborts the
    whole workflow at once: no later item and no later step runs, nothing
    is retried or recovered, and the exception reaches the caller of
    [execute] as it was raised, class and message unchanged. *)
Theorem step_exception_aborts_workflow :
  (forall execute step_id tool_id nested kwargs (σ σ' : engine W) e,
      find_workflow_by_id R (world σ) tool_id = Some nested ->
      execute nested kwargs σ = (Raise e, σ') ->
      run_step_logic R execute step_id tool_id kwargs σ = (Raise e, σ'))
  /\ (forall fuel comp_spec inputs before step after context1
             (σ σ1 σ2 : engine W) e,
        templates.steps comp_spec = before ++ step :: after ->
        exec_steps R (execute R fuel) before inputs σ = (Ret context1, σ1) ->
        condition_holds step context1 = Ret true ->
        step_logic_raises R (execute R fuel) step context1 σ1 e σ2 ->
        execute R (S fuel) comp_spec inputs σ = (Raise e, σ2)).
Proof.
  split.
  - intros * Hnested Hrun. unfold run_step_logic, bindM, query.
    by rewrite Hnested, Hrun.
  - intros * Hsteps Hbefore Hgo Hraises. cbn [execute].
    rewrite Hsteps, exec_steps_app, Hbefore. cbn [exec_steps]. unfold bindM.
    by rewrite (exec_step_raises R _ _ _ _ _ _ Hgo Hraises).
Qed.

End step_failure_claim.

Section step_failure_witnesses.
Import py workflow fixtures.

Lemma step_exception_aborts_workflow_witness :
  let R := test_registry false failing_tool in
  execute R 1
    (pipeline [step_on "step1" "'Hello'" None None;
               step_on "step2" "'Again'" None None])
    [] fresh
  = (Raise (Exn "Exception" "boom"),
     mkEngine ∅ 1%nat [("print_msg", [("msg", VStr "Hello")])]).
Proof.
  intros R.
  refine (proj2 (step_exception_aborts_workflow R) 0%nat _ [] []
            (step_on "step1" "'Hello'" None None)
            [step_on "step2" "'Again'" None None] [] fresh fresh _ _ _ _ _ _).
  - reflexivity.
  - reflexivity.
  - reflexivity.
  - apply (raises_single R _ _ _ _ [("msg", VStr "Hello")]);
      [reflexivity | reflexivity | vm_compute; reflexivity].
Defined.

(** C2, the claim as worded fails: the exception a tool raises in step
    [step1] reaches the caller with its own message, which does not name
    the step. *)
Lemma step_exception_not_annotated :
  let R := test_registry false failing_tool in
  exists σ',
    execute R 1 (pipeline [step_on "step1" "'Hello'" None None]) [] fresh
    = (Raise (Exn "Exception" "boom"), σ')
    /\ wording.annotated_with "step1" (Exn "Exception" "boom") = false.
Proof. intros R. eexists. split; vm_compute; reflexivity. Qed.

End step_failure_witnesses.

Section foreach_claim.
Import py workflow.
Context {W : Type} (R : ToolRegistry W).

Lemma runs_in_order_calls_le execute step context items (σ σ' : engine W) results :
  (forall w, find_workflow_by_id R w (templates.tool_id step) = None) ->
  runs_in_order R execute step context items σ results σ' ->
  (length (calls σ') <= length (calls σ) + length items)%nat.
Proof.
  intros Hnested. induction 1 as [σ|item items σ kwargs result σ1 results σ2 _ Hrun _ IH].
  - cbn. lia.
  - pose proof (run_step_logic_calls_le R _ _ _ _ _ _ _ (Hnested _) Hrun).
    cbn. lia.
Qed.

Lemma runs_in_order_calls_eq execute step context items (σ σ' : engine W) results :
  (forall w, find_workflow_by_id R w (templates.tool_id step) = None) ->
  (forall w t others meta,
      concrete_tool_ids R w (templates.tool_id step) = Ret (t :: others) ->
      load R w t = Ret meta -> memoized meta = false) ->
  runs_in_order R execute step context items σ results σ' ->
  length (calls σ') = (length (calls σ) + length items)%nat.
Proof.
  intros Hnested Hpure.
  induction 1 as [σ|item items σ kwargs result σ1 results σ2 _ Hrun _ IH].
  - cbn. lia.
  - pose proof (run_step_logic_calls_eq R _ _ _ _ _ _ _ (Hnested _) (Hpure _) Hrun).
    cbn. lia.
Qed.

(** C3 (amended).  For a step that is not skipped and has a [foreach]
    expression: a resolved value that is not a list aborts the workflow
    with a [TypeError]; for a list of n items the step logic runs once per
    item, in list order, and when every run returns, the n results are
    collected in that order and, if the step declares an output, stored
    as the one entry of the step id, under the first declared output name (a
    step without declared outputs stores nothing).  A registered tool is
    called at most n times: exactly n times when it is not memoized,
    fewer when a memoized tool meets a key again. *)
Theorem foreach_step_spec execute step context (σ : engine W) target :
  condition_holds step context = Ret true ->
  present (templates.foreach step) = Some target ->
  (forall v,
      resolve_value target context VNone = Ret v -> (forall l, v <> VList l) ->
      exec_step R execute step context σ
      = (Raise (TypeError ("Step '" +:+ templates.id step
                           +:+ "': `foreach` value '" +:+ target
                           +:+ "' did not resolve to a list.")), σ)
      /\ forall rest, exec_steps R execute (step :: rest) context σ
                      = exec_step R execute step context σ)
  /\ (forall items,
        resolve_value target context VNone = Ret (VList items) ->
        (forall outs σ',
            foreach_loop R execute step context items [] σ = (Ret outs, σ')
            <-> runs_in_order R execute step context items σ outs σ')
        /\ forall results σ',
             runs_in_order R execute step context items σ results σ' ->
             let context' := store_output step (VList results) context in
             exec_step R execute step context σ = (Ret context', σ')
             /\ length results = length items
             /\ (forall out ty more,
                    templates.outputs step = (out, ty) :: more ->
                    dict_get (templates.id step) context'
                    = Some (VDict [(out, VList results)])
                    /\ (forall k, k <> templates.id step ->
                                  dict_get k context' = dict_get k context)
                    /\ (NoDup (dict_keys context) -> NoDup (dict_keys context')))
             /\ (templates.outputs step = [] -> context' = context)
             /\ ((forall w, find_workflow_by_id R w (templates.tool_id step) = None) ->
                 (length (calls σ') <= length (calls σ) + length items)%nat
                 /\ ((forall w t others meta,
                         concrete_tool_ids R w (templates.tool_id step)
                         = Ret (t :: others) ->
                         load R w t = Ret meta -> memoized meta = false) ->
                     length (calls σ') = (length (calls σ) + length items)%nat))).
Proof.
  intros Hgo Hfor. split.
  - intros v Hv Hlist.
    assert (exec_step R execute step context σ
            = (Raise (TypeError ("Step '" +:+ templates.id step
                                 +:+ "': `foreach` value '" +:+ target
                                 +:+ "' did not resolve to a list.")), σ)) as Hstep.
    { unfold exec_step. unfold bindM at 1. unfold lift. rewrite Hgo. cbn [negb].
      rewrite Hfor. unfold bindM. rewrite Hv.
      destruct v; try done. by destruct (Hlist l). }
    split; [done|]. intros rest. cbn [exec_steps]. unfold bindM. by rewrite Hstep.
  - intros items Hitems. split.
    + intros outs σ'. rewrite foreach_loop_spec. split.
      * by intros (results & -> & Hruns).
      * intros Hruns. by exists outs.
    + intros results σ' Hruns context'. split_and!.
      * unfold exec_step. unfold bindM at 1. unfold lift. rewrite Hgo. cbn [negb].
        rewrite Hfor. unfold bindM at 1. unfold lift. rewrite Hitems.
        unfold bindM.
        assert (foreach_loop R execute step context items [] σ = (Ret results, σ'))
          as ->; [|done].
        apply foreach_loop_spec. by exists results.
      * by eapply runs_in_order_length.
      * intros out ty more Hout. unfold context', store_output. rewrite Hout.
        split_and!.
        -- apply dict_get_set_eq.
        -- intros k Hk. by apply dict_get_set_ne.
        -- apply dict_set_NoDup.
      * intros Hout. unfold context', store_output. by rewrite Hout.
      * intros Hnested. split.
        -- by eapply runs_in_order_calls_le.
        -- intros Hpure. by eapply runs_in_order_calls_eq.
Qed.

End foreach_claim.

Section foreach_witnesses.
Import py workflow fixtures.

Lemma foreach_step_spec_witness :
  let R := test_registry false counting_tool in
  let step := step_on "loop" "$item" (Some "$xs") None in
  let context := [("xs", VList [VStr "a"; VStr "b"; VStr "c"])] in
  exec_step R (execute R 0) step context fresh
  = (Ret [("xs", VList [VStr "a"; VStr "b"; VStr "c"]);
          ("loop", VDict [("res", VList [VInt 0; VInt 1; VInt 2])])],
     mkEngine ∅ 3%nat [("print_msg", [("msg", VStr "a")]);
                       ("print_msg", [("msg", VStr "b")]);
                       ("print_msg", [("msg", VStr "c")])])
  /\ exec_step R (execute R 0) step [("xs", VStr "abc")] fresh
     = (Raise (TypeError
                 "Step 'loop': `foreach` value '$xs' did not resolve to a list."),
        fresh).
Proof.
  intros R step context. split.
  - refine (proj1 (proj2 (proj2 (foreach_step_spec R (execute R 0) step context
              fresh "$xs" eq_refl eq_refl) [VStr "a"; VStr "b"; VStr "c"] eq_refl)
              [VInt 0; VInt 1; VInt 2] _ _)).
    repeat (econstructor; [reflexivity | vm_compute; reflexivity |]).
    constructor.
  - refine (proj1 (proj1 (foreach_step_spec R (execute R 0) step
              [("xs", VStr "abc")] fresh "$xs" eq_refl eq_refl)
              (VStr "abc") eq_refl _)).
    discriminate.
Defined.

(** C3, the claim as worded fails: over the list [[1, 1, 1]] a memoized
    tool is called once, not three times; and a step that declares no
    output stores no entry. *)
Lemma foreach_counts_differ :
  let R := test_registry true print_msg_tool in
  let xs := [("xs", VList [VInt 1; VInt 1; VInt 1])] in
  (exists σ',
      execute R 1 (pipeline [step_on "loop" "$item" (Some "$xs") None]) xs fresh
      = (Ret (xs ++ [("loop", VDict [("res", VList [VStr "executed";
                                                    VStr "executed";
                                                    VStr "executed"])])]), σ')
      /\ calls σ' = [("print_msg", [("msg", VInt 1)])])
  /\ (exists σ',
        execute R 1
          (pipeline [templates.mkCompositionStep "loop" "print_msg_template"
                       [("msg", templates.mkStepBinding "$item")]
                       (Some "$xs") [] None None []])
          xs fresh
        = (Ret xs, σ')).
Proof. intros R xs. split; eexists; [split|]; vm_compute; reflexivity. Qed.

End foreach_witnesses.

(** ** The final context *)
Section context_facts.
Import py workflow.
Context {W : Type} (R : ToolRegistry W).
Implicit Types (σ : engine W) (context : dict).

(** A step has one result at most. *)
Lemma runs_in_order_unique execute step context items σ results σ' results2 σ2 :
  runs_in_order R execute step context items σ results σ' ->
  runs_in_order R execute step context items σ results2 σ2 ->
  results = results2 /\ σ' = σ2.
Proof.
  intros Hruns. revert results2 σ2.
  induction Hruns as [σ|item items σ kwargs result σ1 results σ' Hbind Hrun _ IH];
    intros results2 σ2 Hruns2.
  - by inversion Hruns2.
  - inversion Hruns2
      as [|? ? ? kwargs2 result2 σ1' results2' ? Hbind2 Hrun2 Hrest2]; subst.
    rewrite Hbind in Hbind2. injection Hbind2 as <-.
    rewrite Hrun in Hrun2. injection Hrun2 as <- <-.
    by destruct (IH _ _ Hrest2) as [-> ->].
Qed.

Lemma step_result_unique execute step context σ v σ' v2 σ2 :
  step_result R execute step context σ v σ' ->
  step_result R execute step context σ v2 σ2 ->
  v = v2 /\ σ' = σ2.
Proof.
  intros [kwargs result σ1 Hfor Hbind Hrun|target items results σ1 Hfor Htarget Hruns]
         [kwargs2 result2 σ3 Hfor2 Hbind2 Hrun2
         |target2 items2 results2 σ3 Hfor2 Htarget2 Hruns2];
    try congruence.
  - assert (kwargs2 = kwargs) as -> by congruence. split; congruence.
  - assert (items2 = items) as -> by congruence.
    by destruct (runs_in_order_unique _ _ _ _ _ _ _ _ _ Hruns Hruns2) as [-> ->].
Qed.

(** A step that returns leaves the context as it was or stores its
    result under its id. *)
Lemma exec_step_context execute step context σ context' σ' :
  exec_step R execute step context σ = (Ret context', σ') ->
  (condition_holds step context = Ret false /\ context' = context /\ σ' = σ)
  \/ (condition_holds step context = Ret true
      /\ exists v, step_result R execute step context σ v σ'
                   /\ context' = store_output step v context).
Proof.
  unfold exec_step. unfold bindM at 1. unfold lift.
  destruct (condition_holds step context) as [[|]|e|]; [| |done..]; cbn [negb].
  - intros Hrun. right. split; [done|]. revert Hrun.
    destruct (present (templates.foreach step)) as [target|] eqn:Hfor.
    + unfold bindM at 1. unfold lift.
      destruct (resolve_value target context VNone) as [[| | | |items|]|e|]
        eqn:Htarget; try done.
      unfold bindM.
      destruct (foreach_loop _ _ _ _ _ _ _) as [[outs|e|] σ1] eqn:Hloop; [|done..].
      intros [= <- <-].
      apply foreach_loop_spec in Hloop as (results & -> & Hruns).
      exists (VList results). split; [|done]. by eapply result_foreach.
    + unfold bindM at 1. unfold lift.
      destruct (bind_params _ _ _ _) as [kwargs|e|] eqn:Hbind; [|done..].
      unfold bindM. rewrite reraise_id.
      destruct (run_step_logic _ _ _ _ _ _) as [[result|e|] σ1] eqn:Hrun; [|done..].
      intros [= <- <-]. exists result. split; [|done]. by eapply result_single.
  - intros [= <- <-]. by left.
Qed.

Lemma store_output_cases step v context :
  (templates.outputs step = [] /\ store_output step v context = context)
  \/ (exists out ty more,
        templates.outputs step = (out, ty) :: more
        /\ store_output step v context
           = dict_set (templates.id step) (VDict [(out, v)]) context).
Proof.
  unfold store_output. destruct (templates.outputs step) as [|[out ty] more].
  - by left.
  - right. by exists out, ty, more.
Qed.

(** The context after a run of steps: the keys no output-storing step
    bears are as they were, and every other entry was stored by a step
    of the run, from the step's result in the context the steps before
    it had produced. *)
Lemma exec_steps_context execute steps context σ final σ' :
  exec_steps R execute steps context σ = (Ret final, σ') ->
  (forall k,
      (forall step, step ∈ steps -> templates.id step = k ->
                    templates.outputs step = []) ->
      dict_get k final = dict_get k context)
  /\ (forall k v,
        dict_get k final = Some v ->
        dict_get k context = Some v
        \/ exists before step after context1 σ1 σ2 out ty more r,
             steps = before ++ step :: after /\ templates.id step = k
             /\ exec_steps R execute before context σ = (Ret context1, σ1)
             /\ condition_holds step context1 = Ret true
             /\ templates.outputs step = (out, ty) :: more
             /\ step_result R execute step context1 σ1 r σ2
             /\ v = VDict [(out, r)])
  /\ (NoDup (dict_keys context) -> NoDup (dict_keys final)).
Proof.
  revert context σ. induction steps as [|step steps IH]; intros context σ.
  - cbn. intros [= <- <-]. split_and!; [done| |done]. intros k v Hk. by left.
  - cbn [exec_steps]. unfold bindM.
    destruct (exec_step R execute step context σ) as [[context1|e|] σ1] eqn:Hstep;
      [|done..].
    intros (Hframe & Hshape & Hnodup)%IH.
    pose proof (exec_step_context _ _ _ _ _ _ Hstep) as Hctx.
    assert (context1 = context
            \/ exists out ty more r,
                 condition_holds step context = Ret true
                 /\ templates.outputs step = (out, ty) :: more
                 /\ step_result R execute step context σ r σ1
                 /\ context1 = dict_set (templates.id step) (VDict [(out, r)]) context)
      as Hcases.
    { destruct Hctx as [(_ & -> & _)|(Hgo & v & Hres & ->)]; [by left|].
      destruct (store_output_cases step v context)
        as [(_ & ->)|(out & ty & more & Hout & ->)]; [by left|].
      right. by exists out, ty, more, v. }
    clear Hctx. split_and!.
    + intros k Hk. rewrite Hframe.
      2:{ intros step' Hin. apply Hk. by right. }
      destruct Hcases as [->|(out & ty & more & r & _ & Hout & _ & ->)]; [done|].
      apply dict_get_set_ne. intros Hid.
      specialize (Hk step (list_elem_of_here _ _) Hid). congruence.
    + intros k v Hk.
      destruct (Hshape k v Hk)
        as [Hk1|(before & step' & after & c1 & s1 & s2 & out & ty & more & r
                 & -> & Hid & Hbefore & Hgo & Hout & Hres & ->)].
      * destruct Hcases as [->|(out & ty & more & r & Hgo & Hout & Hres & ->)];
          [by left|].
        destruct (decide (templates.id step = k)) as [Hid|Hid].
        -- right. exists [], step, steps, context, σ, σ1, out, ty, more, r.
           rewrite <- Hid, dict_get_set_eq in Hk1. injection Hk1 as <-.
           by split_and!.
        -- left. by rewrite dict_get_set_ne in Hk1.
      * right. exists (step :: before), step', after, c1, s1, s2, out, ty, more, r.
        split_and!; try done.
        cbn [exec_steps]. unfold bindM. by rewrite Hstep.
    + intros Hnd. apply Hnodup.
      destruct Hcases as [->|(out & ty & more & r & _ & Hout & _ & ->)]; [done|].
      by apply dict_set_NoDup.
Qed.

End context_facts.

Section context_claim.
Import py workflow.
Context {W : Type} (R : ToolRegistry W).

(** C6 (amended).  When [execute] returns, the final context holds every
    input key that no output-storing step uses as its id, with its
    original value; every other entry was stored by a step that ran: a
    dict with the step's first declared output name as its only key and
    the step's result, computed in the context the steps before it had
    produced, as its value; and for each step whose id no later step
    bears: if its condition is false, or it declares no output, it writes
    nothing; if it runs and declares an output, the final context holds
    under its id exactly the dict of the first declared output name and
    the step's result. *)
Theorem final_context_spec fuel comp_spec inputs (σ σ' : engine W) final :
  execute R (S fuel) comp_spec inputs σ = (Ret final, σ') ->
  (forall k,
      (forall step, step ∈ templates.steps comp_spec -> templates.id step = k ->
                    templates.outputs step = []) ->
      dict_get k final = dict_get k inputs)
  /\ (forall k v,
        dict_get k final = Some v ->
        dict_get k inputs = Some v
        \/ exists before step after context1 σ1 σ2 out ty more r,
             templates.steps comp_spec = before ++ step :: after
             /\ templates.id step = k
             /\ exec_steps R (execute R fuel) before inputs σ = (Ret context1, σ1)
             /\ condition_holds step context1 = Ret true
             /\ templates.outputs step = (out, ty) :: more
             /\ step_result R (execute R fuel) step context1 σ1 r σ2
             /\ v = VDict [(out, r)])
  /\ (NoDup (dict_keys inputs) -> NoDup (dict_keys final))
  /\ (forall before step after,
        templates.steps comp_spec = before ++ step :: after ->
        templates.id step ∉ map templates.id after ->
        exists context1 σ1 context2 σ2,
          exec_steps R (execute R fuel) before inputs σ = (Ret context1, σ1)
          /\ exec_step R (execute R fuel) step context1 σ1 = (Ret context2, σ2)
          /\ dict_get (templates.id step) final
             = dict_get (templates.id step) context2
          /\ (condition_holds step context1 = Ret false ->
              context2 = context1 /\ σ2 = σ1)
          /\ (templates.outputs step = [] -> context2 = context1)
          /\ (condition_holds step context1 = Ret true ->
              forall out ty more,
                templates.outputs step = (out, ty) :: more ->
                exists r,
                  step_result R (execute R fuel) step context1 σ1 r σ2
                  /\ context2 = dict_set (templates.id step) (VDict [(out, r)]) context1
                  /\ dict_get (templates.id step) final = Some (VDict [(out, r)]))).
Proof.
  cbn [execute]. intros Hrun.
  destruct (exec_steps_context R _ _ _ _ _ _ Hrun) as (Hframe & Hshape & Hnodup).
  split_and!; [done..|].
  intros before step after Hsteps Hfresh.
  rewrite Hsteps, exec_steps_app in Hrun.
  destruct (exec_steps R (execute R fuel) before inputs σ)
    as [[context1|e|] σ1]; [|done..].
  cbn [exec_steps] in Hrun. unfold bindM in Hrun.
  destruct (exec_step R (execute R fuel) step context1 σ1)
    as [[context2|e|] σ2] eqn:Hstep; [|done..].
  exists context1, σ1, context2, σ2.
  destruct (exec_steps_context R _ _ _ _ _ _ Hrun) as (Hafter & _ & _).
  assert (dict_get (templates.id step) final
          = dict_get (templates.id step) context2) as Hlast.
  { apply Hafter. intros step' Hin Hid. destruct Hfresh.
    rewrite <- Hid. by apply list_elem_of_fmap_2. }
  pose proof (exec_step_context R _ _ _ _ _ _ Hstep) as Hcases.
  split_and!; [done..| | |].
  - intros Hskip. destruct Hcases as [(_ & -> & ->)|(Hgo & _)]; [done|congruence].
  - intros Hout. destruct Hcases as [(_ & -> & _)|(_ & v & _ & ->)]; [done|].
    unfold store_output. by rewrite Hout.
  - intros Hgo out ty more Hout.
    destruct Hcases as [(Hskip & _)|(_ & v & Hres & ->)]; [congruence|].
    exists v. unfold store_output in *. rewrite Hout in *.
    split_and!; [done..|]. by rewrite Hlast, dict_get_set_eq.
Qed.

End context_claim.

Section context_witnesses.
Import py workflow fixtures.

Lemma final_context_spec_witness :
  let R := test_registry true print_msg_tool in
  let comp_spec :=
    pipeline [step_on "step1" "'Hello'" None None;
              step_on "step2" "'Conditional'" None (Some "$do_it")] in
  let final := [("do_it", VBool false);
                ("step1", VDict [("res", VStr "executed")])] in
  exists σ',
    execute R 1 comp_spec [("do_it", VBool false)] fresh = (Ret final, σ')
    /\ dict_get "do_it" final = dict_get "do_it" [("do_it", VBool false)].
Proof.
  intros R comp_spec final. eexists. split; [vm_compute; reflexivity|].
  refine (proj1 (final_context_spec R 0%nat comp_spec [("do_it", VBool false)]
                   fresh _ final _) "do_it" _).
  - vm_compute. reflexivity.
  - intros step Hin Hid. exfalso.
    apply list_elem_of_In in Hin. cbn in Hin.
    destruct Hin as [<-|[<-|[]]]; discriminate Hid.
Defined.

(** C6, the claim as worded fails: an input whose key is the id of a
    step loses its original value to the step's entry. *)
Lemma input_overwritten_by_step :
  let R := test_registry true print_msg_tool in
  exists final σ',
    execute R 1 (pipeline [step_on "step1" "'Hello'" None None])
      [("step1", VInt 7)] fresh
    = (Ret final, σ')
    /\ dict_get "step1" [("step1", VInt 7)] = Some (VInt 7)
    /\ dict_get "step1" final = Some (VDict [("res", VStr "executed")]).
Proof. intros R. do 2 eexists. split_and!; vm_compute; reflexivity. Qed.

End context_witnesses.

(** ** Tool identifiers *)
Section digest_facts.
Import sha256.

(** The embedding of SHA-256 against the standard test vectors. *)
Example hexdigest_abc :
  hexdigest "abc"
  = "ba7816bf8f01cfea414140de5dae2223b00361a396177a9cb410ff61f20015ad".
Proof. vm_compute. reflexivity. Qed.

Example hexdigest_empty :
  hexdigest ""
  = "e3b0c44298fc1c149afbf4c8996fb92427ae41e4649b934ca495991b7852b855".
Proof. vm_compute. reflexivity. Qed.

Lemma is_hex_digit (n : nat) : is_hex (pystr.hex_digit n) = true.
Proof. do 16 (destruct n as [|n]; [reflexivity|]). reflexivity. Qed.

Lemma hex_of_regs_length (r : regs) : String.length (hex_of_regs r) = 64%nat.
Proof. destruct r. reflexivity. Qed.

Lemma hex_of_regs_chars (r : regs) : pystr.all_chars is_hex (hex_of_regs r) = true.
Proof.
  destruct r. cbv [hex_of_regs hex8 String.append pystr.all_chars].
  unfold nibble. by rewrite !is_hex_digit.
Qed.

Lemma is_hex_elem (c : ascii) : is_hex c = true -> c ∈ hex_chars.
Proof.
  unfold is_hex. intros (d & Hd & ->%Ascii.eqb_eq)%existsb_exists.
  by apply list_elem_of_In.
Qed.

(** A text of hexadecimal digits is one of the words of its length. *)
Lemma hex_words_elem (s : string) :
  pystr.all_chars is_hex s = true -> s ∈ hex_words (String.length s).
Proof.
  induction s as [|c s IH]; cbn [pystr.all_chars String.length hex_words].
  - intros _. apply list_elem_of_singleton. reflexivity.
  - intros [Hc Hs]%andb_true_iff.
    apply list_elem_of_bind. exists c. split; [|by apply is_hex_elem].
    apply list_elem_of_fmap. exists s. split; [done | by apply IH].
Qed.

Lemma hexdigest_elem (n : nat) (s : string) :
  n = 64%nat -> hexdigest s ∈ hex_words n.
Proof.
  intros ->. unfold hexdigest.
  rewrite <- (hex_of_regs_length (digest (bytes_of s))).
  apply hex_words_elem, hex_of_regs_chars.
Qed.

Lemma spaces_length (k : nat) : String.length (json.spaces k) = k.
Proof. induction k; cbn; congruence. Qed.

(** A function into the [n]-digit words takes one value at two of the
    texts made of 0, 1, 2, ... spaces. *)
Lemma digest_pigeonhole (n : nat) (f : string -> string) :
  (forall s, f s ∈ hex_words n) ->
  exists code code', code <> code' /\ f code = f code'.
Proof.
  intros Hf.
  pose (ids := (fun k => f (json.spaces k)) <$> seq 0 (S (length (hex_words n)))).
  destruct (list_pigeonhole ids (hex_words n)) as (i1 & i2 & x & Hlt & H1 & H2).
  - intros x (k & -> & _)%list_elem_of_fmap. apply Hf.
  - unfold ids. rewrite length_fmap, length_seq. apply Nat.lt_succ_diag_r.
  - unfold ids in H1, H2. rewrite list_lookup_fmap in H1, H2.
    destruct (seq 0 (S (length (hex_words n))) !! i1) as [k1|] eqn:Hk1; [|done].
    destruct (seq 0 (S (length (hex_words n))) !! i2) as [k2|] eqn:Hk2; [|done].
    apply lookup_seq in Hk1 as [-> _]. apply lookup_seq in Hk2 as [-> _].
    cbn in H1, H2. injection H1 as H1. injection H2 as H2.
    exists (json.spaces i1), (json.spaces i2). split; [|congruence].
    intros Heq. apply (f_equal String.length) in Heq.
    rewrite !spaces_length in Heq. lia.
Qed.

End digest_facts.


(** ** The canonical JSON text can be read back *)
Section read_facts.
Import py json.

Lemma app_assoc_s (a b c : string) : (a +:+ b) +:+ c = a +:+ (b +:+ c).
Proof. induction a as [|x a IH]; [done|]. by rewrite !app_cons, IH. Qed.

Lemma escape_cons (c : ascii) (s : string) :
  escape (String c s)
  = match escape_common c with
    | Some e => e +:+ escape s
    | None => String c (escape s)
    end.
Proof. reflexivity. Qed.

Lemma read_string_char (c : ascii) (rest : string) :
  read_string (match escape_common c with
               | Some e => e +:+ rest
               | None => String c rest
               end)
  = match read_string rest with
    | Some (text, after) => Some (String c text, after)
    | None => None
    end.
Proof. destruct c as [[] [] [] [] [] [] [] []]; reflexivity. Qed.

(** Reading undoes escaping: from the text of [s] and its closing quote,
    [read_string] gives [s] back and stops right after the quote. *)
Lemma read_string_escape (s rest : string) :
  read_string (escape s +:+ String pystr.dquote rest) = Some (s, rest).
Proof.
  induction s as [|c s IH].
  - reflexivity.
  - rewrite escape_cons.
    pose proof (read_string_char c (escape s +:+ String pystr.dquote rest)) as Hc.
    rewrite IH in Hc. rewrite <- Hc.
    destruct (escape_common c) as [e|]; [by rewrite app_assoc_s | done].
Qed.

(** A quoted string is self-delimiting: its text and what follows it
    can be told from the whole. *)
Lemma quote_inj (s s' rest rest' : string) :
  quote escape s +:+ rest = quote escape s' +:+ rest' -> s = s' /\ rest = rest'.
Proof.
  unfold quote. rewrite !app_cons, !app_assoc_s, !app_cons, !app_empty_l.
  intros [= Heq]. apply (f_equal read_string) in Heq.
  rewrite !read_string_escape in Heq. by injection Heq.
Qed.

End read_facts.

Section join_facts.
Import py json.
Context {A : Type} (f : A -> string).

(** [f] is self-delimiting: the value and what follows its text can be
    told from the whole. *)
Hypothesis f_inj :
  forall x y rest rest', f x +:+ rest = f y +:+ rest' -> x = y /\ rest = rest'.

Lemma join_cons2 (sep : string) (x y : A) (l : list A) :
  pystr.join sep (map f (x :: y :: l))
  = f x +:+ sep +:+ pystr.join sep (map f (y :: l)).
Proof. reflexivity. Qed.

(** Items joined by a comma and closed by a line break can be read back
    one by one. *)
Lemma join_inj (sep tail tail' : string) (l l' : list A) :
  l <> [] -> l' <> [] ->
  pystr.join (String "," sep) (map f l) +:+ String "010" tail
  = pystr.join (String "," sep) (map f l') +:+ String "010" tail' ->
  l = l' /\ tail = tail'.
Proof.
  revert l'. induction l as [|x l IH]; [done|]. intros l' _ Hl'.
  destruct l' as [|y l']; [done|]. clear Hl'.
  destruct l as [|x2 l], l' as [|y2 l'].
  - cbn [map pystr.join]. intros [-> [= ->]]%f_inj. done.
  - rewrite join_cons2. cbn [map pystr.join]. rewrite !app_assoc_s.
    intros [_ Heq]%f_inj. discriminate Heq.
  - rewrite join_cons2. cbn [map pystr.join]. rewrite !app_assoc_s.
    intros [_ Heq]%f_inj. discriminate Heq.
  - rewrite !join_cons2, !app_assoc_s.
    intros [-> Heq]%f_inj. apply (inj (String.app (String "," sep))) in Heq.
    destruct (IH (y2 :: l')) as [Hl ->]; [done..|]. by rewrite Hl.
Qed.

End join_facts.

Section render_facts.
Import py json registry.

Lemma spaces_app_inj (k : nat) (s s' : string) :
  spaces k +:+ s = spaces k +:+ s' -> s = s'.
Proof. apply (inj (String.app (spaces k))). Qed.

Lemma dumps_bool_inj (lvl : nat) (b b' : bool) (rest rest' : string) :
  dumps_indent lvl (VBool b) +:+ rest = dumps_indent lvl (VBool b') +:+ rest' ->
  b = b' /\ rest = rest'.
Proof. destruct b, b'; cbn; rewrite ?app_cons, ?app_empty_l; by intros [= ->]. Qed.

Lemma dumps_str_inj (lvl : nat) (s s' rest rest' : string) :
  dumps_indent lvl (VStr s) +:+ rest = dumps_indent lvl (VStr s') +:+ rest' ->
  s = s' /\ rest = rest'.
Proof. apply quote_inj. Qed.

Lemma dumps_str_list (lvl : nat) (x : string) (l : list string) :
  dumps_indent lvl (str_list (x :: l))
  = "[" +:+ newline +:+ spaces (2 * S lvl)
    +:+ pystr.join ("," +:+ newline +:+ spaces (2 * S lvl))
          (map (quote escape) (x :: l))
    +:+ newline +:+ spaces (2 * lvl) +:+ "]".
Proof.
  unfold str_list. cbn [map dumps_indent]. rewrite !map_map. reflexivity.
Qed.

(** A printed list of strings is self-delimiting. *)
Lemma dumps_str_list_inj (lvl : nat) (l l' : list string) (rest rest' : string) :
  dumps_indent lvl (str_list l) +:+ rest = dumps_indent lvl (str_list l') +:+ rest' ->
  l = l' /\ rest = rest'.
Proof.
  destruct l as [|x l], l' as [|y l'].
  - cbn. rewrite !app_cons, !app_empty_l. by intros [= ->].
  - rewrite dumps_str_list. cbn. rewrite !app_cons. discriminate.
  - rewrite dumps_str_list. cbn. rewrite !app_cons. discriminate.
  - rewrite !dumps_str_list, !app_assoc_s.
    intros Heq. apply (inj (String.app "[")) in Heq.
    apply (inj (String.app newline)) in Heq.
    apply spaces_app_inj in Heq.
    apply (join_inj (quote escape) quote_inj) in Heq as [Hl Heq]; [|done..].
    apply spaces_app_inj in Heq. apply (inj (String.app "]")) in Heq.
    done.
Qed.

End render_facts.

Section render_dict_facts.
Import py json registry.

(** One printed item of a dict of strings. *)
Lemma item_inj (kv kv' : string * string) (rest rest' : string) :
  (quote escape (fst kv) +:+ ": " +:+ quote escape (snd kv)) +:+ rest
  = (quote escape (fst kv') +:+ ": " +:+ quote escape (snd kv')) +:+ rest' ->
  kv = kv' /\ rest = rest'.
Proof.
  destruct kv as [k v], kv' as [k' v']. cbn [fst snd]. rewrite !app_assoc_s.
  intros [-> Heq]%quote_inj. apply (inj (String.app ": ")) in Heq.
  apply quote_inj in Heq as [-> ->]. done.
Qed.

(** The items of a dict of strings as they are printed: in key order. *)
Lemma dumps_str_dict_items (lvl : nat) (m : gmap string string) :
  exists items,
    items ≡ₚ map_to_list m
    /\ dumps_indent lvl (str_dict m)
       = match items with
         | [] => "{}"
         | _ =>
             "{" +:+ newline +:+ spaces (2 * S lvl)
             +:+ pystr.join ("," +:+ newline +:+ spaces (2 * S lvl))
                   (map (fun kv => quote escape (fst kv) +:+ ": "
                                   +:+ quote escape (snd kv)) items)
             +:+ newline +:+ spaces (2 * lvl) +:+ "}"
         end.
Proof.
  unfold str_dict.
  destruct (Permutation_map_inv
              (fun kv : string * string => (fst kv, quote escape (snd kv)))
              (map_to_list m)
              (sorted_items_perm
                 (map (fun kv : string * string => (fst kv, quote escape (snd kv)))
                      (map_to_list m))))
    as (items & Hitems & Hperm).
  exists items. split; [by symmetry|].
  destruct (map_to_list m) as [|kv l] eqn:Hm.
  { apply Permutation_nil in Hperm as ->. reflexivity. }
  destruct items as [|kv' items'].
  { symmetry in Hperm. by apply Permutation_nil in Hperm. }
  cbn [map dumps_indent]. rewrite !map_map. cbn [fst snd dumps_indent].
  change ((kv.1, quote escape kv.2)
          :: map (fun x : string * string => (x.1, quote escape x.2)) l)
    with (map (fun x : string * string => (x.1, quote escape x.2)) (kv :: l)).
  rewrite Hitems, map_map. reflexivity.
Qed.

(** A printed dict of strings is self-delimiting. *)
Lemma dumps_str_dict_inj (lvl : nat) (m m' : gmap string string)
    (rest rest' : string) :
  dumps_indent lvl (str_dict m) +:+ rest = dumps_indent lvl (str_dict m') +:+ rest' ->
  m = m' /\ rest = rest'.
Proof.
  destruct (dumps_str_dict_items lvl m) as (items & Hperm & ->).
  destruct (dumps_str_dict_items lvl m') as (items' & Hperm' & ->).
  assert (items = items' -> m = m') as Hmap.
  { intros ->. rewrite <- (list_to_map_to_list m), <- (list_to_map_to_list m').
    apply list_to_map_proper; [apply NoDup_fst_map_to_list|].
    by rewrite <- Hperm, <- Hperm'. }
  destruct items as [|kv items], items' as [|kv' items'].
  - rewrite !app_cons, !app_empty_l. intros [= ->]. by split; [apply Hmap|].
  - rewrite !app_assoc_s, !app_cons. discriminate.
  - rewrite !app_assoc_s, !app_cons. discriminate.
  - rewrite !app_assoc_s.
    intros Heq. apply (inj (String.app "{")) in Heq.
    apply (inj (String.app newline)) in Heq.
    apply spaces_app_inj in Heq.
    apply (join_inj _ item_inj) in Heq as [Hl Heq]; [|done..].
    apply spaces_app_inj in Heq. apply (inj (String.app "}")) in Heq.
    by split; [apply Hmap|].
Qed.

Lemma dumps_dict_list (lvl : nat) (m : gmap string string)
    (l : list (gmap string string)) :
  dumps_indent lvl (VList (map str_dict (m :: l)))
  = "[" +:+ newline +:+ spaces (2 * S lvl)
    +:+ pystr.join ("," +:+ newline +:+ spaces (2 * S lvl))
          (map (fun d => dumps_indent (S lvl) (str_dict d)) (m :: l))
    +:+ newline +:+ spaces (2 * lvl) +:+ "]".
Proof. cbn [map dumps_indent]. rewrite !map_map. reflexivity. Qed.

(** A printed list of dicts of strings is self-delimiting. *)
Lemma dumps_dict_list_inj (lvl : nat) (l l' : list (gmap string string))
    (rest rest' : string) :
  dumps_indent lvl (VList (map str_dict l)) +:+ rest
  = dumps_indent lvl (VList (map str_dict l')) +:+ rest' ->
  l = l' /\ rest = rest'.
Proof.
  destruct l as [|x l], l' as [|y l'].
  - cbn. rewrite !app_cons, !app_empty_l. by intros [= ->].
  - rewrite dumps_dict_list. cbn. rewrite !app_cons. discriminate.
  - rewrite dumps_dict_list. cbn. rewrite !app_cons. discriminate.
  - rewrite !dumps_dict_list, !app_assoc_s.
    intros Heq. apply (inj (String.app "[")) in Heq.
    apply (inj (String.app newline)) in Heq.
    apply spaces_app_inj in Heq.
    apply (join_inj _ (dumps_str_dict_inj (S lvl))) in Heq as [Hl Heq]; [|done..].
    apply spaces_app_inj in Heq. apply (inj (String.app "]")) in Heq.
    done.
Qed.

End render_dict_facts.

Section to_json_facts.
Import py json registry.

(** The nine lines of a printed contract, in key order. *)
Lemma to_json_lines (s : ToolSpec) :
  to_json s
  = "{" +:+ newline +:+ spaces 2
    +:+ pystr.join ("," +:+ newline +:+ spaces 2)
          [ quote escape "deterministic" +:+ ": "
              +:+ dumps_indent 1 (VBool (deterministic s));
            quote escape "docstring" +:+ ": "
              +:+ dumps_indent 1 (VStr (docstring s));
            quote escape "failure_modes" +:+ ": "
              +:+ dumps_indent 1 (VList (map str_dict (failure_modes s)));
            quote escape "imports" +:+ ": "
              +:+ dumps_indent 1 (str_list (imports s));
            quote escape "inputs" +:+ ": "
              +:+ dumps_indent 1 (str_dict (inputs s));
            quote escape "name" +:+ ": "
              +:+ dumps_indent 1 (VStr (name s));
            quote escape "outputs" +:+ ": "
              +:+ dumps_indent 1 (str_dict (outputs s));
            quote escape "semantic_tags" +:+ ": "
              +:+ dumps_indent 1 (str_list (semantic_tags s));
            quote escape "signature" +:+ ": "
              +:+ dumps_indent 1 (VStr (signature s)) ]
    +:+ newline +:+ spaces 0 +:+ "}".
Proof. reflexivity. Qed.

(** The contract and the text that follows it can be read back from the
    printed contract followed by that text. *)
Lemma to_json_inj (s s' : ToolSpec) (code code' : string) :
  to_json s +:+ code = to_json s' +:+ code' -> s = s' /\ code = code'.
Proof.
  rewrite !to_json_lines. cbn [pystr.join]. rewrite !app_assoc_s.
  intros Heq.
  apply (inj (String.app "{")) in Heq.
  apply (inj (String.app newline)) in Heq.
  apply spaces_app_inj in Heq.
  repeat match type of Heq with
  | quote escape ?k +:+ _ = quote escape ?k +:+ _ =>
      apply (inj (String.app (quote escape k))) in Heq;
      apply (inj (String.app ": ")) in Heq
  | String "," _ +:+ _ = _ =>
      apply (inj (String.app ",")) in Heq;
      apply (inj (String.app newline)) in Heq;
      apply spaces_app_inj in Heq
  | "," +:+ _ = _ =>
      apply (inj (String.app ",")) in Heq;
      apply (inj (String.app newline)) in Heq;
      apply spaces_app_inj in Heq
  | dumps_indent _ (VBool _) +:+ _ = _ =>
      let H := fresh "Hfield" in apply dumps_bool_inj in Heq as [H Heq]
  | dumps_indent _ (VStr _) +:+ _ = _ =>
      let H := fresh "Hfield" in apply dumps_str_inj in Heq as [H Heq]
  | dumps_indent _ (str_list _) +:+ _ = _ =>
      let H := fresh "Hfield" in apply dumps_str_list_inj in Heq as [H Heq]
  | dumps_indent _ (str_dict _) +:+ _ = _ =>
      let H := fresh "Hfield" in apply dumps_str_dict_inj in Heq as [H Heq]
  | dumps_indent _ (VList (map str_dict _)) +:+ _ = _ =>
      let H := fresh "Hfield" in apply dumps_dict_list_inj in Heq as [H Heq]
  end.
  apply (inj (String.app newline)) in Heq.
  apply spaces_app_inj in Heq.
  apply (inj (String.app "}")) in Heq.
  split; [|done]. destruct s, s'. cbn in *. congruence.
Qed.

End to_json_facts.

Section resolve_id_claim.
Import registry.

Lemma resolve_id_unfold (spec : ToolSpec) (code : string) :
  resolve_id spec code = sha256.hexdigest (to_json spec +:+ code).
Proof. reflexivity. Qed.

(** C7 (amended).  [resolve_id] is a function of the contract and the
    source text: equal pairs give equal ids.  The id is the SHA-256 digest,
    64 lower-case hexadecimal digits, of the contract's canonical JSON text
    followed by the source text; any change to the contract or to the
    source text changes the text that is hashed, and two inputs get
    different ids unless SHA-256 collides on the hashed texts. *)
Theorem resolve_id_spec (spec spec' : ToolSpec) (code code' : string) :
  (spec = spec' -> code = code' -> resolve_id spec code = resolve_id spec' code')
  /\ resolve_id spec code = sha256.hexdigest (to_json spec +:+ code)
  /\ String.length (resolve_id spec code) = 64%nat
  /\ pystr.all_chars sha256.is_hex (resolve_id spec code) = true
  /\ (spec <> spec' \/ code <> code' ->
      to_json spec +:+ code <> to_json spec' +:+ code')
  /\ (resolve_id spec code <> resolve_id spec' code' ->
      to_json spec +:+ code <> to_json spec' +:+ code').
Proof.
  split_and!.
  - by intros -> ->.
  - apply resolve_id_unfold.
  - rewrite resolve_id_unfold. apply hex_of_regs_length.
  - rewrite resolve_id_unfold. apply hex_of_regs_chars.
  - intros Hne [-> ->]%to_json_inj. by destruct Hne.
  - intros Hne Heq. apply Hne. by rewrite !resolve_id_unfold, Heq.
Qed.

(** The id of the test suite's contract with the source text [pass], as
    the Python code computes it. *)
Example resolve_id_print_msg :
  resolve_id (fixtures.print_msg_spec true) "pass"
  = "42b3f340830696037661db7a9c1940390258a0e53d2d3b98b04090b11f341b92".
Proof. vm_compute. reflexivity. Qed.

Lemma resolve_id_spec_witness :
  resolve_id (fixtures.print_msg_spec true) "pass"
  = resolve_id (fixtures.print_msg_spec true) "pass"
  /\ to_json (fixtures.print_msg_spec true) +:+ "pass"
     <> to_json (fixtures.print_msg_spec true) +:+ "fail".
Proof.
  destruct (resolve_id_spec (fixtures.print_msg_spec true)
              (fixtures.print_msg_spec true) "pass" "pass") as (Hsame & _).
  destruct (resolve_id_spec (fixtures.print_msg_spec true)
              (fixtures.print_msg_spec true) "pass" "fail")
    as (_ & _ & _ & _ & Hcode & _).
  split; [apply Hsame; reflexivity | apply Hcode; right; discriminate].
Defined.

(** C7, the claim as worded fails: an id has 64 hexadecimal digits, so
    among the source texts made of 0, 1, 2, ... spaces two get the same id
    for the same contract. *)
Lemma resolve_id_not_injective :
  exists code code',
    code <> code'
    /\ resolve_id (fixtures.print_msg_spec true) code
       = resolve_id (fixtures.print_msg_spec true) code'.
Proof.
  apply (digest_pigeonhole 64). intros s. by apply hexdigest_elem.
Qed.

End resolve_id_claim.

(** ** Registering and loading *)
Section decode_facts.
Import py json registry.
Local Open Scope outcome_scope.

Lemma all_ret_map {A B} (f : A -> outcome B) (g : A -> B) (l : list A) :
  (forall x, x ∈ l -> f x = Ret (g x)) ->
  all_ret (map f l) = Ret (map g l).
Proof.
  induction l as [|x l IH]; intros Hf; cbn; [done|].
  rewrite (Hf x) by by left. cbn. rewrite IH; [done|].
  intros y Hy. apply Hf. by right.
Qed.

Lemma as_str_list_ok (l : list string) : as_str_list (canon (str_list l)) = Ret l.
Proof.
  unfold str_list. cbn [canon as_str_list]. rewrite !map_map.
  rewrite (all_ret_map _ id); [by rewrite map_id | done].
Qed.

Lemma as_str_dict_items (items : list (string * string)) (m : gmap string string) :
  items ≡ₚ map_to_list m ->
  as_str_dict (VDict (map (fun kv => (fst kv, VStr (snd kv))) items)) = Ret m.
Proof.
  intros Hperm. cbn [as_str_dict]. rewrite map_map.
  rewrite (all_ret_map _ id) by by intros [k s].
  cbn. rewrite map_id. f_equal.
  rewrite <- (list_to_map_to_list m). apply list_to_map_proper; [|done].
  rewrite Hperm. apply NoDup_fst_map_to_list.
Qed.

Lemma as_str_dict_ok (m : gmap string string) : as_str_dict (str_dict m) = Ret m.
Proof. by apply as_str_dict_items. Qed.

Lemma as_str_dict_canon (m : gmap string string) :
  as_str_dict (canon (str_dict m)) = Ret m.
Proof.
  unfold str_dict. cbn [canon]. rewrite map_map. cbn [fst snd canon].
  destruct (Permutation_map_inv (fun kv : string * string => (fst kv, VStr (snd kv)))
              (map_to_list m) (sorted_items_perm _)) as (items & -> & Hperm).
  apply as_str_dict_items. by symmetry.
Qed.

Lemma as_dict_list_ok (l : list (gmap string string)) :
  as_dict_list (VList (map str_dict l)) = Ret l.
Proof.
  cbn [as_dict_list]. rewrite map_map.
  rewrite (all_ret_map _ id); [by rewrite map_id|].
  intros m _. apply as_str_dict_ok.
Qed.

Lemma as_dict_list_canon (l : list (gmap string string)) :
  as_dict_list (VList (map canon (map str_dict l))) = Ret l.
Proof.
  cbn [as_dict_list]. rewrite !map_map.
  rewrite (all_ret_map _ id); [by rewrite map_id|].
  intros m _. apply as_str_dict_canon.
Qed.

End decode_facts.

Section load_facts.
Import py json registry.
Local Open Scope outcome_scope.

Lemma canon_dict (d : dict) :
  canon (VDict d) = VDict (sorted_items (map (fun kv => (fst kv, canon (snd kv))) d)).
Proof. reflexivity. Qed.

Lemma dict_get_canon k (d : dict) :
  NoDup (dict_keys d) ->
  dict_get k (sorted_items (map (fun kv => (fst kv, canon (snd kv))) d))
  = canon <$> dict_get k d.
Proof.
  intros Hd. rewrite dict_get_sorted_items.
  - induction d as [|[k' v'] d IH]; cbn; [done|].
    destruct (String.eqb k k'); [done|]. apply IH.
    rewrite dict_keys_fmap in *. by apply NoDup_cons in Hd as [_ Hd].
  - unfold dict_keys in *. by rewrite map_map.
Qed.

Lemma dict_keys_canon (d : dict) :
  dict_keys (sorted_items (map (fun kv => (fst kv, canon (snd kv))) d))
  ≡ₚ dict_keys d.
Proof. rewrite dict_keys_sorted_items. unfold dict_keys. by rewrite map_map. Qed.

Lemma asdict_items_NoDup (s : ToolSpec) : NoDup (dict_keys (asdict_items s)).
Proof. cbn. apply (bool_decide_unpack _). by vm_compute. Qed.

Lemma to_dict_items_NoDup (m : ToolMetadata) : NoDup (dict_keys (to_dict_items m)).
Proof. cbn. apply (bool_decide_unpack _). by vm_compute. Qed.

Lemma forallb_perm {A} (f : A -> bool) (l l' : list A) :
  l ≡ₚ l' -> forallb f l = true -> forallb f l' = true.
Proof.
  intros Hperm. rewrite !forallb_forall. intros Hl x Hx. apply Hl.
  apply list_elem_of_In. rewrite Hperm. by apply list_elem_of_In.
Qed.

(** The contract read back from its canonical JSON. *)
Lemma ToolSpec_init_canon (s : ToolSpec) :
  ToolSpec_init
    (setdefault "imports" (VList [])
       (sorted_items (map (fun kv => (fst kv, canon (snd kv))) (asdict_items s))))
  = Ret s.
Proof.
  set (kw := sorted_items _).
  assert (forall k, dict_get k kw = canon <$> dict_get k (asdict_items s)) as Hget.
  { intros k. apply dict_get_canon, asdict_items_NoDup. }
  assert (forallb (fun k => bool_decide (k ∈ ToolSpec_fields)) (dict_keys kw) = true)
    as Hkeys.
  { apply (forallb_perm _ (dict_keys (asdict_items s))).
    - symmetry. apply dict_keys_canon.
    - by vm_compute. }
  clearbody kw.
  assert (setdefault "imports" (VList []) kw = kw) as ->.
  { unfold setdefault, dict_mem. by rewrite Hget. }
  unfold ToolSpec_init, required. rewrite Hkeys, !Hget.
  cbn [dict_get asdict_items String.eqb Ascii.eqb Bool.eqb fmap option_fmap
       option_map from_option bind canon as_str as_bool id].
  rewrite !as_str_dict_canon. cbn [bind].
  rewrite (as_dict_list_canon (failure_modes s)). cbn [bind].
  rewrite !as_str_list_ok. cbn [bind]. by destruct s.
Qed.

End load_facts.

Section load_claim.
Import py json registry.
Local Open Scope outcome_scope.

Lemma load_registered (fs : files) (m : ToolMetadata) :
  load (register fs m) (tool_id m) = Ret (Some m).
Proof.
  unfold load, register. rewrite lookup_insert_eq.
  unfold to_dict. rewrite canon_dict.
  set (data := sorted_items _).
  assert (forall k, dict_get k data = canon <$> dict_get k (to_dict_items m)) as Hget.
  { intros k. apply dict_get_canon, to_dict_items_NoDup. }
  clearbody data.
  unfold getitem, get_default. rewrite !Hget.
  cbn [dict_get to_dict_items String.eqb Ascii.eqb Bool.eqb fmap option_fmap
       option_map from_option bind id].
  unfold asdict. rewrite canon_dict. cbn [bind].
  rewrite ToolSpec_init_canon. cbn [bind canon as_str].
  rewrite as_str_dict_canon. cbn [bind].
  destruct m as [? ? ? ? [?] [?] [?] ? ? ? ? [?|]]; reflexivity.
Qed.

Lemma load_minimal (fs : files) (t : string) (m : ToolMetadata) :
  fs !! t = Some (minimal_doc m) -> load fs t = Ret (Some (with_defaults m)).
Proof.
  intros Hdoc. unfold load. rewrite Hdoc. unfold minimal_doc.
  cbn -[as_str_dict as_dict_list str_dict ToolSpec_init].
  unfold ToolSpec_init, required.
  cbn -[as_str_dict as_dict_list str_dict].
  rewrite !as_str_dict_ok. cbn -[as_str_dict as_dict_list str_dict].
  rewrite as_dict_list_ok. cbn.
  destruct m as [? ? ? ? [?] [?] [?] ? ? ? ? ?]; reflexivity.
Qed.

(** C8.  What [register] stores, [load] gives back: the metadata read
    under the registered [tool_id] equals the registered one in every
    field.  A [tool_id] without an entry loads as [None], nothing is
    raised; and a document that lacks the optional fields loads with the
    defaults in their place (empty lists, empty dict, empty texts,
    [None]). *)
Theorem register_then_load (fs : files) :
  (forall m, load (register fs m) (tool_id m) = Ret (Some m))
  /\ (forall t, fs !! t = None -> load fs t = Ret None)
  /\ (forall t m, fs !! t = Some (minimal_doc m) ->
                  load fs t = Ret (Some (with_defaults m))).
Proof.
  split_and!.
  - intros m. apply load_registered.
  - intros t Hnone. unfold load. by rewrite Hnone.
  - intros t m. apply load_minimal.
Qed.

Lemma register_then_load_witness :
  load (∅ : files) "print_msg" = Ret None
  /\ load (register ∅ (fixtures.print_msg_meta true)) "print_msg"
     = Ret (Some (fixtures.print_msg_meta true))
  /\ load {[ "print_msg" := minimal_doc (fixtures.print_msg_meta true) ]} "print_msg"
     = Ret (Some (with_defaults (fixtures.print_msg_meta true))).
Proof.
  split_and!.
  - apply (proj1 (proj2 (register_then_load ∅)) "print_msg"). reflexivity.
  - apply (proj1 (register_then_load ∅) (fixtures.print_msg_meta true)).
  - apply (proj2 (proj2 (register_then_load
              {[ "print_msg" := minimal_doc (fixtures.print_msg_meta true) ]}))
             "print_msg" (fixtures.print_msg_meta true)).
    apply lookup_singleton_eq.
Defined.

End load_claim.

(** ** The sandbox command line *)
Section sandbox_claim.
Import sandbox.
Context {Flags : Type} (isolation_args : Flags -> string -> list string).

(** C9.  For every policy the argument vector is three segments in a
    row: the namespace-isolation wrapper, the resource-limiting wrapper,
    whose memory cap in bytes is [memory_limit_mb] times 1024 squared and
    whose CPU cap is the limit in whole seconds, and last the caller's
    command and arguments, unchanged.  With 512 MB and 10 s the caps are
    536870912 bytes and 10 seconds. *)
Theorem build_command_segments (policy : SandboxPolicy Flags)
    (workdir : string) (cmd : list string) :
  build_command isolation_args policy workdir cmd
  = namespace_wrapper isolation_args policy workdir
    ++ resource_wrapper policy ++ cmd
  /\ resource_wrapper policy
     = [ "prlimit";
         "--as=" +:+ pretty (memory_limit_mb policy * (1024 * 1024));
         "--cpu=" +:+ pretty (cpu_time_limit_sec policy) ]
  /\ cmd `suffix_of` build_command isolation_args policy workdir cmd
  /\ (forall flags,
        build_command isolation_args (mkSandboxPolicy 512 10 flags) workdir cmd
        = namespace_wrapper isolation_args (mkSandboxPolicy 512 10 flags) workdir
          ++ ["prlimit"; "--as=536870912"; "--cpu=10"] ++ cmd).
Proof.
  split_and!.
  - reflexivity.
  - unfold resource_wrapper. by rewrite Z.mul_assoc.
  - unfold build_command. rewrite app_assoc. by apply suffix_app_r.
  - intros flags. unfold build_command. do 2 f_equal.
Qed.

End sandbox_claim.

(** ** The registry: walking the directory *)
Section catalog_facts.
Import py registry catalog.
Local Open Scope outcome_scope.

(** [register] touches one entry only. *)
Lemma load_register_ne (fs : files) (m : ToolMetadata) (t : string) :
  t <> tool_id m -> load (register fs m) t = load fs t.
Proof. intros Ht. unfold load, register. by rewrite lookup_insert_ne. Qed.

Lemma load_register_ne_doc (fs : files) (t d : string) (doc : value) :
  t <> d -> load (<[d := doc]> fs) t = load fs t.
Proof. intros Ht. unfold load. by rewrite lookup_insert_ne. Qed.

Lemma list_tools_app (fs : files) (a b : list string) :
  list_tools fs (a ++ b)
  = do x <- list_tools fs a; do y <- list_tools fs b; Ret (x ++ y).
Proof.
  induction a as [|d a IH]; cbn [app list_tools].
  - cbn. by destruct (list_tools fs b).
  - destruct (load fs d) as [[m|]|e|]; cbn; [| |done..]; rewrite IH;
      destruct (list_tools fs a) as [x|e|]; cbn; try done;
      by destruct (list_tools fs b).
Qed.

Lemma list_tools_ext (fs fs' : files) (dirs : list string) :
  (forall d, d ∈ dirs -> load fs d = load fs' d) ->
  list_tools fs dirs = list_tools fs' dirs.
Proof.
  induction dirs as [|d dirs IH]; intros Hload; cbn [list_tools]; [done|].
  rewrite (Hload d) by by left.
  rewrite IH; [done|]. intros d' Hd'. apply Hload. by right.
Qed.

(** Directories that load without an exception. *)
Lemma list_tools_returns (fs : files) (dirs : list string) :
  (forall d, d ∈ dirs -> exists o, load fs d = Ret o) ->
  exists tools, list_tools fs dirs = Ret tools.
Proof.
  induction dirs as [|d dirs IH]; intros Hload; cbn [list_tools]; [by eexists|].
  destruct (Hload d) as [o ->]; [by left|].
  destruct IH as [tools ->]; [intros d' Hd'; apply Hload; by right|].
  cbn. by eexists.
Qed.

(** [find_by_template_id] is [list_tools] followed by a filter. *)
Lemma find_by_template_id_filter (fs : files) (dirs : list string)
    (template_id : string) :
  find_by_template_id fs dirs template_id
  = do tools <- list_tools fs dirs;
    Ret (map tool_id
           (filter (fun m => registry.template_id m = Some template_id) tools)).
Proof.
  induction dirs as [|d dirs IH]; cbn [find_by_template_id list_tools]; [done|].
  destruct (load fs d) as [[m|]|e|]; cbn [bind]; [| |done..]; rewrite IH;
    destruct (list_tools fs dirs) as [tools|e|]; cbn [bind]; try done.
  rewrite filter_cons. by case_bool_decide; case_decide.
Qed.

Lemma list_tools_raises (fs : files) (before after : list string) (d : string)
    (e : exn) :
  (forall d', d' ∈ before -> exists o, load fs d' = Ret o) ->
  load fs d = Raise e ->
  list_tools fs (before ++ d :: after) = Raise e.
Proof.
  intros Hbefore Hd. rewrite list_tools_app.
  destruct (list_tools_returns fs before Hbefore) as [tools ->].
  cbn [bind list_tools]. by rewrite Hd.
Qed.

(** X1.  [find_by_template_id] is [list_tools] followed by a filter: it
    returns the [tool_id] of the listed tools whose [template_id] is the
    one asked for, in listing order, and it raises exactly when
    [list_tools] raises, with the same exception. *)
Theorem find_by_template_id_list_tools (fs : files) (dirs : list string)
    (template_id : string) :
  (forall tools,
     list_tools fs dirs = Ret tools ->
     find_by_template_id fs dirs template_id
     = Ret (map tool_id
              (filter (fun m => registry.template_id m = Some template_id) tools)))
  /\ (forall e, find_by_template_id fs dirs template_id = Raise e
                <-> list_tools fs dirs = Raise e)
  /\ (forall ids t,
        find_by_template_id fs dirs template_id = Ret ids ->
        t ∈ ids <->
        exists tools m,
          list_tools fs dirs = Ret tools /\ m ∈ tools
          /\ tool_id m = t /\ registry.template_id m = Some template_id).
Proof.
  rewrite find_by_template_id_filter. split_and!.
  - by intros tools ->.
  - intros e. destruct (list_tools fs dirs) as [tools|e'|]; cbn [bind];
      split; congruence.
  - intros ids t. destruct (list_tools fs dirs) as [tools|e'|]; cbn [bind];
      [|done..].
    intros [= <-]. rewrite list_elem_of_fmap. split.
    + intros (m & -> & [Ht Hm]%list_elem_of_filter). by exists tools, m.
    + intros (tools' & m & [= <-] & Hm & <- & Ht).
      exists m. split; [done|]. by apply list_elem_of_filter.
Qed.

Lemma find_by_template_id_list_tools_witness :
  find_by_template_id (register ∅ (fixtures.print_msg_meta true))
    ["cached_specs"; "print_msg"] "print_msg_template"
  = Ret ["print_msg"].
Proof.
  refine (proj1 (find_by_template_id_list_tools
                   (register ∅ (fixtures.print_msg_meta true))
                   ["cached_specs"; "print_msg"] "print_msg_template")
            [fixtures.print_msg_meta true] _).
  cbn [list_tools]. rewrite load_register_ne by done. by rewrite load_registered.
Defined.

(** X2.  [load] is not guarded in the loops over the registry: when the
    entry of one directory raises, and the directories listed before it
    load, [list_tools], [find_by_template_id] and the keyword search all
    raise that exception, whatever the other entries hold. *)
Theorem listing_stops_at_first_failure (fs : files)
    (before after : list string) (d : string) (e : exn) :
  (forall d', d' ∈ before -> exists o, load fs d' = Ret o) ->
  load fs d = Raise e ->
  list_tools fs (before ++ d :: after) = Raise e
  /\ (forall template_id,
        find_by_template_id fs (before ++ d :: after) template_id = Raise e)
  /\ (forall query top_k,
        search_tools fs (before ++ d :: after) query top_k = Raise e).
Proof.
  intros Hbefore Hd.
  pose proof (list_tools_raises fs before after d e Hbefore Hd) as Hlist.
  split_and!.
  - exact Hlist.
  - intros template_id. by rewrite find_by_template_id_filter, Hlist.
  - intros query top_k. unfold search_tools. by rewrite Hlist.
Qed.

Lemma listing_stops_at_first_failure_witness :
  let fs : files :=
    <[ "broken" := VDict [] ]> (register ∅ (fixtures.print_msg_meta true)) in
  list_tools fs ["print_msg"; "broken"; "other"] = Raise (KeyError "spec")
  /\ find_by_template_id fs ["print_msg"; "broken"; "other"] "print_msg_template"
     = Raise (KeyError "spec").
Proof.
  intros fs.
  destruct (listing_stops_at_first_failure fs ["print_msg"] ["other"] "broken"
              (KeyError "spec")) as (Hlist & Hfind & _).
  - intros d' ->%list_elem_of_singleton. exists (Some (fixtures.print_msg_meta true)).
    unfold fs. rewrite load_register_ne_doc by done. apply load_registered.
  - reflexivity.
  - split; [exact Hlist | apply Hfind].
Defined.

(** X3.  After [register], provided the other directories load,
    [list_tools] returns the other tools as before and the registered
    metadata in the place of its directory, and [find_by_template_id]
    finds it under its template id. *)
Theorem register_then_list_tools (fs : files) (m : ToolMetadata)
    (before after : list string) (tb ta : list ToolMetadata) :
  tool_id m ∉ before -> tool_id m ∉ after ->
  list_tools fs before = Ret tb ->
  list_tools fs after = Ret ta ->
  list_tools (register fs m) (before ++ tool_id m :: after) = Ret (tb ++ m :: ta)
  /\ (forall t, registry.template_id m = Some t ->
        exists ids,
          find_by_template_id (register fs m) (before ++ tool_id m :: after) t
          = Ret ids
          /\ tool_id m ∈ ids).
Proof.
  intros Hb Ha Htb Hta.
  assert (list_tools (register fs m) (before ++ tool_id m :: after)
          = Ret (tb ++ m :: ta)) as Hlist.
  { rewrite list_tools_app. cbn [list_tools].
    rewrite (list_tools_ext (register fs m) fs before), Htb.
    2:{ intros d Hd. apply load_register_ne. by intros ->. }
    rewrite (list_tools_ext (register fs m) fs after), Hta.
    2:{ intros d Hd. apply load_register_ne. by intros ->. }
    by rewrite load_registered. }
  split; [exact Hlist|].
  intros t Ht. rewrite find_by_template_id_filter, Hlist. cbn [bind].
  eexists. split; [reflexivity|].
  apply list_elem_of_fmap. exists m. split; [done|].
  apply list_elem_of_filter. split; [done|].
  apply elem_of_app. right. by left.
Qed.

Lemma register_then_list_tools_witness :
  list_tools (register ∅ (fixtures.print_msg_meta true)) ["cached_specs"; "print_msg"]
  = Ret [fixtures.print_msg_meta true].
Proof.
  refine (proj1 (register_then_list_tools ∅ (fixtures.print_msg_meta true)
                   ["cached_specs"] [] [] [] _ _ _ _)).
  - by intros [=]%list_elem_of_singleton.
  - apply not_elem_of_nil.
  - reflexivity.
  - reflexivity.
Defined.

(** X4.  For tool ids that are names of directory entries, [register]
    is a store keyed by [tool_id]: the last metadata written under an id
    is the one [load] returns, an entry written under another id is left
    as it was, and no other id is affected; writes under different ids
    can be made in either order. *)
Theorem register_last_write_wins (fs : files) (m1 m2 : ToolMetadata) :
  is_entry_name (tool_id m1) = true -> is_entry_name (tool_id m2) = true ->
  load (register (register fs m1) m2) (tool_id m2) = Ret (Some m2)
  /\ (tool_id m1 <> tool_id m2 ->
      load (register (register fs m1) m2) (tool_id m1) = Ret (Some m1))
  /\ (forall t, is_entry_name t = true -> t <> tool_id m1 -> t <> tool_id m2 ->
        load (register (register fs m1) m2) t = load fs t)
  /\ (tool_id m1 = tool_id m2 ->
      register (register fs m1) m2 = register fs m2)
  /\ (tool_id m1 <> tool_id m2 ->
      register (register fs m1) m2 = register (register fs m2) m1).
Proof.
  intros _ _. split_and!.
  - apply load_registered.
  - intros Hne. rewrite load_register_ne by done. apply load_registered.
  - intros t _ H1 H2. by rewrite !load_register_ne.
  - intros Heq. unfold register. rewrite Heq. apply insert_insert_eq.
  - intros Hne. unfold register. by apply insert_insert_ne.
Qed.

Lemma register_last_write_wins_witness :
  let m1 := fixtures.print_msg_meta true in
  let m2 := fixtures.print_msg_meta false in
  is_entry_name "print_msg" = true
  /\ load (register (register ∅ m1) m2) "print_msg" = Ret (Some m2)
  /\ register (register ∅ m1) m2 = register ∅ m2.
Proof.
  intros m1 m2.
  destruct (register_last_write_wins ∅ m1 m2 eq_refl eq_refl)
    as (Hload & _ & _ & Hsame & _).
  split; [reflexivity|]. split; [exact Hload | by apply Hsame].
Defined.

End catalog_facts.

(** ** The registry: documents [load] accepts and refuses *)
Section load_strictness.
Import py registry.
Local Open Scope outcome_scope.








Lemma setdefault_keys (k k0 : string) (v : value) (kw : dict) :
  k ∈ dict_keys kw -> k ∈ dict_keys (setdefault k0 v kw).
Proof.
  intros Hk. unfold setdefault. destruct (dict_mem k0 kw) eqn:Hmem; [done|].
  rewrite dict_keys_set, Hmem. apply elem_of_app. by left.
Qed.






End load_strictness.

(** ** Sorting and slicing *)
Section sort_facts.
Import pytext.
Context {A : Type} (key : A -> Z).
Implicit Types (x : A) (l : list A).

Lemma insert_reverse_perm x l : insert_reverse key x l ≡ₚ x :: l.
Proof.
  induction l as [|y l IH]; cbn; [done|].
  destruct (key x <? key y); [|done].
  rewrite IH. apply Permutation_swap.
Qed.

Lemma sort_reverse_perm l : sort_reverse key l ≡ₚ l.
Proof.
  induction l as [|x l IH]; cbn; [done|].
  rewrite insert_reverse_perm. by f_equiv.
Qed.

Lemma insert_reverse_sorted x l :
  StronglySorted (fun a b => key b <= key a) l ->
  StronglySorted (fun a b => key b <= key a) (insert_reverse key x l).
Proof.
  induction 1 as [|y l Hl IH Hy]; cbn.
  - repeat constructor.
  - destruct (Z.ltb_spec (key x) (key y)) as [Hlt|Hge].
    + constructor; [done|].
      rewrite insert_reverse_perm. constructor; [lia | done].
    + constructor; [by constructor|].
      constructor; [done|].
      eapply Forall_impl; [exact Hy|]. cbn. intros z Hz. lia.
Qed.

(** The sorted list has its keys in descending order. *)
Lemma sort_reverse_sorted l :
  StronglySorted (fun a b => key b <= key a) (sort_reverse key l).
Proof.
  induction l as [|x l IH]; cbn; [constructor|].
  by apply insert_reverse_sorted.
Qed.

Lemma insert_reverse_stable (k : Z) x l :
  filter (fun a => key a = k) (insert_reverse key x l)
  = filter (fun a => key a = k) (x :: l).
Proof.
  induction l as [|y l IH]; cbn [insert_reverse]; [done|].
  destruct (Z.ltb_spec (key x) (key y)) as [Hlt|Hge]; [|done].
  rewrite (filter_cons _ y), IH, !filter_cons.
  repeat case_decide; try done. lia.
Qed.

(** The sort is stable: the items of one key keep their order. *)
Lemma sort_reverse_stable (k : Z) l :
  filter (fun a => key a = k) (sort_reverse key l)
  = filter (fun a => key a = k) l.
Proof.
  induction l as [|x l IH]; cbn [sort_reverse foldr]; [done|].
  rewrite insert_reverse_stable, !filter_cons.
  fold (sort_reverse key l). by rewrite IH.
Qed.

(** Items that all have one key are left as they are. *)
Lemma sort_reverse_same_key l :
  (forall a b, a ∈ l -> b ∈ l -> key a = key b) -> sort_reverse key l = l.
Proof.
  induction l as [|x l IH]; intros Hkey; cbn [sort_reverse foldr]; [done|].
  fold (sort_reverse key l). rewrite IH.
  - destruct l as [|y l]; cbn; [done|].
    rewrite (Hkey x y) by (rewrite !elem_of_cons; tauto).
    by rewrite Z.ltb_irrefl.
  - intros a b Ha Hb. apply Hkey; by right.
Qed.

Lemma slice_to_prefix (k : Z) l : slice_to k l `prefix_of` l.
Proof. unfold slice_to. destruct (0 <=? k); apply prefix_take. Qed.

Lemma slice_to_length (k : Z) l :
  Z.of_nat (length (slice_to k l))
  = if 0 <=? k then Z.min k (Z.of_nat (length l))
    else Z.max 0 (Z.of_nat (length l) + k).
Proof.
  unfold slice_to. destruct (Z.leb_spec 0 k); rewrite length_take; lia.
Qed.

End sort_facts.

Section sort_map_facts.
Import pytext.
Context {A B : Type} (key : A -> Z) (f : B -> A).

Lemma insert_reverse_fmap (x : B) (l : list B) :
  insert_reverse key (f x) (map f l)
  = map f (insert_reverse (fun b => key (f b)) x l).
Proof.
  induction l as [|y l IH]; cbn; [done|].
  destruct (key (f x) <? key (f y)); cbn; [|done]. by rewrite IH.
Qed.

Lemma sort_reverse_fmap (l : list B) :
  sort_reverse key (map f l) = map f (sort_reverse (fun b => key (f b)) l).
Proof.
  induction l as [|x l IH]; cbn [sort_reverse foldr map]; [done|].
  fold (sort_reverse key (map f l)). rewrite IH.
  apply insert_reverse_fmap.
Qed.

Lemma slice_to_fmap (k : Z) (l : list A) (g : A -> B) :
  slice_to k (map g l) = map g (slice_to k l).
Proof.
  unfold slice_to. rewrite length_map.
  destruct (0 <=? k); by rewrite fmap_take.
Qed.

End sort_map_facts.

(** ** The registry: keyword search *)
Section search_facts.
Import py registry catalog.
Local Open Scope outcome_scope.

Lemma keyword_fold (name_lower : string) (kws : list string) (score : Z) :
  fold_left (fun score kw => if pystr.contains kw name_lower
                             then score + 1 else score) kws score
  = score + Z.of_nat (length (filter (fun kw => pystr.contains kw name_lower = true)
                                kws)).
Proof.
  revert score. induction kws as [|kw kws IH]; intros score; cbn [fold_left].
  - cbn. lia.
  - rewrite IH, filter_cons.
    destruct (pystr.contains kw name_lower); case_decide; try done; cbn; lia.
Qed.

(** What a positive score means. *)
Lemma keyword_score_positive (query_lower : string) (tool : ToolMetadata) :
  0 < keyword_score query_lower tool <->
  pystr.contains query_lower (pystr.lower (name (spec tool))) = true
  \/ pystr.contains query_lower (pystr.lower (docstring (spec tool))) = true
  \/ exists kw, kw ∈ pytext.split query_lower
                /\ pystr.contains kw (pystr.lower (name (spec tool))) = true.
Proof.
  unfold keyword_score. rewrite keyword_fold.
  set (hits := filter _ _).
  assert ((0 < length hits)%nat <-> exists kw, kw ∈ hits) as Hhits.
  { destruct hits as [|kw hits]; cbn.
    - split; [lia | by intros [kw ?%elem_of_nil]].
    - split; [intros _; exists kw; by left | lia]. }
  assert (forall kw, kw ∈ hits <->
            kw ∈ pytext.split query_lower
            /\ pystr.contains kw (pystr.lower (name (spec tool))) = true) as Hin.
  { intros kw. unfold hits. rewrite list_elem_of_filter. tauto. }
  destruct (pystr.contains query_lower (pystr.lower (name (spec tool))));
    destruct (pystr.contains query_lower (pystr.lower (docstring (spec tool))));
    (split; [intros Hpos | intros Hor]); try tauto; try lia.
  - right. right. destruct (proj1 Hhits) as [kw Hkw]; [lia|].
    exists kw. by apply Hin.
  - destruct Hor as [?|[?|[kw Hkw]]]; try done.
    assert (0 < length hits)%nat; [|lia].
    apply Hhits. exists kw. by apply Hin.
Qed.

Lemma scored_filter (query_lower : string) (all_tools : list ToolMetadata) :
  scored query_lower all_tools
  = map (fun tool => (keyword_score query_lower tool, tool))
        (filter (fun tool => 0 < keyword_score query_lower tool) all_tools).
Proof.
  unfold scored. induction all_tools as [|tool tools IH]; [done|].
  rewrite filter_cons. csimpl. rewrite IH.
  destruct (Z.ltb_spec 0 (keyword_score query_lower tool)); case_decide;
    try lia; done.
Qed.

(** The keyword search in one line: the listed tools with a positive
    score, sorted by descending score, cut at [top_k]. *)
Lemma search_tools_sorted (fs : files) (dirs : list string) (query : string)
    (top_k : Z) (all_tools : list ToolMetadata) :
  list_tools fs dirs = Ret all_tools ->
  search_tools fs dirs query top_k
  = Ret (pytext.slice_to top_k
           (pytext.sort_reverse (keyword_score (pystr.lower query))
              (filter (fun tool => 0 < keyword_score (pystr.lower query) tool)
                      all_tools))).
Proof.
  intros Hlist. unfold search_tools. rewrite Hlist. cbn [bind].
  destruct all_tools as [|tool tools].
  { unfold pytext.slice_to. cbn. by destruct (0 <=? top_k); rewrite take_nil. }
  rewrite scored_filter.
  rewrite (sort_reverse_fmap fst (fun tool => (keyword_score (pystr.lower query) tool, tool))).
  cbn [fst]. rewrite slice_to_fmap, map_map. cbn [snd]. by rewrite map_id.
Qed.

(** X6.  The keyword search returns, for a registry that lists: tools of
    the registry that match the query (the lower-cased query occurs in the
    lower-cased name or docstring, or one of its words occurs in the
    name), in descending order of score, tools of equal score in listing
    order; [top_k] of them when [top_k] is not negative and that many
    match (as many as are left without the last [-top_k] when it is
    negative); no tool left out scores higher than one returned; and
    every matching tool is returned when [top_k] is at least their
    number. *)
Theorem search_tools_ranking (fs : files) (dirs : list string) (query : string)
    (top_k : Z) (all_tools : list ToolMetadata) :
  list_tools fs dirs = Ret all_tools ->
  let score := keyword_score (pystr.lower query) in
  let matching := filter (fun tool => 0 < score tool) all_tools in
  exists found,
    search_tools fs dirs query top_k = Ret found
    /\ (forall tool, tool ∈ found -> tool ∈ all_tools /\ 0 < score tool)
    /\ (forall tool,
          0 < score tool <->
          pystr.contains (pystr.lower query) (pystr.lower (name (spec tool))) = true
          \/ pystr.contains (pystr.lower query)
               (pystr.lower (docstring (spec tool))) = true
          \/ exists kw, kw ∈ pytext.split (pystr.lower query)
                        /\ pystr.contains kw (pystr.lower (name (spec tool))) = true)
    /\ StronglySorted (fun a b => score b <= score a) found
    /\ (forall k, filter (fun tool => score tool = k) found
                  `prefix_of` filter (fun tool => score tool = k) matching)
    /\ Z.of_nat (length found)
       = (if 0 <=? top_k then Z.min top_k (Z.of_nat (length matching))
          else Z.max 0 (Z.of_nat (length matching) + top_k))
    /\ (forall tool other,
          tool ∈ matching -> tool ∉ found -> other ∈ found ->
          score tool <= score other)
    /\ (Z.of_nat (length matching) <= top_k -> found ≡ₚ matching).
Proof.
  intros Hlist score matching.
  eexists. split; [by apply search_tools_sorted|].
  fold score. fold matching.
  set (sorted := pytext.sort_reverse score matching).
  set (found := pytext.slice_to top_k sorted).
  assert (Z.of_nat (length found)
          = (if 0 <=? top_k then Z.min top_k (Z.of_nat (length matching))
             else Z.max 0 (Z.of_nat (length matching) + top_k))) as Hlen.
  { unfold found. rewrite slice_to_length. unfold sorted.
    by rewrite (Permutation_length (sort_reverse_perm score matching)). }
  assert (Z.of_nat (length matching) <= top_k -> found ≡ₚ matching) as Hall.
  { intros Hk. unfold found, pytext.slice_to.
    destruct (Z.leb_spec 0 top_k); [|lia].
    rewrite take_ge; [apply sort_reverse_perm|].
    unfold sorted.
    rewrite (Permutation_length (sort_reverse_perm score matching)). lia. }
  destruct (slice_to_prefix top_k sorted) as [rest Hrest].
  fold found in Hrest. clearbody found.
  pose proof (sort_reverse_sorted score matching) as Hsorted.
  fold sorted in Hsorted.
  assert (forall tool, tool ∈ sorted <-> tool ∈ matching) as Hin.
  { intros tool. unfold sorted. by rewrite sort_reverse_perm. }
  pose proof (fun k => sort_reverse_stable score k matching) as Hstable.
  fold sorted in Hstable. clearbody sorted. subst sorted.
  split_and!.
  - intros tool Hfound.
    assert (tool ∈ matching) as [? ?]%list_elem_of_filter; [|done].
    apply Hin, elem_of_app. by left.
  - intros tool. apply keyword_score_positive.
  - by apply StronglySorted_app_1_l in Hsorted.
  - intros k. rewrite <- Hstable, filter_app. by eexists.
  - exact Hlen.
  - intros tool other Htool Hout Hother.
    apply Hin, elem_of_app in Htool as [?|Htool]; [done|].
    by apply (StronglySorted_app_1_elem_of _ _ _ other tool) in Hsorted.
  - exact Hall.
Qed.

Lemma search_tools_ranking_witness :
  exists found,
    search_tools (register ∅ (fixtures.print_msg_meta true)) ["print_msg"]
      "Print a message" 5
    = Ret found
    /\ (forall tool, tool ∈ found -> tool ∈ [fixtures.print_msg_meta true]).
Proof.
  destruct (search_tools_ranking (register ∅ (fixtures.print_msg_meta true))
              ["print_msg"] "Print a message" 5 [fixtures.print_msg_meta true])
    as (found & Hfound & Hin & _).
  - cbn [list_tools]. by rewrite load_registered.
  - exists found. split; [exact Hfound|]. intros tool Htool. by apply Hin.
Defined.

Lemma contains_empty (s : string) : pystr.contains "" s = true.
Proof. by destruct s. Qed.

(** X7.  The empty query occurs in every name and docstring, so every
    tool scores alike and the sort leaves the order alone: the search
    returns the listed tools in listing order, cut at [top_k]. *)
Theorem search_tools_empty_query (fs : files) (dirs : list string) (top_k : Z)
    (all_tools : list ToolMetadata) :
  list_tools fs dirs = Ret all_tools ->
  search_tools fs dirs "" top_k = Ret (pytext.slice_to top_k all_tools).
Proof.
  intros Hlist. rewrite (search_tools_sorted _ _ _ _ _ Hlist).
  assert (forall tool, keyword_score (pystr.lower "") tool = 4) as Hscore.
  { intros tool. unfold keyword_score. cbn [pystr.lower pytext.split
      pytext.split_from String.eqb fold_left]. by rewrite !contains_empty. }
  assert (filter (fun tool => 0 < keyword_score (pystr.lower "") tool) all_tools
          = all_tools) as ->.
  { clear Hlist. induction all_tools as [|tool tools IH]; [done|].
    rewrite filter_cons, IH. case_decide; [done|]. rewrite Hscore in *. lia. }
  rewrite sort_reverse_same_key; [done|].
  intros a b _ _. by rewrite !Hscore.
Qed.

Lemma search_tools_empty_query_witness :
  search_tools (register ∅ (fixtures.print_msg_meta true)) ["print_msg"] "" 5
  = Ret [fixtures.print_msg_meta true].
Proof.
  apply (search_tools_empty_query (register ∅ (fixtures.print_msg_meta true))
           ["print_msg"] 5 [fixtures.print_msg_meta true]).
  cbn [list_tools]. by rewrite load_registered.
Defined.

End search_facts.

(** ** The registry object: loading executables *)
Section executable_facts.
Import py registry registry_object.
Context {F Ext : Type}.
Context (under_cwd : Ext -> Path -> Path) (path_exists : Ext -> Path -> bool).
Context (import_function : Path -> string -> Ext -> option F * Ext).
Implicit Types (r : Registry F Ext) (func : F).

Abbreviation get_executable :=
  (get_executable under_cwd path_exists import_function).

(** What a call of [get_executable] does to the cache. *)
Lemma get_executable_cache tool_id r res r' :
  get_executable tool_id r = (res, r') ->
  entries r' = entries r /\ dirs r' = dirs r
  /\ cached_specs r' = cached_specs r /\ stems r' = stems r
  /\ match res with
     | Ret (Some func) =>
         executable_cache r' = <[tool_id := func]> (executable_cache r)
     | _ => executable_cache r' = executable_cache r
     end.
Proof.
  unfold registry_object.get_executable.
  destruct (executable_cache r !! tool_id) as [func|] eqn:Hhit.
  { intros [= <- <-]. split_and!; try done. by rewrite insert_id. }
  destruct (load (entries r) tool_id) as [[metadata|]|e|];
    try (intros [= <- <-]; done).
  destruct (path_exists _ _); cbn [negb]; [|intros [= <- <-]; done].
  destruct (import_function _ _ _) as [[func|] ext]; intros [= <- <-]; done.
Qed.

(** X8.  [get_executable] answers from its in-memory cache before it
    looks at anything else: once a call has returned a function for a
    tool id, every later call on that registry object returns the same
    function and changes nothing, whatever has happened in between to the
    metadata entries, the source files or other cache entries. *)
Theorem get_executable_sticky tool_id r func r' :
  get_executable tool_id r = (Ret (Some func), r') ->
  executable_cache r' !! tool_id = Some func
  /\ (forall later,
        executable_cache r' ⊆ executable_cache later ->
        get_executable tool_id later = (Ret (Some func), later)).
Proof.
  intros Hget.
  destruct (get_executable_cache _ _ _ _ Hget) as (_ & _ & _ & _ & Hcache).
  assert (executable_cache r' !! tool_id = Some func) as Hhit.
  { rewrite Hcache. apply lookup_insert_eq. }
  split; [exact Hhit|].
  intros later Hsub. unfold registry_object.get_executable.
  by rewrite (lookup_weaken _ _ _ _ Hhit Hsub).
Qed.

(** X9.  How [get_executable] fails, and that a failure is not
    remembered: a tool id without metadata gives [None]; metadata whose
    source file does not exist raises a [FileNotFoundError] (it is not
    turned into [None]); a module that cannot be imported, or lacks the
    function, gives [None]; an entry [load] cannot read raises the
    exception of [load].  The cache is left as it was in each case, so a
    later call tries again. *)
Theorem get_executable_failures tool_id r :
  executable_cache r !! tool_id = None ->
  (load (entries r) tool_id = Ret None ->
   get_executable tool_id r = (Ret None, r))
  /\ (forall e, load (entries r) tool_id = Raise e ->
        get_executable tool_id r = (Raise e, r))
  /\ (forall metadata,
        load (entries r) tool_id = Ret (Some metadata) ->
        path_exists (outside r) (under_cwd (outside r) (source_path metadata))
        = false ->
        get_executable tool_id r
        = (Raise (FileNotFoundError
                    ("Source file for tool " +:+ tool_id +:+ " not found at "
                     +:+ path_str (under_cwd (outside r) (source_path metadata)))),
           r))
  /\ (forall metadata ext,
        load (entries r) tool_id = Ret (Some metadata) ->
        path_exists (outside r) (under_cwd (outside r) (source_path metadata))
        = true ->
        import_function (under_cwd (outside r) (source_path metadata))
          (name (spec metadata)) (outside r) = (None, ext) ->
        get_executable tool_id r = (Ret None, with_outside ext r))
  /\ (forall res r',
        get_executable tool_id r = (res, r') ->
        (forall func, res <> Ret (Some func)) ->
        executable_cache r' = executable_cache r).
Proof.
  intros Hmiss. unfold registry_object.get_executable. rewrite Hmiss.
  split_and!.
  - by intros ->.
  - by intros e ->.
  - by intros metadata -> ->.
  - by intros metadata ext -> -> ->.
  - intros res r' Hget Hres.
    fold (registry_object.get_executable under_cwd path_exists import_function
            tool_id r) in Hget.
    assert (get_executable tool_id r = (res, r')) as Hget'.
    { unfold registry_object.get_executable. by rewrite Hmiss. }
    destruct (get_executable_cache _ _ _ _ Hget') as (_ & _ & _ & _ & Hcache).
    destruct res as [[func|]|e|]; try done. by destruct (Hres func).
Qed.

End executable_facts.

Section executable_witnesses.
Import py registry registry_object.

(** A world outside that holds the paths of the source files that exist;
    every module that exists defines its function, here the number 7. *)
Lemma get_executable_sticky_witness :
  let under_cwd := fun (_ : list string) (p : Path) => p in
  let path_exists := fun (ext : list string) (p : Path) =>
                       bool_decide (path_str p ∈ ext) in
  let import_function := fun (_ : Path) (_ : string) (ext : list string) =>
                           (Some 7%nat, ext) in
  let r := mkRegistry (register ∅ (fixtures.print_msg_meta true)) ["print_msg"]
             ∅ [] (∅ : gmap string nat) ["."] in
  let later := mkRegistry ∅ [] ∅ []
                 (<["other" := 3%nat]> (<["print_msg" := 7%nat]> ∅)) [] in
  get_executable under_cwd path_exists import_function "print_msg" r
  = (Ret (Some 7%nat), with_executable "print_msg" 7%nat ["."] r)
  /\ get_executable under_cwd path_exists import_function "print_msg" later
     = (Ret (Some 7%nat), later).
Proof.
  intros under_cwd path_exists import_function r later.
  assert (get_executable under_cwd path_exists import_function "print_msg" r
          = (Ret (Some 7%nat), with_executable "print_msg" 7%nat ["."] r))
    as Hfirst.
  { unfold get_executable. cbn [executable_cache r entries].
    rewrite lookup_empty, load_registered. reflexivity. }
  split; [exact Hfirst|].
  refine (proj2 (get_executable_sticky under_cwd path_exists import_function
                   "print_msg" r 7%nat _ Hfirst) later _).
  apply insert_subseteq. reflexivity.
Defined.

Lemma get_executable_failures_witness :
  let under_cwd := fun (_ : list string) (p : Path) => p in
  let path_exists := fun (ext : list string) (p : Path) =>
                       bool_decide (path_str p ∈ ext) in
  let import_function := fun (_ : Path) (_ : string) (ext : list string) =>
                           (Some 7%nat, ext) in
  let r := mkRegistry (register ∅ (fixtures.print_msg_meta true)) ["print_msg"]
             ∅ [] (∅ : gmap string nat) [] in
  get_executable under_cwd path_exists import_function "print_msg" r
  = (Raise (FileNotFoundError "Source file for tool print_msg not found at ."), r).
Proof.
  intros under_cwd path_exists import_function r.
  refine (proj1 (proj2 (proj2 (get_executable_failures under_cwd path_exists
                                 import_function "print_msg" r _)))
            (fixtures.print_msg_meta true) _ _).
  - apply lookup_empty.
  - apply load_registered.
  - reflexivity.
Defined.

End executable_witnesses.

(** ** The registry: cached specs *)
Section spec_cache_facts.
Import py registry spec_cache.
Local Open Scope outcome_scope.
Context (hydrate : value -> outcome templates.CompositionSpec).

Lemma as_str_list_plain (l : list string) : as_str_list (str_list l) = Ret l.
Proof.
  unfold str_list. cbn [as_str_list]. rewrite map_map.
  rewrite (all_ret_map _ id); [by rewrite map_id | done].
Qed.

(** The contract read back from [asdict]. *)
Lemma ToolSpec_init_asdict (s : ToolSpec) : ToolSpec_init (asdict_items s) = Ret s.
Proof.
  unfold ToolSpec_init, required.
  cbn -[as_str_dict as_dict_list as_str_list str_dict str_list].
  rewrite !as_str_dict_ok.
  cbn -[as_str_dict as_dict_list as_str_list str_dict str_list].
  rewrite as_dict_list_ok.
  cbn -[as_str_dict as_dict_list as_str_list str_dict str_list].
  rewrite !as_str_list_plain. cbn. by destruct s.
Qed.

Lemma load_cached_spec_fresh (dir : cached) (cache_id timestamp : string)
    (spec : ToolSpec) (context : dict) :
  load_cached_spec hydrate (cache_spec cache_id timestamp spec context dir) cache_id
  = Ret (Some (CachedTool spec, VDict context)).
Proof.
  unfold load_cached_spec, cache_spec. rewrite lookup_insert_eq.
  unfold read_payload.
  cbn -[ToolSpec_init asdict].
  unfold asdict. cbn [bind]. by rewrite ToolSpec_init_asdict.
Qed.

Lemma load_cached_spec_other (dir : cached) (cache_id timestamp other : string)
    (spec : ToolSpec) (context : dict) :
  other <> cache_id ->
  load_cached_spec hydrate (cache_spec cache_id timestamp spec context dir) other
  = load_cached_spec hydrate dir other.
Proof.
  intros Hne. unfold load_cached_spec, cache_spec. by rewrite lookup_insert_ne.
Qed.

(** X13.  [cache_spec] then [load_cached_spec]: the contract and the
    context cached under an id are the ones read back under it; entries
    under other ids read as before; and an entry that holds a contract is
    never taken for a workflow by [find_workflow_by_id]. *)
Theorem cache_spec_round_trip (dir : cached) (cache_id timestamp : string)
    (spec : ToolSpec) (context : dict) :
  load_cached_spec hydrate (cache_spec cache_id timestamp spec context dir) cache_id
  = Ret (Some (CachedTool spec, VDict context))
  /\ (forall other,
        other <> cache_id ->
        load_cached_spec hydrate (cache_spec cache_id timestamp spec context dir)
          other
        = load_cached_spec hydrate dir other)
  /\ (dir !! cache_id = None ->
      forall stems pipeline_id,
        find_workflow_by_id hydrate
          (cache_spec cache_id timestamp spec context dir) stems pipeline_id
        = find_workflow_by_id hydrate dir stems pipeline_id).
Proof.
  split_and!.
  - apply load_cached_spec_fresh.
  - intros other. apply load_cached_spec_other.
  - intros Hfresh stems pipeline_id.
    induction stems as [|stem stems IH]; cbn [find_workflow_by_id]; [done|].
    rewrite IH. destruct (decide (stem = cache_id)) as [->|Hne].
    + unfold workflow_in at 2. rewrite Hfresh.
      unfold workflow_in, cache_spec. rewrite lookup_insert_eq. done.
    + unfold workflow_in. rewrite load_cached_spec_other by done.
      unfold cache_spec. by rewrite lookup_insert_ne.
Qed.

(** One turn of the search that finds its workflow. *)
Lemma workflow_in_match (dir : cached) (pipeline_id stem : string)
    (data d : dict) (context : value) (c : templates.CompositionSpec) :
  dir !! stem = Some (VDict data) ->
  dict_get "spec_type" data = Some (VStr "CompositionSpec") ->
  dict_get "spec" data = Some (VDict d) ->
  dict_get "context" data = Some context ->
  dict_get "pipeline_id" d = Some (VStr pipeline_id) ->
  hydrate (VDict d) = Ret c ->
  workflow_in hydrate dir pipeline_id stem = Ret (Some (CachedWorkflow c)).
Proof.
  intros Hdoc Htype Hspec Hctx Hid Hhydrate.
  unfold workflow_in, load_cached_spec, read_payload, getitem.
  rewrite Hdoc, Htype, Hspec, Hctx. cbn [from_option id is_str String.eqb
    Ascii.eqb Bool.eqb bind].
  rewrite Hid. cbn [from_option id is_str]. rewrite String.eqb_refl.
  by rewrite Hhydrate.
Qed.

(** One turn of the search, when it returns something. *)
Lemma workflow_in_found (dir : cached) (pipeline_id stem : string)
    (obj : cached_spec) :
  workflow_in hydrate dir pipeline_id stem = Ret (Some obj) ->
  exists data d c,
    dir !! stem = Some (VDict data)
    /\ dict_get "spec_type" data = Some (VStr "CompositionSpec")
    /\ dict_get "spec" data = Some (VDict d)
    /\ dict_get "pipeline_id" d = Some (VStr pipeline_id)
    /\ hydrate (VDict d) = Ret c
    /\ obj = CachedWorkflow c.
Proof.
  unfold workflow_in.
  destruct (dir !! stem) as [[| | | | |data]|] eqn:Hdoc; try done.
  destruct (dict_get "spec_type" data) as [[| | |spec_type| |]|] eqn:Htype;
    cbn [from_option id is_str]; try done.
  destruct (String.eqb_spec spec_type "CompositionSpec") as [->|]; [|done].
  unfold getitem.
  destruct (dict_get "spec" data) as [[| | | | |d]|] eqn:Hspec; cbn [bind];
    try done.
  destruct (dict_get "pipeline_id" d) as [[| | |p| |]|] eqn:Hid;
    cbn [from_option id is_str]; try done.
  destruct (String.eqb_spec p pipeline_id) as [->|]; [|done].
  unfold load_cached_spec, read_payload, getitem.
  rewrite Hdoc, Htype, Hspec. cbn [bind].
  destruct (dict_get "context" data) as [context|]; cbn [bind try_except];
    [|done].
  cbn [is_str String.eqb Ascii.eqb Bool.eqb].
  destruct (hydrate (VDict d)) as [c|e|] eqn:Hc; cbn [bind try_except]; try done.
  intros [= <-]. by exists data, d, c.
Qed.

(** X14.  [find_workflow_by_id] returns the workflow of the first listed
    file that is a [CompositionSpec] entry with the pipeline id asked for
    and can be rebuilt; a file before it whose turn does not end with a
    workflow (it holds no JSON, or another kind of entry, or another
    pipeline id, or rebuilding it raises) is passed over and does not
    stop the search.  What is returned is always a workflow whose entry
    carries that pipeline id. *)
Theorem find_workflow_by_id_first_match (dir : cached) (pipeline_id : string) :
  (forall before stem after data d context c,
     (forall s, s ∈ before ->
        forall obj, workflow_in hydrate dir pipeline_id s <> Ret (Some obj)) ->
     dir !! stem = Some (VDict data) ->
     dict_get "spec_type" data = Some (VStr "CompositionSpec") ->
     dict_get "spec" data = Some (VDict d) ->
     dict_get "context" data = Some context ->
     dict_get "pipeline_id" d = Some (VStr pipeline_id) ->
     hydrate (VDict d) = Ret c ->
     find_workflow_by_id hydrate dir (before ++ stem :: after) pipeline_id
     = Some (CachedWorkflow c))
  /\ (forall s,
        dir !! s = None
        \/ (exists data, dir !! s = Some (VDict data)
                         /\ dict_get "spec_type" data
                            <> Some (VStr "CompositionSpec"))
        \/ (exists data d other,
              dir !! s = Some (VDict data)
              /\ dict_get "spec" data = Some (VDict d)
              /\ dict_get "pipeline_id" d = Some (VStr other)
              /\ other <> pipeline_id)
        \/ (exists data d e,
              dir !! s = Some (VDict data)
              /\ dict_get "spec" data = Some (VDict d)
              /\ hydrate (VDict d) = Raise e) ->
        forall obj, workflow_in hydrate dir pipeline_id s <> Ret (Some obj))
  /\ (forall stems obj,
        find_workflow_by_id hydrate dir stems pipeline_id = Some obj ->
        exists stem data d c,
          stem ∈ stems
          /\ dir !! stem = Some (VDict data)
          /\ dict_get "spec_type" data = Some (VStr "CompositionSpec")
          /\ dict_get "spec" data = Some (VDict d)
          /\ dict_get "pipeline_id" d = Some (VStr pipeline_id)
          /\ hydrate (VDict d) = Ret c
          /\ obj = CachedWorkflow c).
Proof.
  split_and!.
  - intros before stem after data d context c Hbefore Hdoc Htype Hspec Hctx
      Hid Hc.
    induction before as [|s before IH]; cbn [app find_workflow_by_id].
    + by rewrite (workflow_in_match _ _ _ data d context c).
    + assert (forall obj, workflow_in hydrate dir pipeline_id s <> Ret (Some obj))
        as Hs by (apply Hbefore; by left).
      destruct (workflow_in hydrate dir pipeline_id s) as [[obj|]|e|];
        try (apply IH; intros s' Hs'; apply Hbefore; by right).
      by destruct (Hs obj).
  - intros s Hskip obj Hfound.
    destruct (workflow_in_found _ _ _ _ Hfound)
      as (data & d & c & Hdoc & Htype & Hspec & Hid & Hc & _).
    destruct Hskip as [Hnone|[(data' & Hdoc' & Htype')
                             |[(data' & d' & other & Hdoc' & Hspec' & Hid' & Hne)
                              |(data' & d' & e & Hdoc' & Hspec' & He)]]];
      congruence.
  - intros stems obj. induction stems as [|s stems IH];
      cbn [find_workflow_by_id]; [done|].
    destruct (workflow_in hydrate dir pipeline_id s) as [[obj'|]|e|] eqn:Hturn.
    + intros [= <-].
      destruct (workflow_in_found _ _ _ _ Hturn)
        as (data & d & c & Hdoc & Htype & Hspec & Hid & Hc & ->).
      exists s, data, d, c. split_and!; try done. by left.
    + intros (stem & data & d & c & Hin & Hrest)%IH.
      exists stem, data, d, c. split; [by right | done].
    + intros (stem & data & d & c & Hin & Hrest)%IH.
      exists stem, data, d, c. split; [by right | done].
    + intros (stem & data & d & c & Hin & Hrest)%IH.
      exists stem, data, d, c. split; [by right | done].
Qed.

End spec_cache_facts.

Section spec_cache_witnesses.
Import py registry spec_cache.

Lemma cache_spec_round_trip_witness :
  load_cached_spec object_fixtures.hydrate
    (cache_spec "id-1" "now" (fixtures.print_msg_spec true) [("goal", VStr "print")] ∅)
    "id-1"
  = Ret (Some (CachedTool (fixtures.print_msg_spec true),
               VDict [("goal", VStr "print")]))
  /\ find_workflow_by_id object_fixtures.hydrate
       (cache_spec "id-1" "now" (fixtures.print_msg_spec true) [] ∅) ["id-1"]
       "print_msg"
     = None.
Proof.
  split.
  - apply (proj1 (cache_spec_round_trip object_fixtures.hydrate ∅ "id-1" "now"
                    (fixtures.print_msg_spec true) [("goal", VStr "print")])).
  - refine (proj2 (proj2 (cache_spec_round_trip object_fixtures.hydrate ∅ "id-1"
                            "now" (fixtures.print_msg_spec true) []))
              _ ["id-1"] "print_msg").
    apply lookup_empty.
Defined.

Lemma find_workflow_by_id_first_match_witness :
  let hydrate := fun _ : value => Ret (fixtures.pipeline []) in
  let entry := [ ("spec_type", VStr "CompositionSpec");
                 ("spec", VDict [("pipeline_id", VStr "nested")]);
                 ("context", VDict []) ] in
  find_workflow_by_id hydrate {[ "w1" := VDict entry ]} ["junk"; "w1"] "nested"
  = Some (CachedWorkflow (fixtures.pipeline [])).
Proof.
  intros hydrate entry.
  destruct (find_workflow_by_id_first_match hydrate {[ "w1" := VDict entry ]}
              "nested") as (Hfirst & Hskip & _).
  refine (Hfirst ["junk"] "w1" [] entry [("pipeline_id", VStr "nested")]
            (VDict []) (fixtures.pipeline []) _ _ _ _ _ _ _);
    try reflexivity.
  intros s ->%list_elem_of_singleton. apply Hskip. by left.
Defined.

End spec_cache_witnesses.

(** ** The workflow engine on the registry object *)
Section registry_in_workflow.
Import py registry_object workflow.
Context {F Ext : Type}.
Context (under_cwd : Ext -> registry.Path -> registry.Path)
        (path_exists : Ext -> registry.Path -> bool)
        (import_function : registry.Path -> string -> Ext -> option F * Ext)
        (hydrate : value -> outcome templates.CompositionSpec)
        (call : F -> executable (Registry F Ext)).
Implicit Types (r : Registry F Ext) (σ : engine (Registry F Ext)).

Abbreviation R :=
  (operations under_cwd path_exists import_function hydrate call).

(** Step 2 of [_run_step_logic] on a registry that lists: the tools
    under the template id, else the tools of that name. *)
Lemma concrete_tool_ids_listed r (tool_id : string)
    (all_tools : list registry.ToolMetadata) :
  catalog.list_tools (entries r) (dirs r) = Ret all_tools ->
  concrete_tool_ids R r tool_id
  = Ret (map registry.tool_id
           (match filter (fun m => registry.template_id m = Some tool_id)
                         all_tools with
            | [] => filter (fun m => registry.name (registry.spec m) = tool_id)
                           all_tools
            | _ => filter (fun m => registry.template_id m = Some tool_id)
                          all_tools
            end)).
Proof.
  intros Hlist. unfold concrete_tool_ids. cbn [find_by_template_id list_tools operations].
  rewrite find_by_template_id_filter, Hlist. cbn [bind].
  by destruct (filter _ all_tools).
Qed.

Lemma prefix_app (needle after : string) :
  String.prefix needle (needle +:+ after) = true.
Proof.
  induction needle as [|c needle IH].
  - rewrite app_empty_l. by destruct after.
  - rewrite app_cons. cbn [String.prefix]. by destruct (ascii_dec c c).
Qed.

Lemma contains_app_r (needle before after : string) :
  pystr.contains needle (before +:+ needle +:+ after) = true.
Proof.
  induction before as [|c before IH].
  - rewrite app_empty_l.
    destruct (needle +:+ after) eqn:Happ; cbn [pystr.contains];
      rewrite <- Happ, prefix_app; done.
  - rewrite app_cons. cbn [pystr.contains]. rewrite IH. apply orb_true_r.
Qed.

(** X10.  Tool look-up of a step on the registry as [registry.py] has it,
    for a name that is no cached workflow.  When the registry lists, the
    candidates are the listed tools whose [template_id] is the step's tool
    id and, only if there is none, the listed tools whose name it is; the
    first in listing order is the one run.  When there is no candidate the
    step raises a [RuntimeError] that names the step and the tool id, and
    the engine is left as it was. *)
Theorem step_tool_lookup execute (step_id tool_id : string) (kwargs : dict) σ
    (all_tools : list registry.ToolMetadata) :
  catalog.list_tools (entries (world σ)) (dirs (world σ)) = Ret all_tools ->
  find_workflow_by_id R (world σ) tool_id = None ->
  let by_template :=
    filter (fun m => registry.template_id m = Some tool_id) all_tools in
  let by_name :=
    filter (fun m => registry.name (registry.spec m) = tool_id) all_tools in
  concrete_tool_ids R (world σ) tool_id
  = Ret (map registry.tool_id
           (match by_template with [] => by_name | _ => by_template end))
  /\ (by_template = [] -> by_name = [] ->
      exists e,
        run_step_logic R execute step_id tool_id kwargs σ = (Raise e, σ)
        /\ exn_class e = "RuntimeError"
        /\ exn_msg e = "Step '" +:+ step_id
                       +:+ "': No registered tool found for template/name '"
                       +:+ tool_id +:+ "'"
        /\ wording.annotated_with step_id e = true)
  /\ (forall m others,
        (match by_template with [] => by_name | _ => by_template end)
        = m :: others ->
        registry.load (entries (world σ)) (registry.tool_id m)
        = Ret (Some m) ->
        resolves_to R (world σ) tool_id (registry.tool_id m) (Some m)).
Proof.
  intros Hlist Hnested by_template by_name.
  pose proof (concrete_tool_ids_listed (world σ) tool_id all_tools Hlist) as Hids.
  fold by_template by_name in Hids.
  split_and!.
  - exact Hids.
  - intros Ht Hn. eexists. split_and!.
    + unfold run_step_logic, bindM, query. rewrite Hnested, Hids, Ht, Hn.
      reflexivity.
    + reflexivity.
    + reflexivity.
    + unfold wording.annotated_with. cbn [exn_msg RuntimeError].
      apply (contains_app_r step_id "Step '").
  - intros m others Hfirst Hload. split_and!.
    + exact Hnested.
    + exists (map registry.tool_id others). by rewrite Hids, Hfirst.
    + exact Hload.
Qed.

(** X11.  The loops over the registry do not guard [load], and a step
    looks its tool up through them: when the metadata of one listed
    directory cannot be read, every step whose tool id is not a cached
    workflow raises that exception before any tool is looked at or
    called, whichever tool it names. *)
Theorem unreadable_entry_fails_every_step execute (step_id tool_id : string)
    (kwargs : dict) σ (before after : list string) (d : string) (e : exn) :
  dirs (world σ) = before ++ d :: after ->
  (forall d', d' ∈ before -> exists o, registry.load (entries (world σ)) d' = Ret o) ->
  registry.load (entries (world σ)) d = Raise e ->
  find_workflow_by_id R (world σ) tool_id = None ->
  run_step_logic R execute step_id tool_id kwargs σ = (Raise e, σ).
Proof.
  intros Hdirs Hbefore Hd Hnested.
  unfold run_step_logic, bindM, query. rewrite Hnested.
  unfold concrete_tool_ids. cbn [find_by_template_id operations].
  rewrite find_by_template_id_filter, Hdirs.
  by rewrite (list_tools_raises _ _ _ _ _ Hbefore Hd).
Qed.

(** X12.  From [register] to the call.  A tool registered under a
    template id, the first listed with that template, whose source file
    exists and whose module defines the function: a step that names the
    template (and no cached workflow) loads the function and reads its
    [__name__]; when that gives a name, the step calls the function once
    with the step's parameters and returns what it returns, the function
    being kept in the registry's cache and the result of a memoized tool
    in the engine's; when reading the [__name__] raises, the step raises
    that exception and the function is kept in the registry's cache
    without having been called. *)
Theorem registered_tool_runs execute (step_id template : string) (kwargs : dict) σ
    (fs : registry.files) (m : registry.ToolMetadata)
    (before after : list string) (tb ta : list registry.ToolMetadata)
    (func : F) (ext : Ext) :
  entries (world σ) = registry.register fs m ->
  dirs (world σ) = before ++ registry.tool_id m :: after ->
  registry.tool_id m ∉ before -> registry.tool_id m ∉ after ->
  catalog.list_tools fs before = Ret tb ->
  catalog.list_tools fs after = Ret ta ->
  (forall m', m' ∈ tb -> registry.template_id m' <> Some template) ->
  registry.template_id m = Some template ->
  find_workflow_by_id R (world σ) template = None ->
  executable_cache (world σ) !! registry.tool_id m = None ->
  execution_cache σ !! hash_inputs (registry.tool_id m) kwargs = None ->
  path_exists (outside (world σ))
    (under_cwd (outside (world σ)) (registry.source_path m)) = true ->
  import_function (under_cwd (outside (world σ)) (registry.source_path m))
    (registry.name (registry.spec m)) (outside (world σ)) = (Some func, ext) ->
  (forall name res r2,
      name_attr (call func) = Ret name ->
      call func kwargs (with_executable (registry.tool_id m) func ext (world σ))
      = (res, r2) ->
      run_step_logic R execute step_id template kwargs σ
      = (res,
         mkEngine
           (match res with
            | Ret result =>
                if pure_spec (registry.spec m)
                then <[hash_inputs (registry.tool_id m) kwargs := result]>
                       (execution_cache σ)
                else execution_cache σ
            | _ => execution_cache σ
            end)
           r2 (calls σ ++ [(registry.tool_id m, kwargs)])))
  /\ (forall e,
        name_attr (call func) = Raise e ->
        run_step_logic R execute step_id template kwargs σ
        = (Raise e,
           with_world (with_executable (registry.tool_id m) func ext (world σ)) σ)).
Proof.
  intros Hentries Hdirs Hb Ha Htb Hta Hfirst Htemplate Hnested Hmiss Hkey
    Hexists Himport.
  assert (catalog.list_tools (entries (world σ)) (dirs (world σ))
          = Ret (tb ++ m :: ta)) as Hlist.
  { rewrite Hentries, Hdirs, list_tools_app. cbn [catalog.list_tools].
    rewrite (list_tools_ext (registry.register fs m) fs before), Htb
      by (intros d Hd; apply load_register_ne; by intros ->).
    rewrite (list_tools_ext (registry.register fs m) fs after), Hta
      by (intros d Hd; apply load_register_ne; by intros ->).
    by rewrite load_registered. }
  assert (resolves_to R (world σ) template (registry.tool_id m) (Some m)) as Hres.
  { split_and!.
    - exact Hnested.
    - rewrite (concrete_tool_ids_listed _ _ _ Hlist).
      rewrite filter_app, filter_cons.
      assert (filter (fun m' => registry.template_id m' = Some template) tb = [])
        as ->.
      { clear -Hfirst. induction tb as [|m' tb IH]; [done|].
        rewrite filter_cons. case_decide as Hm'.
        - destruct (Hfirst m'); [by left | done].
        - apply IH. intros m'' H''. apply Hfirst. by right. }
      case_decide; [|done]. cbn [app map]. by eexists.
    - cbn [load operations]. rewrite Hentries. apply load_registered. }
  rewrite (run_step_logic_tool R _ _ _ _ _ _ _ Hres).
  cbn [memoized]. rewrite Hkey.
  assert (get_executable R (registry.tool_id m) (world σ)
          = (Ret (Some (call func)),
             with_executable (registry.tool_id m) func ext (world σ))) as ->.
  { cbn [get_executable operations]. unfold registry_object.get_executable.
    rewrite Hmiss, Hentries, load_registered, Hexists. cbn [negb].
    by rewrite Himport. }
  replace (if pure_spec (registry.spec m) then None else None)
    with (@None value) by by destruct (pure_spec _).
  split.
  - intros name res r2 -> ->. by destruct res.
  - by intros e ->.
Qed.

(** X20.  A tool that is registered but cannot be loaded.  When its
    source file does not exist the step raises the [FileNotFoundError] of
    [get_executable], whose message names the tool and the path but not
    the step; when the file exists and importing it fails, or the module
    lacks the function, the step raises the engine's [RuntimeError], which
    names the step and the tool.  No call is made and the engine's cache
    is left as it was in both cases. *)
Theorem step_load_failures execute (step_id tool_id : string) (kwargs : dict) σ
    (t : string) (m : registry.ToolMetadata) :
  resolves_to R (world σ) tool_id t (Some m) ->
  executable_cache (world σ) !! t = None ->
  execution_cache σ !! hash_inputs t kwargs = None ->
  (path_exists (outside (world σ))
     (under_cwd (outside (world σ)) (registry.source_path m)) = false ->
   run_step_logic R execute step_id tool_id kwargs σ
   = (Raise (FileNotFoundError
               ("Source file for tool " +:+ t +:+ " not found at "
                +:+ registry.path_str
                      (under_cwd (outside (world σ)) (registry.source_path m)))),
      σ))
  /\ (forall ext,
        path_exists (outside (world σ))
          (under_cwd (outside (world σ)) (registry.source_path m)) = true ->
        import_function (under_cwd (outside (world σ)) (registry.source_path m))
          (registry.name (registry.spec m)) (outside (world σ)) = (None, ext) ->
        run_step_logic R execute step_id tool_id kwargs σ
        = (Raise (RuntimeError
                    ("Step '" +:+ step_id
                     +:+ "': Could not load executable for tool '"
                     +:+ t +:+ "'")),
           with_world (with_outside ext (world σ)) σ)).
Proof.
  intros Hres Hmiss Hkey.
  pose proof Hres as (_ & _ & Hload). cbn [load operations] in Hload.
  rewrite (run_step_logic_tool R _ _ _ _ _ _ _ Hres), Hkey.
  replace (if memoized (Some m) then None else None)
    with (@None value) by by destruct (memoized _).
  cbn [get_executable operations]. unfold registry_object.get_executable.
  rewrite Hmiss, Hload.
  split.
  - intros ->. cbn [negb]. by destruct σ.
  - intros ext -> ->. reflexivity.
Qed.

End registry_in_workflow.

Section registry_in_workflow_witnesses.
Import py registry_object workflow object_fixtures.

Lemma test_object_lists (deterministic : bool) (paths : list string) :
  catalog.list_tools (entries (test_object deterministic paths))
    (dirs (test_object deterministic paths))
  = Ret [fixtures.print_msg_meta deterministic].
Proof.
  cbn [entries dirs test_object catalog.list_tools].
  rewrite load_register_ne by done. by rewrite load_registered.
Defined.

Lemma test_object_resolves (deterministic : bool) (paths : list string) :
  resolves_to test_operations (test_object deterministic paths)
    "print_msg_template" "print_msg" (Some (fixtures.print_msg_meta deterministic)).
Proof.
  split_and!.
  - reflexivity.
  - exists []. unfold test_operations.
    by rewrite (concrete_tool_ids_listed _ _ _ _ _ _ _ _
                  (test_object_lists deterministic paths)).
  - apply load_registered.
Defined.

Lemma step_tool_lookup_witness :
  let σ := mkEngine ∅ (test_object true ["."]) [] in
  concrete_tool_ids test_operations (world σ) "print_msg_template"
  = Ret ["print_msg"]
  /\ exists e,
       run_step_logic test_operations (execute test_operations 0) "step1"
         "no_such_tool" [] σ
       = (Raise e, σ)
       /\ exn_class e = "RuntimeError".
Proof.
  intros σ. split.
  - refine (proj1 (step_tool_lookup under_cwd path_exists import_function hydrate
                     call (execute test_operations 0) "step1" "print_msg_template"
                     [] σ [fixtures.print_msg_meta true] _ _)).
    + apply test_object_lists.
    + reflexivity.
  - destruct (proj1 (proj2 (step_tool_lookup under_cwd path_exists import_function
                              hydrate call (execute test_operations 0) "step1"
                              "no_such_tool" [] σ [fixtures.print_msg_meta true]
                              (test_object_lists true ["."]) eq_refl))
                eq_refl eq_refl) as (e & Hrun & Hclass & _).
    by exists e.
Defined.

Lemma unreadable_entry_fails_every_step_witness :
  let r := test_object true ["."] in
  let broken := mkRegistry (<["broken" := VDict []]> (entries r))
                  ["broken"; "print_msg"] ∅ [] ∅ ["."] in
  let σ := mkEngine ∅ broken [] in
  run_step_logic test_operations (execute test_operations 0) "step1"
    "print_msg_template" [("msg", VStr "Hello")] σ
  = (Raise (registry.KeyError "spec"), σ).
Proof.
  intros r broken σ.
  refine (unreadable_entry_fails_every_step under_cwd path_exists import_function
            hydrate call _ "step1" "print_msg_template" _ σ [] ["print_msg"]
            "broken" (registry.KeyError "spec") _ _ _ _).
  - reflexivity.
  - by intros d' ?%elem_of_nil.
  - reflexivity.
  - reflexivity.
Defined.

Lemma registered_tool_runs_witness :
  let σ := mkEngine ∅ (test_object true ["."]) [] in
  run_step_logic test_operations (execute test_operations 0) "step1"
    "print_msg_template" [("msg", VStr "Hello")] σ
  = (Ret (VStr "executed"),
     mkEngine {[ hash_inputs "print_msg" [("msg", VStr "Hello")] := VStr "executed" ]}
       (with_executable "print_msg" "print_msg" ["."] (test_object true ["."]))
       [("print_msg", [("msg", VStr "Hello")])]).
Proof.
  intros σ.
  refine (proj1 (registered_tool_runs under_cwd path_exists import_function
                   hydrate call
                   (execute test_operations 0) "step1" "print_msg_template"
                   [("msg", VStr "Hello")] σ ∅ (fixtures.print_msg_meta true)
                   ["cached_specs"] [] [] [] "print_msg" ["."]
                   _ _ _ _ _ _ _ _ _ _ _ _ _)
                "print_msg" (Ret (VStr "executed")) _ _ _).
  - reflexivity.
  - reflexivity.
  - by intros [=]%list_elem_of_singleton.
  - apply not_elem_of_nil.
  - reflexivity.
  - reflexivity.
  - by intros m' ?%elem_of_nil.
  - reflexivity.
  - reflexivity.
  - reflexivity.
  - reflexivity.
  - reflexivity.
  - reflexivity.
  - reflexivity.
  - reflexivity.
Defined.

Lemma step_load_failures_witness :
  let σ := mkEngine ∅ (test_object true []) [] in
  run_step_logic test_operations (execute test_operations 0) "step1"
    "print_msg_template" [("msg", VStr "Hello")] σ
  = (Raise (FileNotFoundError "Source file for tool print_msg not found at ."), σ).
Proof.
  intros σ.
  refine (proj1 (step_load_failures under_cwd path_exists import_function hydrate
                   call (execute test_operations 0) "step1" "print_msg_template"
                   [("msg", VStr "Hello")] σ "print_msg"
                   (fixtures.print_msg_meta true) _ _ _) _).
  - apply test_object_resolves.
  - reflexivity.
  - reflexivity.
  - reflexivity.
Defined.

End registry_in_workflow_witnesses.

(** ** Conditions without a comparison *)
Section condition_fallback.
Import py pystr workflow.

Lemma split_once_none (sep s : string) :
  contains sep s = false -> split_once sep s = None.
Proof.
  induction s as [|d s IH]; cbn [contains split_once].
  - rewrite orb_false_r. by intros ->.
  - intros [-> Hrest]%orb_false_elim. by rewrite (IH Hrest).
Qed.

Lemma evaluate_condition_fallback (condition : string) (context : dict) :
  condition <> "" ->
  contains "==" condition = false ->
  contains "!=" condition = false ->
  evaluate_condition condition context = truth_fallback condition context.
Proof.
  intros Hc Heq Hne. unfold evaluate_condition, compare_branch.
  apply String.eqb_neq in Hc. rewrite Hc.
  by rewrite (split_once_none "==" _ Heq), (split_once_none "!=" _ Hne).
Qed.

(** X15.  A condition text without [==] and [!=] is the truth value of
    what it resolves to.  [$name] is the truth value of
    [context.get(name)], false when the name is missing; [$step.field]
    that of the field, false when [step] is not a dict of the context;
    and a text that is not a variable is true unless it reads [false] (in
    any letter case) or nothing is left once its quotes are stripped: no
    other operator is evaluated, so [1 > 2] is true. *)
Theorem condition_without_comparison (condition : string) (context : dict) :
  condition <> "" ->
  contains "==" condition = false ->
  contains "!=" condition = false ->
  (forall name,
     condition = String "$" name -> contains "." name = false ->
     evaluate_condition condition context
     = Ret (truthy (from_option id VNone (dict_get name context))))
  /\ (forall step field,
        condition = String "$" (step +:+ String "." field) ->
        contains "." step = false ->
        evaluate_condition condition context
        = Ret (match dict_get step context with
               | Some (VDict d) => truthy (from_option id VNone (dict_get field d))
               | _ => false
               end))
  /\ (startswith "$" condition = false ->
      evaluate_condition condition context
      = Ret (if String.eqb (lower condition) "true" then true
             else if String.eqb (lower condition) "false" then false
             else negb (String.eqb
                          (strip_char squote (strip_char dquote condition)) ""))).
Proof.
  intros Hc Heq Hne.
  rewrite (evaluate_condition_fallback _ _ Hc Heq Hne). unfold truth_fallback.
  split_and!.
  - intros name -> Hdot. by rewrite resolve_value_name.
  - intros step field -> Hdot. rewrite resolve_value_field by done.
    by destruct (dict_get step context) as [[]|].
  - intros Hlit. rewrite resolve_value_literal by done.
    destruct (String.eqb (lower condition) "true"); [done|].
    by destruct (String.eqb (lower condition) "false").
Qed.

Lemma condition_without_comparison_witness :
  evaluate_condition "1 > 2" [] = Ret true
  /\ evaluate_condition "$flag" [("flag", VInt 0)] = Ret false
  /\ evaluate_condition "$step1.res" [] = Ret false.
Proof.
  split_and!.
  - exact (proj2 (proj2 (condition_without_comparison "1 > 2" []
                           ltac:(discriminate) eq_refl eq_refl)) eq_refl).
  - exact (proj1 (condition_without_comparison "$flag" [("flag", VInt 0)]
                    ltac:(discriminate) eq_refl eq_refl) "flag" eq_refl eq_refl).
  - exact (proj1 (proj2 (condition_without_comparison "$step1.res" []
                           ltac:(discriminate) eq_refl eq_refl))
             "step1" "res" eq_refl eq_refl).
Defined.

End condition_fallback.

(** ** Bindings that do not resolve *)
Section binding_failure.
Import py pystr workflow.
Context {W : Type} (R : ToolRegistry W).
Implicit Types (σ : engine W) (context kwargs : dict).

Lemma bind_params_raises before param binding after context item kwargs e :
  (forall pb, pb ∈ before ->
     exists v, resolve_value (templates.value pb.2) context item = Ret v) ->
  resolve_value (templates.value binding) context item = Raise e ->
  bind_params (before ++ (param, binding) :: after) context item kwargs = Raise e.
Proof.
  intros Hbefore He. revert kwargs.
  induction before as [|[p b] before IH]; intros kwargs; cbn [app bind_params].
  - by rewrite He.
  - destruct (Hbefore (p, b)) as [v Hv]; [by left|]. cbn [snd] in Hv.
    rewrite Hv. cbn [bind]. apply IH. intros pb Hpb. apply Hbefore. by right.
Qed.

Lemma exec_step_binding_raises execute step context σ e :
  condition_holds step context = Ret true ->
  present (templates.foreach step) = None ->
  bind_params (templates.bind step) context VNone [] = Raise e ->
  exec_step R execute step context σ = (Raise e, σ).
Proof.
  intros Hgo Hfor Hbind. unfold exec_step. unfold bindM at 1. unfold lift.
  rewrite Hgo. cbn [negb]. rewrite Hfor. unfold bindM at 1. unfold lift.
  by rewrite Hbind.
Qed.

(** X16.  A binding [$step.field] whose [step] is not a dict of the
    context does not resolve: the step that carries it raises the
    [ValueError] of the resolver before its tool is looked up or called,
    the engine is left as it was, and the workflow ends there.  A step
    skipped by its condition writes no entry, so a later step that binds
    one of its outputs ends the workflow in this way. *)
Theorem unresolved_binding_aborts step context
    (before after : list (string * templates.StepBinding))
    (param ref field : string) :
  condition_holds step context = Ret true ->
  present (templates.foreach step) = None ->
  templates.bind step
  = before ++ (param, templates.mkStepBinding (String "$" (ref +:+ String "." field)))
           :: after ->
  (forall pb, pb ∈ before ->
     exists v, resolve_value (templates.value pb.2) context VNone = Ret v) ->
  contains "." ref = false ->
  (forall d, dict_get ref context <> Some (VDict d)) ->
  let e := ValueError ("Could not resolve step '" +:+ ref +:+ "' in context.") in
  (forall execute σ, exec_step R execute step context σ = (Raise e, σ))
  /\ (forall fuel comp_spec inputs earlier later σ0 σ,
        templates.steps comp_spec = earlier ++ step :: later ->
        exec_steps R (execute R fuel) earlier inputs σ0 = (Ret context, σ) ->
        execute R (S fuel) comp_spec inputs σ0 = (Raise e, σ))
  /\ (forall fuel comp_spec skipped later σ,
        templates.steps comp_spec = skipped :: step :: later ->
        templates.id skipped = ref ->
        condition_holds skipped context = Ret false ->
        execute R (S fuel) comp_spec context σ = (Raise e, σ)).
Proof.
  intros Hgo Hfor Hbind Hbefore Hdot Hmissing e.
  assert (bind_params (templates.bind step) context VNone [] = Raise e) as Hraise.
  { rewrite Hbind. apply bind_params_raises; [done|].
    cbn [templates.value]. rewrite resolve_value_field by done.
    destruct (dict_get ref context) as [[| | | | |d]|] eqn:Href; try done.
    by destruct (Hmissing d). }
  assert (forall execute σ, exec_step R execute step context σ = (Raise e, σ))
    as Hstep.
  { intros execute σ. by apply exec_step_binding_raises. }
  split_and!.
  - exact Hstep.
  - intros fuel comp_spec inputs earlier later σ0 σ Hsteps Hearlier.
    cbn [execute]. rewrite Hsteps, exec_steps_app, Hearlier.
    cbn [exec_steps]. unfold bindM. by rewrite Hstep.
  - intros fuel comp_spec skipped later σ Hsteps _ Hskip.
    cbn [execute]. rewrite Hsteps. cbn [exec_steps]. unfold bindM at 1.
    assert (exec_step R (execute R fuel) skipped context σ = (Ret context, σ))
      as ->.
    { unfold exec_step, bindM, lift. by rewrite Hskip. }
    unfold bindM. by rewrite Hstep.
Qed.

End binding_failure.

Section binding_failure_witness.
Import py workflow fixtures.

Lemma unresolved_binding_aborts_witness :
  let R := test_registry true print_msg_tool in
  execute R 1
    (pipeline [step_on "step1" "'Hello'" None (Some "$missing.flag");
               step_on "step2" "$step1.res" None None])
    [] fresh
  = (Raise (ValueError "Could not resolve step 'step1' in context."), fresh).
Proof.
  intros R.
  refine (proj2 (proj2 (unresolved_binding_aborts R
                          (step_on "step2" "$step1.res" None None) []
                          [] [] "msg" "step1" "res" _ _ _ _ _ _))
            0%nat _ (step_on "step1" "'Hello'" None (Some "$missing.flag")) []
            fresh _ _ _).
  - reflexivity.
  - reflexivity.
  - reflexivity.
  - by intros pb ?%elem_of_nil.
  - reflexivity.
  - discriminate.
  - reflexivity.
  - reflexivity.
  - reflexivity.
Defined.

End binding_failure_witness.

(** ** What the engine reads of a workflow *)
Section engine_reads.
Import py workflow.
Context {W : Type} (R : ToolRegistry W).
Implicit Types (σ : engine W) (context : dict).

Lemma foreach_loop_reads execute step step' context items acc σ :
  templates.id step = templates.id step' ->
  templates.tool_id step = templates.tool_id step' ->
  templates.bind step = templates.bind step' ->
  foreach_loop R execute step context items acc σ
  = foreach_loop R execute step' context items acc σ.
Proof.
  intros Hid Htool Hbind. revert acc σ.
  induction items as [|item items IH]; intros acc σ; [done|].
  rewrite !foreach_loop_cons, Hid, Htool, Hbind.
  destruct (bind_params _ _ _ _) as [kwargs|e|]; [|done..].
  destruct (run_step_logic _ _ _ _ _ _) as [[result|e|] σ1]; [|done..].
  apply IH.
Qed.

(** X17.  Of a step the engine reads [id], [tool_id], [bind], [foreach],
    [outputs] and [if_condition], and of a workflow only [steps]: steps
    that agree on these six fields execute alike whatever [then_tool_id]
    and [then_bind] hold (a [then] branch is never run), and workflows
    with the same steps execute alike whatever inputs, postconditions and
    tags they declare (a declared input that is missing is not
    reported). *)
Theorem engine_reads_six_fields :
  (forall execute step step' context σ,
     templates.id step = templates.id step' ->
     templates.tool_id step = templates.tool_id step' ->
     templates.bind step = templates.bind step' ->
     templates.foreach step = templates.foreach step' ->
     templates.outputs step = templates.outputs step' ->
     templates.if_condition step = templates.if_condition step' ->
     exec_step R execute step context σ = exec_step R execute step' context σ)
  /\ (forall fuel comp_spec comp_spec' inputs σ,
        templates.steps comp_spec = templates.steps comp_spec' ->
        execute R fuel comp_spec inputs σ = execute R fuel comp_spec' inputs σ).
Proof.
  split.
  - intros execute step step' context σ Hid Htool Hbind Hfor Hout Hif.
    unfold exec_step, condition_holds, store_output, bindM, lift.
    rewrite Hif, Hfor, Hbind, Hout, Hid, Htool.
    destruct (match present (templates.if_condition step') with
              | Some condition => evaluate_condition condition context
              | None => Ret true
              end) as [go|e|]; [|done..].
    destruct (negb go); [done|].
    destruct (present (templates.foreach step')) as [target|]; [|done].
    destruct (resolve_value target context VNone) as [[| | | |items|]|e|];
      try done.
    by rewrite (foreach_loop_reads _ step step').
  - intros fuel comp_spec comp_spec' inputs σ Hsteps.
    destruct fuel as [|fuel]; [done|]. cbn [execute]. by rewrite Hsteps.
Qed.

(** X18.  Workflows compose: running the steps of one workflow and then,
    on the context it returns and the engine it leaves, the steps of a
    second is running the workflow that has the steps of both; an
    exception in the first part ends the whole.  The workflow without
    steps returns its inputs and leaves the engine alone. *)
Theorem execute_steps_compose (fuel : nat)
    (whole first second : templates.CompositionSpec) (inputs : dict) σ :
  templates.steps whole = templates.steps first ++ templates.steps second ->
  execute R (S fuel) whole inputs σ
  = match execute R (S fuel) first inputs σ with
    | (Ret context1, σ1) => execute R (S fuel) second context1 σ1
    | (Raise e, σ1) => (Raise e, σ1)
    | (Diverge, σ1) => (Diverge, σ1)
    end
  /\ (templates.steps first = [] ->
      execute R (S fuel) first inputs σ = (Ret inputs, σ)
      /\ execute R (S fuel) whole inputs σ = execute R (S fuel) second inputs σ).
Proof.
  intros Hsteps.
  assert (execute R (S fuel) whole inputs σ
          = match execute R (S fuel) first inputs σ with
            | (Ret context1, σ1) => execute R (S fuel) second context1 σ1
            | (Raise e, σ1) => (Raise e, σ1)
            | (Diverge, σ1) => (Diverge, σ1)
            end) as Hwhole.
  { cbn [execute]. rewrite Hsteps. apply exec_steps_app. }
  split; [exact Hwhole|].
  intros Hempty.
  assert (execute R (S fuel) first inputs σ = (Ret inputs, σ)) as Hfirst.
  { cbn [execute]. by rewrite Hempty. }
  split; [exact Hfirst|]. by rewrite Hwhole, Hfirst.
Qed.

End engine_reads.

Section engine_reads_witnesses.
Import py workflow fixtures.

Lemma engine_reads_six_fields_witness :
  let R := test_registry true print_msg_tool in
  let step := step_on "step1" "'Hello'" None None in
  let step' :=
    templates.mkCompositionStep "step1" "print_msg_template"
      [("msg", templates.mkStepBinding "'Hello'")] None [("res", "str")] None
      (Some "other_tool") [("msg", templates.mkStepBinding "'Bye'")] in
  exec_step R (execute R 0) step' [] fresh
  = exec_step R (execute R 0) step [] fresh.
Proof.
  intros R step step'.
  apply (proj1 (engine_reads_six_fields R)); reflexivity.
Defined.

Lemma execute_steps_compose_witness :
  let R := test_registry true print_msg_tool in
  let a := step_on "step1" "'Hello'" None None in
  let b := step_on "step2" "$step1.res" None None in
  execute R 1 (pipeline [a; b]) [] fresh
  = match execute R 1 (pipeline [a]) [] fresh with
    | (Ret context1, σ1) => execute R 1 (pipeline [b]) context1 σ1
    | (Raise e, σ1) => (Raise e, σ1)
    | (Diverge, σ1) => (Diverge, σ1)
    end.
Proof.
  intros R a b.
  apply (proj1 (execute_steps_compose R 0 (pipeline [a; b]) (pipeline [a])
                  (pipeline [b]) [] fresh eq_refl)).
Defined.

End engine_reads_witnesses.

(** ** Memoization keys of different tools *)
Section key_separation.
Import py pystr workflow.

Lemma hex_no_colon (s : string) :
  all_chars sha256.is_hex s = true -> contains ":" s = false.
Proof.
  induction s as [|c s IH]; [done|].
  cbn [all_chars contains]. intros [Hc Hs]%andb_true_iff.
  rewrite prefix_one, (IH Hs), orb_false_r.
  apply Ascii.eqb_neq. intros <-. done.
Qed.

Lemma key_split (tool_id : string) (kwargs : dict) :
  contains ":" tool_id = false ->
  exists s,
    hash_inputs tool_id kwargs = tool_id +:+ String ":" s
    /\ split_once ":" (hash_inputs tool_id kwargs) = Some (tool_id, s).
Proof.
  intros Hno. unfold hash_inputs. eexists. split; [reflexivity|].
  by apply split_once_char_app.
Qed.

Lemma resolve_id_no_colon (spec : registry.ToolSpec) (code : string) :
  contains ":" (registry.resolve_id spec code) = false.
Proof. apply hex_no_colon, hex_of_regs_chars. Qed.

(** X19.  The key of a memoized result starts with the tool id and a
    colon.  For tool ids without a colon the id can be read back from the
    key, so the results of two different tools never share a key,
    whatever their parameters; the hexadecimal ids that [resolve_id]
    computes have no colon. *)
Theorem hash_inputs_separates_tools :
  (forall tool_id tool_id' kwargs kwargs',
     contains ":" tool_id = false ->
     contains ":" tool_id' = false ->
     hash_inputs tool_id kwargs = hash_inputs tool_id' kwargs' ->
     tool_id = tool_id')
  /\ (forall spec code, contains ":" (registry.resolve_id spec code) = false)
  /\ (forall spec code spec' code' kwargs kwargs',
        hash_inputs (registry.resolve_id spec code) kwargs
        = hash_inputs (registry.resolve_id spec' code') kwargs' ->
        registry.resolve_id spec code = registry.resolve_id spec' code').
Proof.
  assert (forall tool_id tool_id' kwargs kwargs',
            contains ":" tool_id = false ->
            contains ":" tool_id' = false ->
            hash_inputs tool_id kwargs = hash_inputs tool_id' kwargs' ->
            tool_id = tool_id') as Hsep.
  { intros tool_id tool_id' kwargs kwargs' Hno Hno' Hkey.
    destruct (key_split tool_id kwargs Hno) as (s & _ & Hs).
    destruct (key_split tool_id' kwargs' Hno') as (s' & _ & Hs').
    rewrite Hkey in Hs. congruence. }
  split_and!.
  - exact Hsep.
  - apply resolve_id_no_colon.
  - intros spec code spec' code' kwargs kwargs'.
    apply Hsep; apply resolve_id_no_colon.
Qed.

Lemma hash_inputs_separates_tools_witness :
  contains ":" "tool_a" = false
  /\ hash_inputs "tool_a" [("x", VInt 1)] <> hash_inputs "tool_b" [("x", VInt 1)].
Proof.
  split; [reflexivity|]. intros Hkey.
  by apply (proj1 hash_inputs_separates_tools "tool_a" "tool_b") in Hkey.
Defined.

End key_separation.

(** ** The registry: search and artifact paths after [register] *)
Section registered_search.
Import py registry catalog.
Local Open Scope outcome_scope.

Lemma prefix_refl (s : string) : String.prefix s s = true.
Proof.
  induction s as [|c s IH]; [done|]. cbn [String.prefix].
  by destruct (ascii_dec c c).
Qed.

Lemma contains_refl (s : string) : pystr.contains s s = true.
Proof. destruct s; cbn [pystr.contains]; by rewrite prefix_refl. Qed.

Lemma keyword_score_name (query_lower : string) (tool : ToolMetadata) :
  pystr.contains query_lower (pystr.lower (name (spec tool))) = true ->
  3 <= keyword_score query_lower tool.
Proof.
  intros Hname. unfold keyword_score. rewrite keyword_fold, Hname.
  set (n := length _). clearbody n.
  destruct (pystr.contains query_lower (pystr.lower (docstring (spec tool))));
    lia.
Qed.

(** X21.  A registered tool is found by the keyword search: after
    [register], on a registry whose other directories load, a query that
    occurs in the tool's name (letter case aside; the name itself is such
    a query) gives the tool a score of at least 3, and the search returns
    it whenever [top_k] is at least the number of listed tools. *)
Theorem registered_tool_is_found (fs : files) (m : ToolMetadata)
    (before after : list string) (tb ta : list ToolMetadata)
    (query : string) (top_k : Z) :
  tool_id m ∉ before -> tool_id m ∉ after ->
  list_tools fs before = Ret tb ->
  list_tools fs after = Ret ta ->
  pystr.contains (pystr.lower query) (pystr.lower (name (spec m))) = true ->
  Z.of_nat (length tb + length ta + 1) <= top_k ->
  pystr.contains (pystr.lower (name (spec m))) (pystr.lower (name (spec m))) = true
  /\ 3 <= keyword_score (pystr.lower query) m
  /\ exists found,
       search_tools (register fs m) (before ++ tool_id m :: after) query top_k
       = Ret found
       /\ m ∈ found.
Proof.
  intros Hb Ha Htb Hta Hname Hk.
  pose proof (keyword_score_name _ _ Hname) as Hscore.
  split; [apply contains_refl|]. split; [exact Hscore|].
  assert (list_tools (register fs m) (before ++ tool_id m :: after)
          = Ret (tb ++ m :: ta)) as Hlist.
  { rewrite list_tools_app. cbn [list_tools].
    rewrite (list_tools_ext (register fs m) fs before), Htb
      by (intros d Hd; apply load_register_ne; by intros ->).
    rewrite (list_tools_ext (register fs m) fs after), Hta
      by (intros d Hd; apply load_register_ne; by intros ->).
    by rewrite load_registered. }
  eexists. split; [by apply search_tools_sorted|].
  set (score := keyword_score (pystr.lower query)) in *.
  set (matching := filter (fun tool => 0 < score tool) (tb ++ m :: ta)).
  assert (m ∈ matching) as Hm.
  { apply list_elem_of_filter. split; [lia|].
    apply elem_of_app. right. by left. }
  assert (length matching <= length tb + length ta + 1)%nat as Hlen.
  { etrans; [apply length_filter|]. rewrite length_app. cbn. lia. }
  unfold pytext.slice_to. destruct (Z.leb_spec 0 top_k); [|lia].
  rewrite take_ge.
  - by rewrite sort_reverse_perm.
  - rewrite (Permutation_length (sort_reverse_perm score matching)). lia.
Qed.

Lemma registered_tool_is_found_witness :
  exists found,
    search_tools (register ∅ (fixtures.print_msg_meta true))
      ["cached_specs"; "print_msg"] "PRINT_MSG" 5
    = Ret found
    /\ fixtures.print_msg_meta true ∈ found.
Proof.
  refine (proj2 (proj2 (registered_tool_is_found ∅ (fixtures.print_msg_meta true)
                          ["cached_specs"] [] [] [] "PRINT_MSG" 5 _ _ _ _ _ _))).
  - by intros [=]%list_elem_of_singleton.
  - apply not_elem_of_nil.
  - reflexivity.
  - reflexivity.
  - reflexivity.
  - cbn. lia.
Defined.

End registered_search.

Section artifact_facts.
Import py registry catalog.
Local Open Scope outcome_scope.
Context (resolve : Path -> Path).

Lemma get_all_artifact_paths_listed (fs : files) (dirs : list string) :
  get_all_artifact_paths resolve fs dirs
  = do tools <- list_tools fs dirs;
    Ret (⋃ map (fun m => {[ resolve (source_path m); resolve (tests_path m) ]})
             tools).
Proof.
  induction dirs as [|d dirs IH]; cbn [get_all_artifact_paths list_tools]; [done|].
  destruct (load fs d) as [[m|]|e|]; cbn [bind]; [| |done..]; rewrite IH;
    by destruct (list_tools fs dirs) as [tools|e|].
Qed.

(** X22.  [get_all_artifact_paths] walks the registry as [list_tools]
    does: it raises exactly when [list_tools] raises, and otherwise
    returns the resolved source and tests paths of the listed tools and
    no other path; the path of the test results is not among them unless
    it resolves to one of those. *)
Theorem get_all_artifact_paths_spec (fs : files) (dirs : list string) :
  (forall e, get_all_artifact_paths resolve fs dirs = Raise e
             <-> list_tools fs dirs = Raise e)
  /\ (forall tools,
        list_tools fs dirs = Ret tools ->
        exists paths,
          get_all_artifact_paths resolve fs dirs = Ret paths
          /\ forall p,
               p ∈ paths <->
               exists m, m ∈ tools
                         /\ (p = resolve (source_path m)
                             \/ p = resolve (tests_path m))).
Proof.
  rewrite get_all_artifact_paths_listed. split.
  - intros e. destruct (list_tools fs dirs) as [tools|e'|]; cbn [bind];
      split; congruence.
  - intros tools ->. cbn [bind]. eexists. split; [reflexivity|].
    intros p. rewrite elem_of_union_list. split.
    + intros (X & (m & -> & Hm)%list_elem_of_fmap & Hp).
      exists m. split; [done|]. set_solver.
    + intros (m & Hm & Hp). eexists. split.
      * apply list_elem_of_fmap. by exists m.
      * set_solver.
Qed.

End artifact_facts.

Section artifact_witness.
Import py registry catalog.

Lemma get_all_artifact_paths_spec_witness :
  exists paths,
    get_all_artifact_paths id (register ∅ (fixtures.print_msg_meta true))
      ["print_msg"]
    = Ret paths
    /\ PurePath "." ∈ paths.
Proof.
  destruct (proj2 (get_all_artifact_paths_spec id
                     (register ∅ (fixtures.print_msg_meta true)) ["print_msg"])
              [fixtures.print_msg_meta true]) as (paths & Hpaths & Hin).
  - cbn [list_tools]. by rewrite load_registered.
  - exists paths. split; [exact Hpaths|].
    apply Hin. exists (fixtures.print_msg_meta true). split; [by left | by left].
Defined.

End artifact_witness.

(** ** The engine: what gets into the cache *)
Section cache_from_calls_facts.
Import py workflow engine_invariant.
Context {W : Type} (R : ToolRegistry W).
Implicit Types (σ : engine W) (kwargs : dict).

Lemma cache_from_calls_same {A} (m : M (W := W) A) :
  (forall σ, exists r, m σ = (r, σ)) -> cache_from_calls m.
Proof.
  intros Hm σ r σ' Hrun. destruct (Hm σ) as [r' Hr]. rewrite Hr in Hrun.
  injection Hrun as <- <-. exists []. split; [by rewrite app_nil_r | by left].
Qed.

Lemma cache_from_calls_ret {A} (a : A) : cache_from_calls (W := W) (ret a).
Proof. apply cache_from_calls_same. by eexists. Qed.

Lemma cache_from_calls_raise {A} (e : exn) :
  cache_from_calls (W := W) (A := A) (raise e).
Proof. apply cache_from_calls_same. by eexists. Qed.

Lemma cache_from_calls_lift {A} (o : outcome A) : cache_from_calls (W := W) (lift o).
Proof. apply cache_from_calls_same. by eexists. Qed.

Lemma cache_from_calls_bind {A B} (m : M A) (k : A -> M (W := W) B) :
  cache_from_calls m -> (forall a, cache_from_calls (k a)) ->
  cache_from_calls (bindM m k).
Proof.
  intros Hm Hk σ r σ'. unfold bindM.
  destruct (m σ) as [[a|e|] σ1] eqn:Hrun;
    try (intros [= <- <-]; by eapply Hm).
  intros Hka.
  destruct (Hm _ _ _ Hrun) as (n1 & Hcalls1 & Hkeys1).
  destruct (Hk a _ _ _ Hka) as (n2 & Hcalls2 & Hkeys2).
  exists (n1 ++ n2). split; [by rewrite Hcalls2, Hcalls1, app_assoc|].
  intros key [Hold|(t & kwargs & Hin & ->)]%Hkeys2.
  - destruct (Hkeys1 key Hold) as [?|(t & kwargs & Hin & ->)]; [by left|].
    right. exists t, kwargs. split; [|done]. apply elem_of_app. by left.
  - right. exists t, kwargs. split; [|done]. apply elem_of_app. by right.
Qed.

Lemma cache_from_calls_reraise {A} (m : M (W := W) A) :
  cache_from_calls m -> cache_from_calls (catch m (fun e => raise e)).
Proof. intros Hm σ r σ'. rewrite reraise_id. apply Hm. Qed.

Lemma cache_from_calls_run_step_logic execute step_id tool_id kwargs :
  (forall nested inputs, cache_from_calls (execute nested inputs)) ->
  cache_from_calls (run_step_logic R execute step_id tool_id kwargs).
Proof.
  intros Hex σ r σ'.
  unfold run_step_logic, bindM, query, cache_lookup, load_executable,
    invoke, cache_store, raise, ret, with_world.
  destruct (find_workflow_by_id R (world σ) tool_id) as [nested|].
  { destruct (execute nested kwargs σ) as [[final|e|] σ1] eqn:Hrun;
      intros [= <- <-]; by eapply Hex. }
  destruct (concrete_tool_ids R (world σ) tool_id) as [[|t others]|e|];
    try (intros [= <- <-]; exists []; split; [cbn; by rewrite app_nil_r | by left]).
  destruct (load R (world σ) t) as [meta|e|];
    try (intros [= <- <-]; exists []; split; [cbn; by rewrite app_nil_r | by left]).
  destruct (if memoized meta then execution_cache σ !! hash_inputs t kwargs
            else None) as [hit|];
    try (intros [= <- <-]; exists []; split; [cbn; by rewrite app_nil_r | by left]).
  destruct (get_executable R t (world σ)) as [[[f|]|e|] w1]; cbn;
    try (intros [= <- <-]; exists []; split; [cbn; by rewrite app_nil_r | by left]).
  unfold lift. destruct (name_attr f) as [name|e|]; cbn;
    try (intros [= <- <-]; exists []; split; [cbn; by rewrite app_nil_r | by left]).
  destruct (f kwargs w1) as [[res|e|] w2]; cbn.
  - destruct (memoized meta); intros [= <- <-]; cbn;
      exists [(t, kwargs)]; (split; [done|]); intros k Hk.
    + apply lookup_insert_is_Some in Hk as [<-|[_ Hk]]; [|by left].
      right. exists t, kwargs. split; [by left | done].
    + by left.
  - intros [= <- <-]; cbn. exists [(t, kwargs)]. split; [done | by left].
  - intros [= <- <-]; cbn. exists [(t, kwargs)]. split; [done | by left].
Qed.

Lemma cache_from_calls_foreach_loop execute step context items step_outputs :
  (forall nested inputs, cache_from_calls (execute nested inputs)) ->
  cache_from_calls (foreach_loop R execute step context items step_outputs).
Proof.
  intros Hex. revert step_outputs.
  induction items as [|item items IH]; intros step_outputs; cbn [foreach_loop].
  - apply cache_from_calls_ret.
  - apply cache_from_calls_bind; [apply cache_from_calls_lift|]. intros kwargs.
    apply cache_from_calls_bind; [|by intros result].
    by apply cache_from_calls_reraise, cache_from_calls_run_step_logic.
Qed.

Lemma cache_from_calls_exec_step execute step context :
  (forall nested inputs, cache_from_calls (execute nested inputs)) ->
  cache_from_calls (exec_step R execute step context).
Proof.
  intros Hex. unfold exec_step.
  apply cache_from_calls_bind; [apply cache_from_calls_lift|]. intros go.
  destruct (negb go); [apply cache_from_calls_ret|].
  destruct (present (templates.foreach step)) as [target|].
  - apply cache_from_calls_bind; [apply cache_from_calls_lift|]. intros coll.
    destruct coll; try apply cache_from_calls_raise.
    apply cache_from_calls_bind; [by apply cache_from_calls_foreach_loop|].
    intros outs. apply cache_from_calls_ret.
  - apply cache_from_calls_bind; [apply cache_from_calls_lift|]. intros kwargs.
    apply cache_from_calls_bind; [|intros result; apply cache_from_calls_ret].
    by apply cache_from_calls_reraise, cache_from_calls_run_step_logic.
Qed.

Lemma cache_from_calls_exec_steps execute steps context :
  (forall nested inputs, cache_from_calls (execute nested inputs)) ->
  cache_from_calls (exec_steps R execute steps context).
Proof.
  intros Hex. revert context.
  induction steps as [|step steps IH]; intros context; cbn [exec_steps].
  - apply cache_from_calls_ret.
  - apply cache_from_calls_bind; [by apply cache_from_calls_exec_step | done].
Qed.

Lemma cache_from_calls_execute fuel comp_spec inputs :
  cache_from_calls (execute R fuel comp_spec inputs).
Proof.
  revert comp_spec inputs. induction fuel as [|fuel IH]; intros comp_spec inputs.
  - apply cache_from_calls_same. by eexists.
  - cbn [execute]. by apply cache_from_calls_exec_steps.
Qed.

(** X23.  What [execute] does to the engine's cache, nested workflows
    included: the trace of calls only grows; every key the cache holds
    afterwards was there before or is the key ([_hash_inputs] of the tool
    id and parameters) of a call made during the execution, so nothing is
    cached for a tool that was not called; and an execution that makes
    no call leaves the cache exactly as it was. *)
Theorem cache_keys_come_from_calls (fuel : nat)
    (comp_spec : templates.CompositionSpec) (inputs : dict) σ
    (r : outcome dict) σ' :
  execute R fuel comp_spec inputs σ = (r, σ') ->
  exists new_calls,
    calls σ' = calls σ ++ new_calls
    /\ (forall k, is_Some (execution_cache σ' !! k) ->
          is_Some (execution_cache σ !! k)
          \/ exists t kwargs,
               (t, kwargs) ∈ new_calls /\ k = hash_inputs t kwargs)
    /\ (new_calls = [] -> execution_cache σ' = execution_cache σ).
Proof.
  intros Hrun.
  destruct (cache_from_calls_execute fuel comp_spec inputs _ _ _ Hrun)
    as (new_calls & Hcalls & Hkeys).
  exists new_calls. split; [exact Hcalls|]. split; [exact Hkeys|].
  intros ->.
  pose proof (keeps_cache_execute R fuel comp_spec inputs _ _ _ Hrun) as Hsub.
  apply map_eq. intros k.
  destruct (execution_cache σ' !! k) as [v|] eqn:Hv.
  - destruct (Hkeys k) as [[v' Hv']|(t & kwargs & Hin & _)]; [by eexists| |].
    + rewrite Hv'. by rewrite (lookup_weaken _ _ _ _ Hv' Hsub) in Hv.
    + by apply elem_of_nil in Hin.
  - destruct (execution_cache σ !! k) as [v'|] eqn:Hv'; [|done].
    by rewrite (lookup_weaken _ _ _ _ Hv' Hsub) in Hv.
Qed.

End cache_from_calls_facts.

Section cache_from_calls_witness.
Import py workflow fixtures.

Lemma cache_keys_come_from_calls_witness :
  let R := test_registry true print_msg_tool in
  let spec := pipeline [step_on "step1" "'Hello'" None None] in
  exists σ' new_calls,
    execute R 1 spec [] fresh = (Ret [("step1", VDict [("res", VStr "executed")])], σ')
    /\ calls σ' = calls fresh ++ new_calls
    /\ forall k, is_Some (execution_cache σ' !! k) ->
         is_Some (execution_cache fresh !! k)
         \/ exists t kwargs, (t, kwargs) ∈ new_calls /\ k = hash_inputs t kwargs.
Proof.
  intros R spec.
  destruct (execute R 1 spec [] fresh) as [r σ'] eqn:Hrun.
  destruct (cache_keys_come_from_calls R 1 spec [] fresh r σ' Hrun)
    as (new_calls & Hcalls & Hkeys & _).
  exists σ', new_calls. split; [|by split].
  vm_compute in Hrun. by injection Hrun as <- <-.
Defined.

End cache_from_calls_witness.

(** ** [parsing.py]: the brace block of a text *)
Section brace_block.
Import py pystr pytext parsing.

Lemma length_app_s (a b : string) :
  String.length (a +:+ b) = (String.length a + String.length b)%nat.
Proof. induction a as [|c a IH]; [done|]. rewrite app_cons. cbn. by rewrite IH. Qed.

Lemma find_app (c : ascii) (pre post : string) :
  find c pre = None -> find c (pre +:+ String c post) = Some (String.length pre).
Proof.
  induction pre as [|d pre IH]; intros Hno.
  - rewrite app_empty_l. cbn. by rewrite Ascii.eqb_refl.
  - rewrite app_cons. cbn [find String.length] in *.
    destruct (Ascii.eqb d c); [done|].
    destruct (find c pre); [done|]. by rewrite IH.
Qed.

Lemma rfind_app (c : ascii) (pre post : string) :
  rfind c post = None -> rfind c (pre +:+ String c post) = Some (String.length pre).
Proof.
  intros Hno. induction pre as [|d pre IH].
  - rewrite app_empty_l. cbn. by rewrite Hno, Ascii.eqb_refl.
  - rewrite app_cons. cbn [rfind String.length]. by rewrite IH.
Qed.

Lemma find_some (c : ascii) (s : string) (i : nat) :
  find c s = Some i ->
  exists pre post,
    s = pre +:+ String c post /\ String.length pre = i /\ find c pre = None.
Proof.
  revert i. induction s as [|d s IH]; intros i; cbn [find]; [done|].
  destruct (Ascii.eqb_spec d c) as [->|Hne].
  - intros [= <-]. by exists "", s.
  - destruct (find c s) as [j|] eqn:Hj; [|done]. intros [= <-].
    destruct (IH j eq_refl) as (pre & post & -> & <- & Hpre).
    exists (String d pre), post. split_and!; [done..|].
    cbn [find]. apply Ascii.eqb_neq in Hne. by rewrite Hne, Hpre.
Qed.

Lemma rfind_some (c : ascii) (s : string) (j : nat) :
  rfind c s = Some j ->
  exists pre post,
    s = pre +:+ String c post /\ String.length pre = j /\ rfind c post = None.
Proof.
  revert j. induction s as [|d s IH]; intros j; cbn [rfind]; [done|].
  destruct (rfind c s) as [i|] eqn:Hi.
  - intros [= <-].
    destruct (IH i eq_refl) as (pre & post & -> & <- & Hpost).
    by exists (String d pre), post.
  - destruct (Ascii.eqb_spec d c) as [->|Hne]; [|done].
    intros [= <-]. by exists "", s.
Qed.

Lemma substring_skip (a s : string) (m : nat) :
  String.substring (String.length a) m (a +:+ s) = String.substring 0 m s.
Proof. induction a as [|c a IH]; [done|]. rewrite app_cons. cbn. apply IH. Qed.

Lemma substring_take (b c : string) :
  String.substring 0 (String.length b) (b +:+ c) = b.
Proof.
  induction b as [|x b IH]; [by destruct c|].
  rewrite app_cons. cbn. by rewrite IH.
Qed.

(** Two cuts of one text, the first further left. *)
Lemma app_split (a p b q : string) (c d : ascii) :
  a +:+ String c p = b +:+ String d q ->
  (String.length a < String.length b)%nat ->
  exists mid, b = a +:+ String c mid /\ p = mid +:+ String d q.
Proof.
  revert b. induction a as [|x a IH]; intros b Heq Hlen.
  - destruct b as [|y b]; [cbn in Hlen; lia|].
    rewrite app_empty_l, app_cons in Heq. injection Heq as <- ->.
    by exists b.
  - destruct b as [|y b]; [cbn in Hlen; lia|].
    rewrite !app_cons in Heq. injection Heq as <- Heq.
    destruct (IH b Heq) as (mid & -> & ->); [cbn in Hlen; lia|].
    by exists mid.
Qed.

Lemma extract_brace_block_found (pre inner post : string) :
  find "{" pre = None -> rfind "}" post = None ->
  extract_brace_block (pre +:+ String "{" (inner +:+ String "}" post))
  = Some (String "{" (inner +:+ String "}" "")).
Proof.
  intros Hpre Hpost. unfold extract_brace_block.
  rewrite (find_app _ _ _ Hpre).
  replace (pre +:+ String "{" (inner +:+ String "}" post))
    with ((pre +:+ String "{" inner) +:+ String "}" post)
    by by rewrite app_assoc_s, app_cons.
  rewrite (rfind_app _ _ _ Hpost), length_app_s. cbn [String.length].
  destruct (Nat.ltb_spec (String.length pre)
              (String.length pre + S (String.length inner))); [|lia].
  f_equal. unfold slice.
  rewrite app_assoc_s, app_cons, substring_skip.
  replace (String.length pre + S (String.length inner) + 1 - String.length pre)%nat
    with (String.length (String "{" (inner +:+ String "}" "")))
    by (cbn [String.length]; rewrite length_app_s; cbn [String.length]; lia).
  replace (String "{" (inner +:+ String "}" post))
    with (String "{" (inner +:+ String "}" "") +:+ post)
    by by rewrite app_cons, app_assoc_s, app_cons, app_empty_l.
  apply substring_take.
Qed.

(** X24.  [extract_brace_block] returns a block exactly when the text has
    an opening brace before its last closing brace, and the block is then
    the text from its first opening brace to its last closing brace, both
    included: nothing before the block holds an opening brace and nothing
    after it a closing one.  Extracting from a block gives the block
    again.  [extract_json_block] returns the same block and raises a
    [ValueError] where [extract_brace_block] returns [None]. *)
Theorem extract_brace_block_spec (text : string) :
  (forall block,
     extract_brace_block text = Some block <->
     exists pre inner post,
       text = pre +:+ String "{" (inner +:+ String "}" post)
       /\ block = String "{" (inner +:+ String "}" "")
       /\ find "{" pre = None /\ rfind "}" post = None)
  /\ (forall block,
        extract_brace_block text = Some block ->
        extract_brace_block block = Some block)
  /\ extract_json_block text
     = match extract_brace_block text with
       | Some block => Ret block
       | None => Raise (ValueError "No JSON object found in LLM response")
       end.
Proof.
  assert (forall block,
            extract_brace_block text = Some block ->
            exists pre inner post,
              text = pre +:+ String "{" (inner +:+ String "}" post)
              /\ block = String "{" (inner +:+ String "}" "")
              /\ find "{" pre = None /\ rfind "}" post = None) as Hfound.
  { intros block Hblock.
    assert (exists start stop, find "{" text = Some start
                               /\ rfind "}" text = Some stop
                               /\ (start < stop)%nat) as (start & stop & Hs & He & Hlt).
    { unfold extract_brace_block in Hblock.
      destruct (find "{" text) as [start|]; [|done].
      destruct (rfind "}" text) as [stop|]; [|done].
      destruct (Nat.ltb_spec start stop); [|done]. by exists start, stop. }
    destruct (find_some _ _ _ Hs) as (pre & p & Htext & <- & Hpre).
    destruct (rfind_some _ _ _ He) as (b & post & Htext' & <- & Hpost).
    rewrite Htext in Htext'.
    destruct (app_split _ _ _ _ _ _ Htext' Hlt) as (inner & -> & ->).
    exists pre, inner, post. split_and!; try done.
    rewrite Htext, (extract_brace_block_found _ _ _ Hpre Hpost) in Hblock.
    by injection Hblock as <-. }
  split_and!.
  - intros block. split; [apply Hfound|].
    intros (pre & inner & post & -> & -> & Hpre & Hpost).
    by apply extract_brace_block_found.
  - intros block (pre & inner & post & _ & -> & _)%Hfound.
    by apply (extract_brace_block_found "" inner "").
  - unfold extract_json_block, extract_brace_block.
    destruct (find "{" text) as [start|]; [|done].
    destruct (rfind "}" text) as [stop|]; [|done].
    destruct (Nat.ltb_spec start stop), (Nat.leb_spec stop start); try done; lia.
Qed.

Lemma extract_brace_block_spec_witness :
  extract_brace_block "noise {'a': {'b': 1}} more } text" = Some "{'a': {'b': 1}} more }"
  /\ extract_brace_block "} {" = None.
Proof.
  split.
  - apply (proj1 (extract_brace_block_spec "noise {'a': {'b': 1}} more } text")).
    exists "noise ", "'a': {'b': 1}} more ", " text". by split_and!.
  - reflexivity.
Defined.

End brace_block.

(** ** [parsing.py]: module names *)
Section module_names.
Import py pystr pytext parsing.

Lemma lower_length (s : string) : String.length (lower s) = String.length s.
Proof. induction s as [|c s IH]; [done|]. cbn. by rewrite IH. Qed.

Lemma map_chars_length (f : ascii -> ascii) (s : string) :
  String.length (map_chars f s) = String.length s.
Proof. induction s as [|c s IH]; [done|]. cbn. by rewrite IH. Qed.

Lemma lower_app (a b : string) : lower (a +:+ b) = lower a +:+ lower b.
Proof. induction a as [|c a IH]; [done|]. rewrite !app_cons. cbn. by rewrite IH. Qed.

(** One character through the substitution and [lower]. *)
Lemma replaced_char (c : ascii) :
  is_module_char (lower_char (if is_word c then c else "_"%char)) = true
  /\ (is_digit c = false ->
      is_digit (lower_char (if is_word c then c else "_"%char)) = false)
  /\ (is_module_char c = true ->
      lower_char (if is_word c then c else "_"%char) = c).
Proof. destruct c as [[] [] [] [] [] [] [] []]; by vm_compute. Qed.

Lemma replaced_chars (s : string) :
  all_chars is_module_char
    (lower (map_chars (fun c => if is_word c then c else "_"%char) s)) = true.
Proof.
  induction s as [|c s IH]; [done|]. cbn [map_chars lower all_chars].
  by rewrite (proj1 (replaced_char c)), IH.
Qed.

Lemma kept_chars (s : string) :
  all_chars is_module_char s = true ->
  lower (map_chars (fun c => if is_word c then c else "_"%char) s) = s.
Proof.
  induction s as [|c s IH]; [done|]. cbn [map_chars lower all_chars].
  intros [Hc Hs]%andb_true_iff.
  by rewrite (proj2 (proj2 (replaced_char c)) Hc), (IH Hs).
Qed.

Lemma module_name_kept (s : string) :
  all_chars is_module_char s = true -> head_is is_digit s = false ->
  to_safe_module_name s = s.
Proof.
  intros Hs Hd. unfold to_safe_module_name. rewrite Hd, app_empty_l.
  by apply kept_chars.
Qed.

Lemma module_name_chars (name : string) :
  all_chars is_module_char (to_safe_module_name name) = true
  /\ head_is is_digit (to_safe_module_name name) = false.
Proof.
  unfold to_safe_module_name. rewrite lower_app. split.
  - destruct (head_is is_digit name).
    + change (lower "_") with "_". rewrite app_cons, app_empty_l.
      cbn [all_chars]. by rewrite replaced_chars.
    + change (lower "") with "". rewrite app_empty_l. apply replaced_chars.
  - destruct name as [|c name]; [done|]. cbn [head_is].
    destruct (is_digit c) eqn:Hc; [done|].
    rewrite app_empty_l. cbn [map_chars lower head_is].
    by apply (proj1 (proj2 (replaced_char c))).
Qed.

(** X25.  [to_safe_module_name] on an ASCII name: the result holds
    lower-case letters, digits and underscores only and does not start
    with a digit; it is as long as the name, one longer when the name
    starts with a digit; a name that already has this form is left as it
    is, so the function applied twice is the function applied once, and
    every name that it changes shares its module name with another
    name. *)
Theorem to_safe_module_name_spec (name : string) :
  all_chars is_ascii name = true ->
  all_chars is_module_char (to_safe_module_name name) = true
  /\ head_is is_digit (to_safe_module_name name) = false
  /\ String.length (to_safe_module_name name)
     = (String.length name + (if head_is is_digit name then 1 else 0))%nat
  /\ (all_chars is_module_char name = true -> head_is is_digit name = false ->
      to_safe_module_name name = name)
  /\ to_safe_module_name (to_safe_module_name name) = to_safe_module_name name
  /\ (to_safe_module_name name <> name ->
      exists other, other <> name
                    /\ to_safe_module_name other = to_safe_module_name name).
Proof.
  intros _.
  destruct (module_name_chars name) as [Hchars Hhead].
  assert (to_safe_module_name (to_safe_module_name name)
          = to_safe_module_name name) as Hidem by by apply module_name_kept.
  split_and!.
  - exact Hchars.
  - exact Hhead.
  - unfold to_safe_module_name.
    rewrite lower_length, length_app_s, map_chars_length.
    destruct (head_is is_digit name); cbn; lia.
  - apply module_name_kept.
  - exact Hidem.
  - intros Hchanged. by exists (to_safe_module_name name).
Qed.

Lemma to_safe_module_name_spec_witness :
  to_safe_module_name "2 Fast-Tools" = "_2_fast_tools"
  /\ to_safe_module_name (to_safe_module_name "2 Fast-Tools")
     = to_safe_module_name "2 Fast-Tools".
Proof.
  split; [reflexivity|].
  apply (to_safe_module_name_spec "2 Fast-Tools"). reflexivity.
Defined.

End module_names.
